(** * tribe-widget: availability matching and the plan page ledgers

    A shallow embedding of the two client components found in
    [app/p/[slug]/page.tsx]:

    - [RequestPage], the page of a hang request: [overlapMinutes], the
      [overlaps] memo and [createPlanFromOverlap];
    - [PlanPage], the page of a plan: [load] and its polling interval,
      [setRSVP], [setArrival], [ensurePotluckDefaults], [claimItem],
      [unclaimItem].

    Conventions.  A JavaScript [Date] is represented by its time value, the
    number of milliseconds since the epoch, as a [Z]: [addWindow] rejects
    invalid dates before it stores a window, so every date the overlap code
    sees is a valid one.  The minutes of an overlap, a quotient of two
    integers, are a rational ([Q]).  Strings are the byte strings of
    [String], holding the text in UTF-8; [string | null] is [option
    string].  The record store behind
    the [supabase] client is an explicit value of type [Store.DB]; every
    call to it takes the outcome of the request (served, or failed with a
    message) as an argument.  A handler runs from its first statement to
    its last without another one in between; the one effect that starts
    while [load] is waiting, the seeding of a potluck, is placed within
    [load] in [PlanPage.load_and_effect]. *)

From Stdlib Require Import ZArith QArith Qround String Ascii List.
From stdpp Require Import base decidable list strings gmap sorting.

Local Open Scope string_scope.
Local Open Scope Z_scope.

(** ** JavaScript built-ins used by the pages *)

Module Js.

(** [x || ""] on a [string | null]. *)
Definition or_empty (x : option string) : string :=
  match x with
  | Some s => s
  | None => ""
  end.

(** The white space and the line terminators that [String.prototype.trim]
    strips, as UTF-8 writes them.  One byte: TAB, LF, VT, FF, CR and
    SPACE; and the byte 160, which is the no-break space in a text that
    has one byte for each character up to U+00FF and which no character
    of a UTF-8 text starts with. *)
Definition is_white (c : ascii) : bool :=
  let n := nat_of_ascii c in
  ((9 <=? n)%nat && (n <=? 13)%nat) || (n =? 32)%nat || (n =? 160)%nat.

(** Two bytes: U+00A0, the no-break space. *)
Definition is_white2 (a b : ascii) : bool :=
  (nat_of_ascii a =? 194)%nat && (nat_of_ascii b =? 160)%nat.

(** Three bytes: U+1680; U+2000 to U+200A, the line and paragraph
    separators U+2028 and U+2029, U+202F; U+205F; U+3000; and the byte
    order mark U+FEFF. *)
Definition is_white3 (a b c : ascii) : bool :=
  let x := nat_of_ascii a in
  let y := nat_of_ascii b in
  let z := nat_of_ascii c in
  ((x =? 225) && (y =? 154) && (z =? 128))%nat ||
  ((x =? 226) && (y =? 128) &&
   (((128 <=? z) && (z <=? 138)) || (z =? 168) || (z =? 169) || (z =? 175)))%nat ||
  ((x =? 226) && (y =? 129) && (z =? 159))%nat ||
  ((x =? 227) && (y =? 128) && (z =? 128))%nat ||
  ((x =? 239) && (y =? 187) && (z =? 191))%nat.

(** [s] without the white space character it starts with, if it starts
    with one. *)
Definition strip (s : string) : option string :=
  match s with
  | String a s1 =>
      if is_white a then Some s1
      else
        match s1 with
        | String b s2 =>
            if is_white2 a b then Some s2
            else
              match s2 with
              | String c s3 => if is_white3 a b c then Some s3 else None
              | EmptyString => None
              end
        | EmptyString => None
        end
  | EmptyString => None
  end.

Fixpoint trimStart (s : string) : string :=
  match s with
  | String a s1 =>
      if is_white a then trimStart s1
      else
        match s1 with
        | String b s2 =>
            if is_white2 a b then trimStart s2
            else
              match s2 with
              | String c s3 => if is_white3 a b c then trimStart s3 else s
              | EmptyString => s
              end
        | EmptyString => s
        end
  | EmptyString => EmptyString
  end.

(** A byte of a character that UTF-8 writes with more than one byte, and a
    byte that is not the first of its character. *)
Definition is_high (c : ascii) : bool := (128 <=? nat_of_ascii c)%nat.

Definition is_cont (c : ascii) : bool :=
  let n := nat_of_ascii c in (128 <=? n)%nat && (n <=? 191)%nat.

(** The longest part at the end of [s] that is white space throughout is
    cut off.  The cut is not made within a character: [inside] says that
    the byte before [s] is of a character of more than one byte, which a
    byte of [is_cont] then continues. *)
Fixpoint trimEnd_from (inside : bool) (s : string) : string :=
  match s with
  | String c s' =>
      if negb (inside && is_cont c) && String.eqb (trimStart s) ""
      then EmptyString
      else String c (trimEnd_from (is_high c) s')
  | EmptyString => EmptyString
  end.

Definition trimEnd (s : string) : string := trimEnd_from false s.

Definition trim (s : string) : string := trimEnd (trimStart s).

(** [String.prototype.toLowerCase] on the letters A-Z. *)
Definition lower (c : ascii) : ascii :=
  let n := nat_of_ascii c in
  if ((65 <=? n)%nat && (n <=? 90)%nat) then ascii_of_nat (n + 32) else c.

Fixpoint toLowerCase (s : string) : string :=
  match s with
  | String c s' => String (lower c) (toLowerCase s')
  | EmptyString => EmptyString
  end.

(** [s.includes(needle)]. *)
Fixpoint includes (needle s : string) : bool :=
  String.prefix needle s ||
  match s with
  | String _ s' => includes needle s'
  | EmptyString => false
  end.

(** [Math.round]: the nearest integer, halves going up. *)
Definition round (x : Q) : Z := Qfloor (x + (1 # 2)).

(** [n] decimal digits of a natural number [z], most significant first. *)
Fixpoint pad (n : nat) (z : Z) : string :=
  match n with
  | O => ""
  | S n' => pad n' (z / 10) +:+ String (ascii_of_nat (48 + Z.to_nat (z mod 10))) ""
  end.

(** [Date.prototype.toISOString] of the time value [t]: the proleptic
    Gregorian date of day [t / 86400000], four digits for the years 0 to
    9999 and a sign with six digits otherwise. *)
Definition toISOString (t : Z) : string :=
  let day := t / 86400000 in
  let ms := t mod 86400000 in
  let z := day + 719468 in
  let era := z / 146097 in
  let doe := z - era * 146097 in
  let yoe := (doe - doe / 1460 + doe / 36524 - doe / 146096) / 365 in
  let doy := doe - (365 * yoe + yoe / 4 - yoe / 100) in
  let mp := (5 * doy + 2) / 153 in
  let d := doy - (153 * mp + 2) / 5 + 1 in
  let m := if mp <? 10 then mp + 3 else mp - 9 in
  let y := yoe + era * 400 + (if m <=? 2 then 1 else 0) in
  let year :=
    if (0 <=? y) && (y <=? 9999) then pad 4 y
    else (if y <? 0 then "-" else "+") +:+ pad 6 (Z.abs y) in
  year +:+ "-" +:+ pad 2 m +:+ "-" +:+ pad 2 d +:+ "T" +:+
  pad 2 (ms / 3600000) +:+ ":" +:+ pad 2 (ms / 60000 mod 60) +:+ ":" +:+
  pad 2 (ms / 1000 mod 60) +:+ "." +:+ pad 3 (ms mod 1000) +:+ "Z".

(** The time values a [Date] can hold: 100 million days on either side of
    the epoch.  Any other [Date] is an invalid one. *)
Definition valid_time (t : Z) : Prop :=
  - 8640000000000000 <= t <= 8640000000000000.

End Js.

(** ** The record store

    The tables the pages read and write through the [supabase] client, with
    the columns of the row types the pages declare.  The store is a service
    outside the repository; its requests are modelled as the pages build
    them: [select] with [eq] filters, [insert], [update] through [eq("id",
    ..)], and [upsert] with the conflict target the pages name.  A table is
    the list of its rows, newest first, which is the order the pages ask
    for ([order("created_at", { ascending: false })]); the [created_at]
    column has no other use and is left out.  Primary keys are drawn from a
    counter. *)

Module Store.

Definition uuid := nat.

(** ["in" | "maybe" | "out"] *)
Inductive Status := st_in | st_maybe | st_out.

Record HangRequest := {
  req_id : uuid;
  req_slug : string;
  req_title : string;
  req_type : string;
  req_note : option string
}.

Record Plan := {
  id : uuid;
  slug : string;
  request_id : option uuid;
  title : string;
  type : string;
  note : option string;
  start_ts : string;
  end_ts : string;
  location : option string
}.

Record ResponseRow := {
  resp_id : uuid;
  resp_plan_id : uuid;
  user_key : string;
  user_name : option string;
  status : Status;
  arrival : option string
}.

Record ClaimRow := {
  claim_id : uuid;
  claim_plan_id : uuid;
  item : string;
  claimed_by : option string
}.

Record DB := {
  plans : list Plan;
  responses : list ResponseRow;
  claims : list ClaimRow;
  next_id : uuid
}.

(** What a request resolves to: [{ data, error: null }] or
    [{ data: null, error }]. *)
Inductive Reply (A : Type) :=
  | Data (a : A)
  | Error (message : string).
Arguments Data {A} a.
Arguments Error {A} message.

Definition data {A} (r : Reply A) : option A :=
  match r with Data a => Some a | Error _ => None end.
Definition error {A} (r : Reply A) : option string :=
  match r with Data _ => None | Error m => Some m end.

(** The outcome of one request, decided outside the pages: [None] when the
    store serves it, [Some message] when it fails, be it for the network or
    for a constraint of the schema (and then it writes nothing). *)
Definition Fault := option string.

Definition not_single : string :=
  "JSON object requested, multiple (or no) rows returned".

(** [from("plans").select("*").eq("slug", slug).single()] *)
Definition select_plan (f : Fault) (sl : string) (db : DB) : Reply Plan :=
  match f with
  | Some m => Error m
  | None =>
      match List.filter (fun p => String.eqb (slug p) sl) (plans db) with
      | [p] => Data p
      | _ => Error not_single
      end
  end.

(** The rows of a plan, newest first. *)
Definition responses_of (planId : uuid) (db : DB) : list ResponseRow :=
  List.filter (fun r => Nat.eqb (resp_plan_id r) planId) (responses db).

Definition claims_of (planId : uuid) (db : DB) : list ClaimRow :=
  List.filter (fun c => Nat.eqb (claim_plan_id c) planId) (claims db).

(** [from("responses").select("*").eq("plan_id", planId).order(...)] *)
Definition select_responses (f : Fault) (planId : uuid) (db : DB)
  : Reply (list ResponseRow) :=
  match f with
  | Some m => Error m
  | None => Data (responses_of planId db)
  end.

(** [from("claims").select("*").eq("plan_id", planId).order(...)] *)
Definition select_claims (f : Fault) (planId : uuid) (db : DB)
  : Reply (list ClaimRow) :=
  match f with
  | Some m => Error m
  | None => Data (claims_of planId db)
  end.

(** The columns a page sends for a response. *)
Record ResponsePayload := {
  pl_plan_id : uuid;
  pl_user_key : string;
  pl_user_name : string;
  pl_status : Status;
  pl_arrival : option string
}.

Definition conflicts (p : ResponsePayload) (r : ResponseRow) : bool :=
  Nat.eqb (resp_plan_id r) (pl_plan_id p) && String.eqb (user_key r) (pl_user_key p).

(** On conflict the columns of the payload overwrite those of the row; the
    row keeps its primary key. *)
Definition merge (p : ResponsePayload) (r : ResponseRow) : ResponseRow :=
  {| resp_id := resp_id r;
     resp_plan_id := pl_plan_id p;
     user_key := pl_user_key p;
     user_name := Some (pl_user_name p);
     status := pl_status p;
     arrival := pl_arrival p |}.

Definition fresh_response (i : uuid) (p : ResponsePayload) : ResponseRow :=
  {| resp_id := i;
     resp_plan_id := pl_plan_id p;
     user_key := pl_user_key p;
     user_name := Some (pl_user_name p);
     status := pl_status p;
     arrival := pl_arrival p |}.

Definition upserted (p : ResponsePayload) (r : ResponseRow) : ResponseRow :=
  if conflicts p r then merge p r else r.

(** [from("responses").upsert(payload, { onConflict: "plan_id,user_key" })] *)
Definition upsert_response (f : Fault) (p : ResponsePayload) (db : DB)
  : DB * option string :=
  match f with
  | Some m => (db, Some m)
  | None =>
      if existsb (conflicts p) (responses db) then
        ({| plans := plans db;
            responses := map (upserted p) (responses db);
            claims := claims db;
            next_id := next_id db |}, None)
      else
        ({| plans := plans db;
            responses := fresh_response (next_id db) p :: responses db;
            claims := claims db;
            next_id := S (next_id db) |}, None)
  end.

(** The columns a page sends for a claim. *)
Record ClaimPayload := {
  cl_plan_id : uuid;
  cl_item : string;
  cl_claimed_by : option string
}.

Definition fresh_claim (i : uuid) (p : ClaimPayload) : ClaimRow :=
  {| claim_id := i;
     claim_plan_id := cl_plan_id p;
     item := cl_item p;
     claimed_by := cl_claimed_by p |}.

(** The rows of one insert get consecutive keys and share their creation
    time; they are listed in the order of the payload. *)
Fixpoint number_claims (i : uuid) (ps : list ClaimPayload) : list ClaimRow :=
  match ps with
  | [] => []
  | p :: ps' => fresh_claim i p :: number_claims (S i) ps'
  end.

(** [from("claims").insert(rows)] *)
Definition insert_claims (f : Fault) (ps : list ClaimPayload) (db : DB)
  : DB * option string :=
  match f with
  | Some m => (db, Some m)
  | None =>
      ({| plans := plans db;
          responses := responses db;
          claims := number_claims (next_id db) ps ++ claims db;
          next_id := (next_id db + length ps)%nat |}, None)
  end.

Definition with_claimed_by (v : option string) (c : ClaimRow) : ClaimRow :=
  {| claim_id := claim_id c;
     claim_plan_id := claim_plan_id c;
     item := item c;
     claimed_by := v |}.

Definition updated (v : option string) (i : uuid) (c : ClaimRow) : ClaimRow :=
  if Nat.eqb (claim_id c) i then with_claimed_by v c else c.

(** [from("claims").update({ claimed_by }).eq("id", id)] *)
Definition update_claimed_by (f : Fault) (v : option string) (i : uuid) (db : DB)
  : DB * option string :=
  match f with
  | Some m => (db, Some m)
  | None =>
      ({| plans := plans db;
          responses := responses db;
          claims := map (updated v i) (claims db);
          next_id := next_id db |}, None)
  end.

(** The columns the request page sends for a plan; [location] is not among
    them and stays null. *)
Record PlanPayload := {
  pp_slug : string;
  pp_request_id : uuid;
  pp_title : string;
  pp_type : string;
  pp_note : option string;
  pp_start_ts : string;
  pp_end_ts : string
}.

Definition fresh_plan (i : uuid) (p : PlanPayload) : Plan :=
  {| id := i;
     slug := pp_slug p;
     request_id := Some (pp_request_id p);
     title := pp_title p;
     type := pp_type p;
     note := pp_note p;
     start_ts := pp_start_ts p;
     end_ts := pp_end_ts p;
     location := None |}.

(** [from("plans").insert(row)] *)
Definition insert_plan (f : Fault) (p : PlanPayload) (db : DB) : DB * option string :=
  match f with
  | Some m => (db, Some m)
  | None =>
      ({| plans := fresh_plan (next_id db) p :: plans db;
          responses := responses db;
          claims := claims db;
          next_id := S (next_id db) |}, None)
  end.

(** Modelled from the spec: the unique constraint of the [responses] table,
    whose schema is not among the sources (section 6: "unique on [(plan_id,
    user_key)]").  It is the conflict target that [setRSVP] and
    [setArrival] name: no two responses of a plan come from the same
    participant token. *)
Definition unique_responses (db : DB) : Prop :=
  NoDup (map (fun r => (resp_plan_id r, user_key r)) (responses db)).

(** The responses stored for a plan and a participant token. *)
Definition responses_by (planId : uuid) (key : string) (db : DB) : list ResponseRow :=
  List.filter (fun r => Nat.eqb (resp_plan_id r) planId && String.eqb (user_key r) key)
              (responses db).

(** Who holds an item of a plan: [None] when the plan has no such item,
    [Some None] when nobody has claimed it. *)
Definition claimant (planId : uuid) (it : string) (db : DB) : option (option string) :=
  claimed_by <$> find (fun c => String.eqb (item c) it) (claims_of planId db).

End Store.

(** ** The request page: component [RequestPage] *)

Module RequestPage.

Import Store.

(** [overlapMinutes(aStart, aEnd, bStart, bEnd)]; the arguments are the
    dates' [getTime()]. *)
Definition overlapMinutes (aStart aEnd bStart bEnd : Z) : Q :=
  let start := Z.max aStart bStart in
  let end_ := Z.min aEnd bEnd in
  let ms := end_ - start in
  if 0 <? ms then (inject_Z ms / inject_Z 60000)%Q else 0%Q.

(** An element of [windows]: [{ start: new Date(r.start_ts), end: new
    Date(r.end_ts) }]. *)
Record Window := { w_start : Z; w_end : Z }.

(** Both dates of the window are valid ones. *)
Definition valid_window (w : Window) : Prop :=
  Js.valid_time (w_start w) /\ Js.valid_time (w_end w).

(** An element of [out]: [{ start, end, minutes }]. *)
Record Candidate := { start : Z; end_ : Z; minutes : Z }.

(** The body of the inner loop for the pair [(a, b)]. *)
Definition pair_overlap (a b : Window) : list Candidate :=
  let mins := overlapMinutes (w_start a) (w_end a) (w_start b) (w_end b) in
  if Qle_bool 30 mins then
    [ {| start := Z.max (w_start a) (w_start b);
         end_ := Z.min (w_end a) (w_end b);
         minutes := Js.round mins |} ]
  else [].

(** [for (i = 0 ..) for (j = i + 1 ..) ...]: what the two loops push to
    [out], in the order they push it. *)
Fixpoint pairwise (windows : list Window) : list Candidate :=
  match windows with
  | [] => []
  | a :: rest => flat_map (pair_overlap a) rest ++ pairwise rest
  end.

(** [deduped.sort(compare)]: [Array.prototype.sort] is stable, so its
    result is that of inserting each element before the sorted rest at the
    first place where [compare] is not positive. *)
Fixpoint place {A} (compare : A -> A -> Z) (x : A) (sorted : list A) : list A :=
  match sorted with
  | [] => [x]
  | y :: ys => if compare x y <=? 0 then x :: sorted else y :: place compare x ys
  end.

Definition sort {A} (compare : A -> A -> Z) (l : list A) : list A :=
  foldr (place compare) [] l.

(** [(a, b) => a.start.getTime() - b.start.getTime()] *)
Definition by_start (a b : Candidate) : Z := start a - start b.

(** The order the sort leaves the candidates in. *)
Definition starts_before (a b : Candidate) : Prop := start a <= start b.

(** The window of a candidate. *)
Definition span (o : Candidate) : Z * Z := (start o, end_ o).

(** The page as far as the promotion of a candidate goes: the loaded
    request, the error banner and the route pushed to the router. *)
Record State := {
  req : option HangRequest;
  err : option string;
  pushed : option string
}.

Definition setErr (e : option string) (s : State) : State :=
  {| req := req s; err := e; pushed := pushed s |}.

Definition push (path : string) (s : State) : State :=
  {| req := req s; err := err s; pushed := Some path |}.

Section WithDates.

(** [Date.prototype.toISOString] *)
Variable toISOString : Z -> string.

Definition key (o : Candidate) : string :=
  toISOString (start o) +:+ "_" +:+ toISOString (end_ o).

(** [out.filter((o) => { ... seen ... })], started with the keys in
    [seen]. *)
Fixpoint dedupe (seen : gset string) (out : list Candidate) : list Candidate :=
  match out with
  | [] => []
  | o :: out' =>
      if decide (key o ∈ seen) then dedupe seen out'
      else o :: dedupe ({[ key o ]} ∪ seen) out'
  end.

(** The [overlaps] memo, from the list [windows] on. *)
Definition overlaps (windows : list Window) : list Candidate :=
  let out := pairwise windows in
  let deduped := dedupe ∅ out in
  take 8 (sort by_start deduped).

(** [createPlanFromOverlap(start, end)]; [planSlug] is what [nanoid(10)]
    returns in this call and [f] the outcome of the insert. *)
Definition createPlanFromOverlap (planSlug : string) (f : Fault) (start end_ : Z)
    (db : DB) (s : State) : DB * State :=
  match req s with
  | None => (db, s)
  | Some r =>
      let '(db', error) :=
        insert_plan f
          {| pp_slug := planSlug;
             pp_request_id := req_id r;
             pp_title := req_title r;
             pp_type := req_type r;
             pp_note := req_note r;
             pp_start_ts := toISOString start;
             pp_end_ts := toISOString end_ |} db in
      match error with
      | Some m => (db', setErr (Some m) s)
      | None => (db', push ("/p/" +:+ planSlug) s)
      end
  end.

End WithDates.

End RequestPage.

(** ** The plan page: component [PlanPage] *)

Module PlanPage.

Import Store.

Definition DEFAULT_POTLUCK_ITEMS : list string :=
  [ "Main dish"; "Salad / Veg"; "Snack / App"; "Dessert"; "Drinks" ].

(** The component's state: the route parameter, the participant token of
    [useMemo(() => getUserKey())], the five [useState] cells read by the
    handlers, the name field, and the [tw_user_name] entry of
    [localStorage]. *)
Record State := {
  slug : string;
  userKey : string;
  plan : option Plan;
  responses : list ResponseRow;
  claims : list ClaimRow;
  loading : bool;
  err : option string;
  name : string;
  tw_user_name : string
}.

Definition setPlan (p : option Plan) (s : State) : State :=
  {| slug := slug s; userKey := userKey s; plan := p; responses := responses s;
     claims := claims s; loading := loading s; err := err s; name := name s;
     tw_user_name := tw_user_name s |}.

Definition setResponses (rs : list ResponseRow) (s : State) : State :=
  {| slug := slug s; userKey := userKey s; plan := plan s; responses := rs;
     claims := claims s; loading := loading s; err := err s; name := name s;
     tw_user_name := tw_user_name s |}.

Definition setClaims (cs : list ClaimRow) (s : State) : State :=
  {| slug := slug s; userKey := userKey s; plan := plan s; responses := responses s;
     claims := cs; loading := loading s; err := err s; name := name s;
     tw_user_name := tw_user_name s |}.

Definition setLoading (b : bool) (s : State) : State :=
  {| slug := slug s; userKey := userKey s; plan := plan s; responses := responses s;
     claims := claims s; loading := b; err := err s; name := name s;
     tw_user_name := tw_user_name s |}.

Definition setErr (e : option string) (s : State) : State :=
  {| slug := slug s; userKey := userKey s; plan := plan s; responses := responses s;
     claims := claims s; loading := loading s; err := e; name := name s;
     tw_user_name := tw_user_name s |}.

Definition setUserName (n : string) (s : State) : State :=
  {| slug := slug s; userKey := userKey s; plan := plan s; responses := responses s;
     claims := claims s; loading := loading s; err := err s; name := name s;
     tw_user_name := n |}.

(** The outcomes of the three requests of one [load]. *)
Record LoadFaults := {
  plan_fault : Fault;
  resp_fault : Fault;
  claim_fault : Fault
}.

Definition served : LoadFaults :=
  {| plan_fault := None; resp_fault := None; claim_fault := None |}.

(** [load(showSpinner)] *)
Definition load (showSpinner : bool) (f : LoadFaults) (db : DB) (s : State) : State :=
  let s := if showSpinner then setLoading true s else s in
  let s := setErr None s in
  match select_plan (plan_fault f) (slug s) db with
  | Error message =>
      let s := setErr (Some message) s in
      if showSpinner then setLoading false s else s
  | Data planData =>
      let s := setPlan (Some planData) s in
      let planId := id planData in
      let resp := select_responses (resp_fault f) planId db in
      let s := match error resp with Some m => setErr (Some m) s | None => s end in
      let s := setResponses (default [] (data resp)) s in
      let claim := select_claims (claim_fault f) planId db in
      let s := match error claim with Some m => setErr (Some m) s | None => s end in
      let s := setClaims (default [] (data claim)) s in
      if showSpinner then setLoading false s else s
  end.

(** One turn of the polling interval: [load(false)]. *)
Definition tick : LoadFaults -> DB -> State -> State := load false.

(** The [myResponse] memo. *)
Definition myResponse (s : State) : option ResponseRow :=
  match plan s with
  | None => None
  | Some _ => find (fun r => String.eqb (user_key r) (userKey s)) (responses s)
  end.

Definition name_first : string := "Add your name first.".
Definition only_claimant : string := "Only the person who claimed it can unclaim.".

(** The statements that [setRSVP] and [setArrival] share after building
    their payload: [upsert(payload, { onConflict: "plan_id,user_key" })],
    then [setErr(error.message); return] on an error, [load(false)]
    otherwise. *)
Definition submit (payload : ResponsePayload) (w : Fault) (f : LoadFaults)
    (db : DB) (s : State) : DB * State :=
  let '(db', error) := upsert_response w payload db in
  match error with
  | Some m => (db', setErr (Some m) s)
  | None => (db', load false f db' s)
  end.

(** [setRSVP(status)]; [w] is the outcome of the upsert and [f] those of
    the reload. *)
Definition setRSVP (st : Status) (w : Fault) (f : LoadFaults) (db : DB) (s : State)
  : DB * State :=
  match plan s with
  | None => (db, s)
  | Some p =>
      let mine := myResponse s in
      let s := setErr None s in
      if String.eqb (Js.trim (name s)) "" then (db, setErr (Some name_first) s)
      else
        let s := setUserName (Js.trim (name s)) s in
        submit {| pl_plan_id := id p;
                  pl_user_key := userKey s;
                  pl_user_name := Js.trim (name s);
                  pl_status := st;
                  pl_arrival := mine ≫= arrival |} w f db s
  end.

(** [setArrival(arrival)] *)
Definition setArrival (a : string) (w : Fault) (f : LoadFaults) (db : DB) (s : State)
  : DB * State :=
  match plan s with
  | None => (db, s)
  | Some p =>
      let mine := myResponse s in
      let s := setErr None s in
      if String.eqb (Js.trim (name s)) "" then (db, setErr (Some name_first) s)
      else
        let s := setUserName (Js.trim (name s)) s in
        submit {| pl_plan_id := id p;
                  pl_user_key := userKey s;
                  pl_user_name := Js.trim (name s);
                  pl_status := default st_maybe (status <$> mine);
                  pl_arrival := Some a |} w f db s
  end.

(** [(item) => ({ plan_id: plan.id, item, claimed_by: null })] *)
Definition unclaimed_row (planId : uuid) (i : string) : ClaimPayload :=
  {| cl_plan_id := planId; cl_item := i; cl_claimed_by := None |}.

(** [ensurePotluckDefaults()] *)
Definition ensurePotluckDefaults (w : Fault) (f : LoadFaults) (db : DB) (s : State)
  : DB * State :=
  match plan s with
  | None => (db, s)
  | Some p =>
      let existing : gset string := list_to_set (map item (claims s)) in
      let missing := filter (fun i => i ∉ existing) DEFAULT_POTLUCK_ITEMS in
      if Nat.eqb (length missing) 0 then (db, s)
      else
        let '(db', error) :=
          insert_claims w (map (unclaimed_row (id p)) missing) db in
        let s := match error with Some m => setErr (Some m) s | None => s end in
        (db', load false f db' s)
  end.

(** [plan?.type?.toLowerCase().includes("potluck")] *)
Definition isPotluck (s : State) : bool :=
  match plan s with
  | None => false
  | Some p => Js.includes "potluck" (Js.toLowerCase (type p))
  end.

(** The body of the effect on [plan?.id], which seeds the defaults of a
    potluck. *)
Definition potluckEffect (w : Fault) (f : LoadFaults) (db : DB) (s : State)
  : DB * State :=
  if isPotluck s then ensurePotluckDefaults w f db s else (db, s).

(** [claimItem(item)] *)
Definition claimItem (it : string) (w : Fault) (f : LoadFaults) (db : DB) (s : State)
  : DB * State :=
  match plan s with
  | None => (db, s)
  | Some _ =>
      let s := setErr None s in
      if String.eqb (Js.trim (name s)) "" then (db, setErr (Some name_first) s)
      else
        let s := setUserName (Js.trim (name s)) s in
        match find (fun c => String.eqb (item c) it) (claims s) with
        | None => (db, s)
        | Some existing =>
            let '(db', error) :=
              update_claimed_by w (Some (Js.trim (name s))) (claim_id existing) db in
            match error with
            | Some m => (db', setErr (Some m) s)
            | None => (db', load false f db' s)
            end
        end
  end.

(** [unclaimItem(item)] *)
Definition unclaimItem (it : string) (w : Fault) (f : LoadFaults) (db : DB) (s : State)
  : DB * State :=
  match plan s with
  | None => (db, s)
  | Some _ =>
      let s := setErr None s in
      match find (fun c => String.eqb (item c) it) (claims s) with
      | None => (db, s)
      | Some existing =>
          if negb (String.eqb (Js.or_empty (claimed_by existing))
                              (Js.or_empty (Some (Js.trim (name s)))))
          then (db, setErr (Some only_claimant) s)
          else
            let '(db', error) := update_claimed_by w None (claim_id existing) db in
            match error with
            | Some m => (db', setErr (Some m) s)
            | None => (db', load false f db' s)
            end
      end
  end.

(** The default items that none of the rows [cs] is for. *)
Definition lacking (cs : list ClaimRow) : list string :=
  filter (fun i => i ∉ map item cs) DEFAULT_POTLUCK_ITEMS.

(** The page shows the store: its plan is the one the store returns for
    the slug, and its two lists are that plan's rows.  This is the state a
    [load] leaves behind when its three requests are served. *)
Definition shows (db : DB) (s : State) (p : Plan) : Prop :=
  plan s = Some p /\
  select_plan None (slug s) db = Data p /\
  responses s = responses_of (id p) db /\
  claims s = claims_of (id p) db.

(** The [counts] memo: [{ in, maybe, out }]. *)
Record Counts := { c_in : nat; c_maybe : nat; c_out : nat }.

(** [c[r.status]++] *)
Definition bump (c : Counts) (st : Status) : Counts :=
  match st with
  | st_in => {| c_in := S (c_in c); c_maybe := c_maybe c; c_out := c_out c |}
  | st_maybe => {| c_in := c_in c; c_maybe := S (c_maybe c); c_out := c_out c |}
  | st_out => {| c_in := c_in c; c_maybe := c_maybe c; c_out := S (c_out c) |}
  end.

Definition counts (s : State) : Counts :=
  fold_left (fun c r => bump c (status r)) (responses s)
            {| c_in := 0; c_maybe := 0; c_out := 0 |}.

(** What the component returns: "Loading...", "Plan not found." or the
    plan card with its sections. *)
Inductive Screen := Spinner | NotFound | Card.

Definition screen (s : State) : Screen :=
  if loading s then Spinner
  else match plan s with
       | None => NotFound
       | Some _ => Card
       end.

(** A [string | null] used as a condition. *)
Definition truthy (x : option string) : bool :=
  match x with
  | Some v => negb (String.eqb v "")
  | None => false
  end.

(** [const mine = (c.claimed_by || "") === (name.trim() || "")] *)
Definition mine (s : State) (c : ClaimRow) : bool :=
  String.eqb (Js.or_empty (claimed_by c)) (Js.or_empty (Some (Js.trim (name s)))).

(** [{!c.claimed_by && <button>Claim</button>}] *)
Definition offersClaim (c : ClaimRow) : bool := negb (truthy (claimed_by c)).

(** [{c.claimed_by && mine && <button>Unclaim</button>}] *)
Definition offersUnclaim (s : State) (c : ClaimRow) : bool :=
  truthy (claimed_by c) && mine s c.

(** A display name as the handlers write it: not empty and without white
    space at its ends. *)
Definition clean (n : string) : Prop := n <> "" /\ Js.trim n = n.

(** No name in the store is blank or untrimmed. *)
Definition names_clean (db : DB) : Prop :=
  Forall (fun r => forall n, user_name r = Some n -> clean n) (Store.responses db) /\
  Forall (fun c => forall n, claimed_by c = Some n -> clean n) (Store.claims db).

(** No row refers to a plan that the store has yet to number. *)
Definition rows_of_known_plans (db : DB) : Prop :=
  Forall (fun r => (resp_plan_id r < next_id db)%nat) (Store.responses db) /\
  Forall (fun c => (claim_plan_id c < next_id db)%nat) (Store.claims db).

(** The page as the component first renders it for the route [sl]:
    [useState] initial values, with the token and the saved name read from
    the browser. *)
Definition first_render (sl key saved : string) : State :=
  {| slug := sl; userKey := key; plan := None; responses := []; claims := [];
     loading := true; err := None; name := saved; tw_user_name := saved |}.

(** The statements of [load] that follow [setPlan]: the two lists are
    fetched and set. *)
Definition load_lists (showSpinner : bool) (f : LoadFaults) (planData : Plan)
    (db : DB) (s : State) : State :=
  let planId := id planData in
  let resp := select_responses (resp_fault f) planId db in
  let s := match error resp with Some m => setErr (Some m) s | None => s end in
  let s := setResponses (default [] (data resp)) s in
  let claim := select_claims (claim_fault f) planId db in
  let s := match error claim with Some m => setErr (Some m) s | None => s end in
  let s := setClaims (default [] (data claim)) s in
  if showSpinner then setLoading false s else s.

(** [plan?.id], the dependency of the effect that seeds a potluck. *)
Definition plan_id (s : State) : option uuid := id <$> plan s.

(** [load] together with the effect on [plan?.id], in the order React and
    the requests give them.  [load] calls [setPlan] and waits for the
    responses; the component renders, and if [plan?.id] is not what it was
    the effect runs with the state of that render: the new plan, and the
    [claims] the page held before this [load], since [setClaims] is yet to
    come.  The insert of [ensurePotluckDefaults] is on its way before
    [load] asks for the claims, so [load] goes on against the store that
    has the new rows; when the insert has answered, [ensurePotluckDefaults]
    goes on to its own [load(false)].  [w] is the outcome of the insert,
    [f] those of the requests of [load] and [g] those of the reload. *)
Definition load_and_effect (showSpinner : bool) (w : Fault) (f g : LoadFaults)
    (db : DB) (s : State) : DB * State :=
  let s0 := setErr None (if showSpinner then setLoading true s else s) in
  match select_plan (plan_fault f) (slug s0) db with
  | Error message =>
      let s1 := setErr (Some message) s0 in
      (db, if showSpinner then setLoading false s1 else s1)
  | Data planData =>
      let s1 := setPlan (Some planData) s0 in
      if bool_decide (plan_id s1 <> plan_id s) && isPotluck s1 then
        let existing : gset string := list_to_set (map item (claims s1)) in
        let missing := filter (fun i => i ∉ existing) DEFAULT_POTLUCK_ITEMS in
        if Nat.eqb (length missing) 0
        then (db, load_lists showSpinner f planData db s1)
        else
          let '(db', error) :=
            insert_claims w (map (unclaimed_row (id planData)) missing) db in
          let s2 := load_lists showSpinner f planData db' s1 in
          let s3 := match error with Some m => setErr (Some m) s2 | None => s2 end in
          (db', load false g db' s3)
      else (db, load_lists showSpinner f planData db s1)
  end.

End PlanPage.

(** ** The browser: [localStorage] behind [getUserKey], [getUserName] and
    [setUserName]

    [None] stands for a render without [window]; otherwise the storage is
    the map of its entries. *)

Module Browser.

(** [getUserKey()]; [fresh] is what [crypto.randomUUID()] returns if it is
    called. *)
Definition getUserKey (fresh : string) (w : option (gmap string string))
  : string * option (gmap string string) :=
  match w with
  | None => ("server", None)
  | Some ls =>
      let existing := ls !! "tw_user_key" in
      if PlanPage.truthy existing then (Js.or_empty existing, Some ls)
      else (fresh, Some (<["tw_user_key" := fresh]> ls))
  end.

(** [getUserName()] *)
Definition getUserName (w : option (gmap string string)) : string :=
  match w with
  | None => ""
  | Some ls => Js.or_empty (ls !! "tw_user_name")
  end.

(** [setUserName(name)] *)
Definition setUserName (n : string) (w : option (gmap string string))
  : option (gmap string string) :=
  match w with
  | None => None
  | Some ls => Some (<["tw_user_name" := n]> ls)
  end.

End Browser.

(** ** The request page: loading the request and adding a window

    The tables [hang_requests] and [availability_windows], and the part of
    [RequestPage] that reads and writes them. *)

Module Availability.

Import Store.

Record WindowRow := {
  win_id : uuid;
  win_request_id : uuid;
  win_user_key : string;
  win_user_name : option string;
  win_start_ts : string;
  win_end_ts : string
}.

Record Tables := {
  hang_requests : list HangRequest;
  availability_windows : list WindowRow;
  next_row : uuid
}.

(** [from("hang_requests").select("*").eq("slug", slug).single()] *)
Definition select_request (f : Fault) (sl : string) (t : Tables) : Reply HangRequest :=
  match f with
  | Some m => Error m
  | None =>
      match List.filter (fun r => String.eqb (req_slug r) sl) (hang_requests t) with
      | [r] => Data r
      | _ => Error not_single
      end
  end.

Definition windows_of (reqId : uuid) (t : Tables) : list WindowRow :=
  List.filter (fun r => Nat.eqb (win_request_id r) reqId) (availability_windows t).

(** [from("availability_windows").select("*").eq("request_id", id).order(...)] *)
Definition select_windows (f : Fault) (reqId : uuid) (t : Tables)
  : Reply (list WindowRow) :=
  match f with
  | Some m => Error m
  | None => Data (windows_of reqId t)
  end.

(** The columns [addWindow] sends. *)
Record WindowPayload := {
  wp_request_id : uuid;
  wp_user_key : string;
  wp_user_name : string;
  wp_start_ts : string;
  wp_end_ts : string
}.

Definition fresh_window (i : uuid) (p : WindowPayload) : WindowRow :=
  {| win_id := i;
     win_request_id := wp_request_id p;
     win_user_key := wp_user_key p;
     win_user_name := Some (wp_user_name p);
     win_start_ts := wp_start_ts p;
     win_end_ts := wp_end_ts p |}.

(** [from("availability_windows").insert(row)] *)
Definition insert_window (f : Fault) (p : WindowPayload) (t : Tables)
  : Tables * option string :=
  match f with
  | Some m => (t, Some m)
  | None =>
      ({| hang_requests := hang_requests t;
          availability_windows := fresh_window (next_row t) p :: availability_windows t;
          next_row := S (next_row t) |}, None)
  end.

(** The columns [createRequest] sends. *)
Record RequestPayload := {
  rp_slug : string;
  rp_title : string;
  rp_type : string;
  rp_note : option string
}.

Definition fresh_request (i : uuid) (p : RequestPayload) : HangRequest :=
  {| req_id := i;
     req_slug := rp_slug p;
     req_title := rp_title p;
     req_type := rp_type p;
     req_note := rp_note p |}.

(** [from("hang_requests").insert(row)] *)
Definition insert_request (f : Fault) (p : RequestPayload) (t : Tables)
  : Tables * option string :=
  match f with
  | Some m => (t, Some m)
  | None =>
      ({| hang_requests := fresh_request (next_row t) p :: hang_requests t;
          availability_windows := availability_windows t;
          next_row := S (next_row t) |}, None)
  end.

(** The state of [RequestPage] that [load] and [addWindow] use. *)
Record Page := {
  slug : string;
  userKey : string;
  req : option HangRequest;
  rows : list WindowRow;
  loading : bool;
  name : string;
  startLocal : string;
  endLocal : string;
  err : option string;
  tw_user_name : string
}.

Definition setReq (r : option HangRequest) (s : Page) : Page :=
  {| slug := slug s; userKey := userKey s; req := r; rows := rows s;
     loading := loading s; name := name s; startLocal := startLocal s;
     endLocal := endLocal s; err := err s; tw_user_name := tw_user_name s |}.

Definition setRows (rs : list WindowRow) (s : Page) : Page :=
  {| slug := slug s; userKey := userKey s; req := req s; rows := rs;
     loading := loading s; name := name s; startLocal := startLocal s;
     endLocal := endLocal s; err := err s; tw_user_name := tw_user_name s |}.

Definition setLoading (b : bool) (s : Page) : Page :=
  {| slug := slug s; userKey := userKey s; req := req s; rows := rows s;
     loading := b; name := name s; startLocal := startLocal s;
     endLocal := endLocal s; err := err s; tw_user_name := tw_user_name s |}.

Definition setErr (e : option string) (s : Page) : Page :=
  {| slug := slug s; userKey := userKey s; req := req s; rows := rows s;
     loading := loading s; name := name s; startLocal := startLocal s;
     endLocal := endLocal s; err := e; tw_user_name := tw_user_name s |}.

Definition setUserName (n : string) (s : Page) : Page :=
  {| slug := slug s; userKey := userKey s; req := req s; rows := rows s;
     loading := loading s; name := name s; startLocal := startLocal s;
     endLocal := endLocal s; err := err s; tw_user_name := n |}.

(** The outcomes of the two requests of one [load]. *)
Record LoadFaults := {
  req_fault : Fault;
  win_fault : Fault
}.

Definition served : LoadFaults := {| req_fault := None; win_fault := None |}.

(** [load()] of [RequestPage] *)
Definition load (f : LoadFaults) (t : Tables) (s : Page) : Page :=
  let s := setLoading true s in
  let s := setErr None s in
  match select_request (req_fault f) (slug s) t with
  | Error message =>
      let s := setErr (Some message) s in
      setLoading false s
  | Data reqData =>
      let s := setReq (Some reqData) s in
      let win := select_windows (win_fault f) (req_id reqData) t in
      let s := match error win with Some m => setErr (Some m) s | None => s end in
      let s := setRows (default [] (data win)) s in
      setLoading false s
  end.

Definition invalid_date : string := "Invalid date/time.".
Definition end_after_start : string := "End must be after start.".

Section WithDates.

(** [new Date(text).getTime()], [None] for the [NaN] of an invalid date,
    and [Date.prototype.toISOString]. *)
Variable newDate : string -> option Z.
Variable toISOString : Z -> string.

(** [addWindow()]; [w] is the outcome of the insert and [f] those of the
    reload. *)
Definition addWindow (w : Fault) (f : LoadFaults) (t : Tables) (s : Page)
  : Tables * Page :=
  let s := setErr None s in
  match req s with
  | None => (t, s)
  | Some r =>
      if String.eqb (Js.trim (name s)) "" then (t, setErr (Some PlanPage.name_first) s)
      else
        let s := setUserName (Js.trim (name s)) s in
        match newDate (startLocal s), newDate (endLocal s) with
        | Some start, Some end_ =>
            if end_ <=? start then (t, setErr (Some end_after_start) s)
            else
              let '(t', error) :=
                insert_window w
                  {| wp_request_id := req_id r;
                     wp_user_key := userKey s;
                     wp_user_name := Js.trim (name s);
                     wp_start_ts := toISOString start;
                     wp_end_ts := toISOString end_ |} t in
              match error with
              | Some m => (t', setErr (Some m) s)
              | None => (t', load f t' s)
              end
        | _, _ => (t, setErr (Some invalid_date) s)
        end
  end.

(** Every stored window was written from a start before its end. *)
Definition chronological (t : Tables) : Prop :=
  Forall (fun r => exists a b, win_start_ts r = toISOString a /\
                               win_end_ts r = toISOString b /\ a < b)
         (availability_windows t).

End WithDates.

(** The request page as the component first renders it for the route
    [sl]: [useState] initial values, with the token and the saved name read
    from the browser and the two inputs filled in by the caller. *)
Definition first_render (sl key saved start_text end_text : string) : Page :=
  {| slug := sl; userKey := key; req := None; rows := []; loading := true;
     name := saved; startLocal := start_text; endLocal := end_text;
     err := None; tw_user_name := saved |}.

(** No window refers to a request that the tables have yet to number. *)
Definition windows_of_known_requests (t : Tables) : Prop :=
  Forall (fun r => (win_request_id r < next_row t)%nat) (availability_windows t).

End Availability.

(** ** The page that creates a request: component [NewRequestPage] *)

Module NewRequestPage.

Import Store Availability.

(** [EVENT_TYPES] and the type of its elements. *)
Definition EVENT_TYPES : list string :=
  [ "Potluck"; "Cabin creative coworking"; "Dance class"; "Playdate" ].

Inductive EventType := Potluck | Coworking | DanceClass | Playdate.

(** The string an [EventType] is. *)
Definition label (ty : EventType) : string :=
  match ty with
  | Potluck => "Potluck"
  | Coworking => "Cabin creative coworking"
  | DanceClass => "Dance class"
  | Playdate => "Playdate"
  end.

Record Form := {
  title : string;
  type : EventType;
  note : string;
  loading : bool;
  error : option string;
  pushed : option string
}.

Definition setLoading (b : bool) (s : Form) : Form :=
  {| title := title s; type := type s; note := note s; loading := b;
     error := error s; pushed := pushed s |}.

Definition setError (e : option string) (s : Form) : Form :=
  {| title := title s; type := type s; note := note s; loading := loading s;
     error := e; pushed := pushed s |}.

Definition push (path : string) (s : Form) : Form :=
  {| title := title s; type := type s; note := note s; loading := loading s;
     error := error s; pushed := Some path |}.

(** [x.trim() || y] *)
Definition trimmed_or (x y : string) : string :=
  if String.eqb (Js.trim x) "" then y else Js.trim x.

(** [x.trim() || null] *)
Definition trimmed_or_null (x : string) : option string :=
  if String.eqb (Js.trim x) "" then None else Some (Js.trim x).

(** [createRequest()]; [sl] is what [nanoid(10)] returns in this call and
    [f] the outcome of the insert.  The [try] block either finishes with
    the push or throws the insert's error to [catch], which shows its
    message; [finally] follows both. *)
Definition createRequest (sl : string) (f : Fault) (t : Tables) (s : Form)
  : Tables * Form :=
  let s := setError None s in
  let s := setLoading true s in
  let '(t', insertErr) :=
    insert_request f
      {| rp_slug := sl;
         rp_title := trimmed_or (title s) (label (type s));
         rp_type := label (type s);
         rp_note := trimmed_or_null (note s) |} t in
  let s :=
    match insertErr with
    | Some message => setError (Some message) s
    | None => push ("/r/" +:+ sl) s
    end in
  (t', setLoading false s).

End NewRequestPage.

(** ** A small world to run the pages in *)

Module Demo.

Import Store.

(** Some of the white space beyond ASCII, in UTF-8: U+00A0, U+2003,
    U+2028, U+3000 and U+FEFF; and two characters that are not white
    space, U+0085 and U+200B; and the letter U+00E0. *)
Definition utf8 (bytes : list nat) : string :=
  string_of_list_ascii (map ascii_of_nat bytes).

Definition no_break_space : string := utf8 [194; 160]%nat.
Definition em_space : string := utf8 [226; 128; 131]%nat.
Definition line_separator : string := utf8 [226; 128; 168]%nat.
Definition ideographic_space : string := utf8 [227; 128; 128]%nat.
Definition byte_order_mark : string := utf8 [239; 187; 191]%nat.
Definition next_line : string := utf8 [194; 133]%nat.
Definition a_grave : string := utf8 [195; 160]%nat.
Definition zero_width_space : string := utf8 [226; 128; 139]%nat.

Definition potluck : Plan :=
  {| id := 1%nat; slug := "V1StGXR8_Z"; request_id := Some 0%nat;
     title := "Sunday potluck"; type := "Potluck"; note := None;
     start_ts := "2024-01-01T10:30:00.000Z"; end_ts := "2024-01-01T11:00:00.000Z";
     location := None |}.

Definition alice_in : ResponseRow :=
  {| resp_id := 2%nat; resp_plan_id := 1%nat; user_key := "key-alice";
     user_name := Some "Alice"; status := st_in; arrival := None |}.

Definition dessert : ClaimRow :=
  {| claim_id := 3%nat; claim_plan_id := 1%nat; item := "Dessert";
     claimed_by := Some "Alice" |}.

Definition db : DB :=
  {| plans := [potluck]; responses := [alice_in]; claims := [dessert];
     next_id := 4%nat |}.

(** The plan page as Bob opens it, before its first [load]. *)
Definition opened : PlanPage.State :=
  {| PlanPage.slug := "V1StGXR8_Z"; PlanPage.userKey := "key-bob";
     PlanPage.plan := None; PlanPage.responses := []; PlanPage.claims := [];
     PlanPage.loading := true; PlanPage.err := None; PlanPage.name := " Bob ";
     PlanPage.tw_user_name := "" |}.

(** The same page after a [load] that the store served. *)
Definition loaded : PlanPage.State := PlanPage.load true PlanPage.served db opened.

(** A turn of the poll in which only the request for the responses fails. *)
Definition responses_down : PlanPage.LoadFaults :=
  {| PlanPage.plan_fault := None;
     PlanPage.resp_fault := Some "Failed to fetch";
     PlanPage.claim_fault := None |}.

Definition hang : HangRequest :=
  {| req_id := 0%nat; req_slug := "Uakgb_J5m9"; req_title := "Sunday potluck";
     req_type := "Potluck"; req_note := Some "Bring a dish" |}.

Definition request_page : RequestPage.State :=
  {| RequestPage.req := Some hang; RequestPage.err := None;
     RequestPage.pushed := None |}.

(** 10:00, 10:30, 11:00 and 11:30 UTC on 1 January 2024. *)
Definition t1000 : Z := 1704103200000.
Definition t1030 : Z := 1704105000000.
Definition t1100 : Z := 1704106800000.
Definition t1130 : Z := 1704108600000.

Definition W1 : RequestPage.Window :=
  {| RequestPage.w_start := t1000; RequestPage.w_end := t1100 |}.
Definition W2 : RequestPage.Window :=
  {| RequestPage.w_start := t1030; RequestPage.w_end := t1130 |}.
Definition W3 : RequestPage.Window :=
  {| RequestPage.w_start := t1000; RequestPage.w_end := t1130 |}.

(** The request of the potluck with one window, Alice's, and the request
    page as Bob has it after its first load, with the two inputs filled
    in. *)
Definition alice_window : Availability.WindowRow :=
  {| Availability.win_id := 1%nat; Availability.win_request_id := 0%nat;
     Availability.win_user_key := "key-alice";
     Availability.win_user_name := Some "Alice";
     Availability.win_start_ts := "2024-01-01T10:00:00.000Z";
     Availability.win_end_ts := "2024-01-01T11:00:00.000Z" |}.

Definition tables : Availability.Tables :=
  {| Availability.hang_requests := [hang];
     Availability.availability_windows := [alice_window];
     Availability.next_row := 2%nat |}.

Definition bob_form : Availability.Page :=
  {| Availability.slug := "Uakgb_J5m9"; Availability.userKey := "key-bob";
     Availability.req := Some hang; Availability.rows := [alice_window];
     Availability.loading := false; Availability.name := " Bob ";
     Availability.startLocal := "2024-01-01T10:30";
     Availability.endLocal := "2024-01-01T11:30";
     Availability.err := None; Availability.tw_user_name := "" |}.

(** What [new Date] makes of the texts used here, in a browser on UTC. *)
Definition clock (text : string) : option Z :=
  if String.eqb text "2024-01-01T10:00" then Some t1000
  else if String.eqb text "2024-01-01T10:30" then Some t1030
  else if String.eqb text "2024-01-01T11:00" then Some t1100
  else if String.eqb text "2024-01-01T11:30" then Some t1130
  else None.

(** The plan page of a visitor who has typed no name, and Alice's, both
    after a served [load]; and the store and Bob's page once the effect
    has seeded the defaults. *)
Definition nameless : PlanPage.State :=
  PlanPage.load true PlanPage.served db (PlanPage.first_render "V1StGXR8_Z" "key-eve" "").

Definition alice_page : PlanPage.State :=
  PlanPage.load true PlanPage.served db
    (PlanPage.first_render "V1StGXR8_Z" "key-alice" "Alice").

Definition seeded : DB * PlanPage.State :=
  PlanPage.potluckEffect None PlanPage.served db loaded.

(** The same potluck while nobody has claimed the dessert, on the pages of
    Bob and of Alice; then Bob claims it, and Alice, whose page has not
    polled since, claims it too. *)
Definition dessert_free : ClaimRow :=
  {| claim_id := 3%nat; claim_plan_id := 1%nat; item := "Dessert";
     claimed_by := None |}.

Definition db_free : DB :=
  {| plans := [potluck]; responses := [alice_in]; claims := [dessert_free];
     next_id := 4%nat |}.

Definition bob_free : PlanPage.State :=
  PlanPage.load true PlanPage.served db_free
    (PlanPage.first_render "V1StGXR8_Z" "key-bob" "Bob").

Definition alice_free : PlanPage.State :=
  PlanPage.load true PlanPage.served db_free
    (PlanPage.first_render "V1StGXR8_Z" "key-alice" "Alice").

Definition bob_claims : DB * PlanPage.State :=
  PlanPage.claimItem "Dessert" None PlanPage.served db_free bob_free.

Definition alice_claims : DB * PlanPage.State :=
  PlanPage.claimItem "Dessert" None PlanPage.served (fst bob_claims) alice_free.

(** Two visitors of the potluck whose name field holds a no-break space:
    alone, and after "Bob". *)
Definition blank_page : PlanPage.State :=
  PlanPage.load true PlanPage.served db
    (PlanPage.first_render "V1StGXR8_Z" "key-eve" no_break_space).

Definition bob_page : PlanPage.State :=
  PlanPage.load true PlanPage.served db
    (PlanPage.first_render "V1StGXR8_Z" "key-bob" ("Bob" +:+ no_break_space)).

(** Bob's page, with that name, once he holds the dessert. *)
Definition bob_holds : PlanPage.State :=
  PlanPage.load true PlanPage.served (fst bob_claims)
    (PlanPage.first_render "V1StGXR8_Z" "key-bob" ("Bob" +:+ no_break_space)).

(** A request for a playdate, on its page. *)
Definition playdate : HangRequest :=
  {| req_id := 5%nat; req_slug := "c0Qm2_Lr8x"; req_title := "Park";
     req_type := "Playdate"; req_note := None |}.

Definition playdate_page : RequestPage.State :=
  {| RequestPage.req := Some playdate; RequestPage.err := None;
     RequestPage.pushed := None |}.

(** The form of the page that creates a request, filled in. *)
Definition new_form : NewRequestPage.Form :=
  {| NewRequestPage.title := "  "; NewRequestPage.type := NewRequestPage.Potluck;
     NewRequestPage.note := " Bring a dish "; NewRequestPage.loading := false;
     NewRequestPage.error := None; NewRequestPage.pushed := None |}.

(** The same form with a no-break space for a title and an ideographic
    space for a note. *)
Definition spaces_form : NewRequestPage.Form :=
  {| NewRequestPage.title := no_break_space; NewRequestPage.type := NewRequestPage.Playdate;
     NewRequestPage.note := ideographic_space; NewRequestPage.loading := false;
     NewRequestPage.error := None; NewRequestPage.pushed := None |}.

End Demo.

(** * Properties *)

(** ** The built-ins on examples *)

Example toISOString_epoch : Js.toISOString 0 = "1970-01-01T00:00:00.000Z".
Proof. reflexivity. Qed.

Example toISOString_leap_day : Js.toISOString 951782400000 = "2000-02-29T00:00:00.000Z".
Proof. reflexivity. Qed.

Example toISOString_before_epoch : Js.toISOString (-1) = "1969-12-31T23:59:59.999Z".
Proof. reflexivity. Qed.

Example toISOString_half_past_ten : Js.toISOString Demo.t1030 = "2024-01-01T10:30:00.000Z".
Proof. reflexivity. Qed.

Example trim_both_ends : Js.trim "  Bob Ross  " = "Bob Ross".
Proof. reflexivity. Qed.

Example trim_blank : Js.trim "   " = "".
Proof. reflexivity. Qed.

Example trim_no_break_space :
  Js.trim Demo.no_break_space = "" /\
  Js.trim ("Bob" +:+ Demo.no_break_space) = "Bob" /\
  Js.trim (Demo.no_break_space +:+ " Bob Ross") = "Bob Ross".
Proof. repeat split; reflexivity. Qed.

Example trim_unicode_white_space :
  Js.trim (Demo.byte_order_mark +:+ Demo.ideographic_space +:+ "Bob" +:+
           Demo.no_break_space +:+ "Ross" +:+ Demo.em_space +:+
           Demo.line_separator) =
    "Bob" +:+ Demo.no_break_space +:+ "Ross".
Proof. reflexivity. Qed.

(** A letter may end in the byte 160, as does a with a grave accent; a
    byte 160 on its own is how ISO 8859-1 writes the no-break space. *)
Example trim_byte_160 :
  Js.trim (" Nicol" +:+ Demo.a_grave +:+ " ") = "Nicol" +:+ Demo.a_grave /\
  Js.trim (Demo.utf8 [160]%nat) = "" /\
  Js.trim ("Bob" +:+ Demo.utf8 [160]%nat) = "Bob".
Proof. repeat split; reflexivity. Qed.

Example trim_keeps_other_characters :
  Js.trim Demo.next_line = Demo.next_line /\
  Js.trim (Demo.zero_width_space +:+ "Bob" +:+ Demo.zero_width_space) =
    Demo.zero_width_space +:+ "Bob" +:+ Demo.zero_width_space.
Proof. split; reflexivity. Qed.

Example includes_potluck : Js.includes "potluck" (Js.toLowerCase "Big POTLUCK night") = true.
Proof. reflexivity. Qed.

Example round_half_up : Js.round (5 # 2) = 3 /\ Js.round (-5 # 2) = -2.
Proof. split; reflexivity. Qed.

(** ** The overlap of two windows *)

Section OverlapFacts.

Import RequestPage.

Lemma overlapMinutes_unfold aStart aEnd bStart bEnd :
  overlapMinutes aStart aEnd bStart bEnd =
  let ms := Z.min aEnd bEnd - Z.max aStart bStart in
  if 0 <? ms then (ms * 1 # 60000)%Q else 0%Q.
Proof. reflexivity. Qed.

Lemma at_least_30_iff ms :
  Qle_bool 30 (if 0 <? ms then (ms * 1 # 60000)%Q else 0%Q) = true <-> 1800000 <= ms.
Proof.
  destruct (Z.ltb_spec 0 ms) as [Hpos | Hneg].
  - unfold Qle_bool; cbn [Qnum Qden]. rewrite Z.leb_le. lia.
  - split; [discriminate | lia].
Qed.

Lemma round_minutes ms :
  Js.round (ms * 1 # 60000) = (ms + 30000) / 60000.
Proof.
  unfold Js.round, Qfloor, Qplus; cbn [Qnum Qden].
  change (Z.pos (60000 * 2)) with (2 * 60000).
  replace (ms * 1 * 2 + 1 * 60000) with (2 * (ms + 30000)) by lia.
  apply Z.div_mul_cancel_l; lia.
Qed.

Lemma pair_overlap_cases a b :
  let lo := Z.max (w_start a) (w_start b) in
  let hi := Z.min (w_end a) (w_end b) in
  (1800000 <= hi - lo /\
   pair_overlap a b =
   [ {| start := lo; end_ := hi; minutes := (hi - lo + 30000) / 60000 |} ]) \/
  (hi - lo < 1800000 /\ pair_overlap a b = []).
Proof.
  unfold pair_overlap. rewrite overlapMinutes_unfold. cbv zeta.
  set (ms := Z.min (w_end a) (w_end b) - Z.max (w_start a) (w_start b)).
  pose proof (at_least_30_iff ms) as H30.
  destruct (Qle_bool 30 _) eqn:Hle.
  - assert (1800000 <= ms) as Hms by (apply H30; reflexivity).
    replace (0 <? ms) with true by (symmetry; apply Z.ltb_lt; lia).
    rewrite round_minutes. left. split; [assumption | reflexivity].
  - right. split; [| reflexivity].
    destruct (Z.lt_ge_cases ms 1800000) as [Hlt | Hge]; [assumption |].
    apply H30 in Hge. discriminate.
Qed.

Lemma pair_overlap_spec a b o :
  o ∈ pair_overlap a b <->
  let lo := Z.max (w_start a) (w_start b) in
  let hi := Z.min (w_end a) (w_end b) in
  1800000 <= hi - lo /\
  o = {| start := lo; end_ := hi; minutes := (hi - lo + 30000) / 60000 |}.
Proof.
  cbv zeta. destruct (pair_overlap_cases a b) as [[Hms ->] | [Hms ->]].
  - rewrite list_elem_of_singleton. intuition.
  - rewrite elem_of_nil. split; [tauto | lia].
Qed.

Lemma pairwise_spec windows o :
  o ∈ pairwise windows <->
  exists i j a b, (i < j)%nat /\ windows !! i = Some a /\ windows !! j = Some b /\
                  o ∈ pair_overlap a b.
Proof.
  induction windows as [| w rest IH]; cbn [pairwise].
  - rewrite elem_of_nil. split; [tauto |].
    intros (i & j & a & b & _ & Hi & _). discriminate.
  - rewrite elem_of_app, IH, list_elem_of_In, in_flat_map. split.
    + intros [(b & Hb & Ho) | (i & j & a & b & Hij & Hi & Hj & Ho)].
      * apply list_elem_of_In, list_elem_of_lookup in Hb as [j Hj].
        exists 0%nat, (S j), w, b. apply list_elem_of_In in Ho.
        repeat split; [lia | assumption | assumption].
      * exists (S i), (S j), a, b. repeat split; [lia | assumption ..].
    + intros (i & j & a & b & Hij & Hi & Hj & Ho).
      destruct j as [| j]; [lia |]. cbn in Hj.
      destruct i as [| i]; cbn in Hi.
      * injection Hi as ->. left. exists b. split.
        -- apply list_elem_of_In, list_elem_of_lookup. eauto.
        -- apply list_elem_of_In. assumption.
      * right. exists i, j, a, b. repeat split; [lia | assumption ..].
Qed.

(** Every pushed candidate spans at least thirty minutes, and says so. *)
Lemma pairwise_at_least_30 windows o :
  o ∈ pairwise windows -> 30 <= minutes o /\ 1800000 <= end_ o - start o.
Proof.
  rewrite pairwise_spec. intros (i & j & a & b & _ & _ & _ & Ho).
  apply pair_overlap_spec in Ho as [Hms ->]. cbn. split; [| assumption].
  apply Z.div_le_lower_bound; lia.
Qed.

(** *** The stable sort *)

Lemma place_perm {A} (compare : A -> A -> Z) x l : place compare x l ≡ₚ x :: l.
Proof.
  induction l as [| y ys IH]; cbn; [reflexivity |].
  destruct (compare x y <=? 0); [reflexivity |].
  rewrite IH. apply Permutation_swap.
Qed.

Lemma sort_perm {A} (compare : A -> A -> Z) l : sort compare l ≡ₚ l.
Proof.
  induction l as [| x l IH]; cbn; [reflexivity |].
  fold (sort compare l). rewrite place_perm, IH. reflexivity.
Qed.

Lemma place_sorted x l :
  StronglySorted starts_before l -> StronglySorted starts_before (place by_start x l).
Proof.
  induction 1 as [| y ys Hys IH Hall]; cbn.
  - repeat constructor.
  - destruct (Z.leb_spec (by_start x y) 0) as [Hle | Hgt]; unfold by_start in *.
    + constructor; [constructor; assumption |].
      constructor; [unfold starts_before; lia |].
      eapply Forall_impl; [exact Hall |]. unfold starts_before. intros; cbn in *; lia.
    + constructor; [assumption |].
      rewrite place_perm. constructor; [unfold starts_before; lia | assumption].
Qed.

Lemma sort_sorted l : StronglySorted starts_before (sort by_start l).
Proof.
  induction l as [| x l IH]; cbn; [constructor |].
  apply place_sorted, IH.
Qed.

(** The sort is stable: the candidates that start at the same time keep
    their order. *)
Lemma place_stable t x l :
  filter (fun o => start o = t) (place by_start x l) =
  filter (fun o => start o = t) (x :: l).
Proof.
  induction l as [| y ys IH]; cbn [place]; [reflexivity |].
  destruct (Z.leb_spec (by_start x y) 0) as [Hle | Hgt]; [reflexivity |].
  unfold by_start in Hgt.
  rewrite (filter_cons _ y), IH, !(filter_cons _ x), (filter_cons _ y).
  repeat case_decide; try reflexivity; lia.
Qed.

Lemma sort_stable t l :
  filter (fun o => start o = t) (sort by_start l) = filter (fun o => start o = t) l.
Proof.
  induction l as [| x l IH]; cbn; [reflexivity |].
  fold (sort by_start l). rewrite place_stable, !filter_cons, IH. reflexivity.
Qed.

(** *** The filter on [seen] *)

Section Dedupe.

Variable toISOString : Z -> string.

Lemma dedupe_sublist seen out : dedupe toISOString seen out `sublist_of` out.
Proof.
  revert seen. induction out as [| o out IH]; intros seen; cbn; [constructor |].
  destruct (decide _); [apply sublist_cons | apply sublist_skip]; apply IH.
Qed.

Lemma dedupe_unseen seen out o :
  o ∈ dedupe toISOString seen out -> key toISOString o ∉ seen.
Proof.
  revert seen. induction out as [| x out IH]; intros seen; cbn.
  - rewrite elem_of_nil. tauto.
  - destruct (decide _) as [Hin | Hout]; [apply IH |].
    rewrite elem_of_cons. intros [-> | Hin]; [assumption |].
    apply IH in Hin. set_solver.
Qed.

Lemma dedupe_keys seen out : NoDup (map (key toISOString) (dedupe toISOString seen out)).
Proof.
  revert seen. induction out as [| x out IH]; intros seen; cbn; [constructor |].
  destruct (decide _) as [Hin | Hout]; [apply IH |].
  cbn. constructor; [| apply IH].
  intros Hdup. apply list_elem_of_fmap in Hdup as (o & Hkey & Ho).
  apply dedupe_unseen in Ho. set_solver.
Qed.

(** Nothing is lost but repetitions of a key. *)
Lemma dedupe_complete seen out o :
  o ∈ out ->
  key toISOString o ∈ seen \/
  exists o', o' ∈ dedupe toISOString seen out /\ key toISOString o' = key toISOString o.
Proof.
  revert seen. induction out as [| x out IH]; intros seen; cbn.
  - rewrite elem_of_nil. tauto.
  - rewrite elem_of_cons. intros [-> | Hin].
    + destruct (decide _) as [Hseen | Hnew]; [left; assumption |].
      right. exists x. split; [left | reflexivity].
    + destruct (decide _) as [Hseen | Hnew]; [apply IH, Hin |].
      destruct (IH ({[ key toISOString x ]} ∪ seen) Hin) as [Hk | (o' & Ho' & Hk)].
      * apply elem_of_union in Hk as [Hk | Hk]; [| left; assumption].
        apply elem_of_singleton in Hk. right. exists x. split; [left | congruence].
      * right. exists o'. split; [right; assumption | assumption].
Qed.

(** Two candidates with the same start and end have the same key, so a
    list without repeated keys has no repeated window. *)
Lemma keys_windows (l : list Candidate) :
  NoDup (map (key toISOString) l) -> NoDup (map span l).
Proof.
  intros Hkeys.
  apply (NoDup_fmap_1 (fun w : Z * Z => toISOString w.1 +:+ "_" +:+ toISOString w.2)).
  rewrite <- list_fmap_compose. exact Hkeys.
Qed.

Lemma sorted_deduped_keys windows :
  NoDup (map (key toISOString) (sort by_start (dedupe toISOString ∅ (pairwise windows)))).
Proof.
  eapply NoDup_Permutation_proper; [| apply dedupe_keys].
  apply fmap_Permutation, sort_perm.
Qed.

End Dedupe.

Section Overlaps.

Variable toISOString : Z -> string.

Lemma overlaps_sublist windows :
  overlaps toISOString windows `sublist_of`
  sort by_start (dedupe toISOString ∅ (pairwise windows)).
Proof. apply sublist_take. Qed.

Lemma overlaps_from_pairs windows o :
  o ∈ overlaps toISOString windows -> o ∈ pairwise windows.
Proof.
  intros Ho. eapply elem_of_sublist in Ho; [| apply overlaps_sublist].
  rewrite sort_perm in Ho.
  eapply elem_of_sublist; [exact Ho | apply dedupe_sublist].
Qed.

(** C2: the overlap of two windows is positive exactly when the later
    start lies before the earlier end; it is then their distance, in
    minutes (times 60000 it is the distance in milliseconds), and zero
    otherwise. *)
Theorem overlapMinutes_correct (a b : Window) :
  let lo := Z.max (w_start a) (w_start b) in
  let hi := Z.min (w_end a) (w_end b) in
  let m := overlapMinutes (w_start a) (w_end a) (w_start b) (w_end b) in
  ((0 < m)%Q <-> lo < hi) /\
  ((lo < hi /\
    (m == inject_Z (hi - lo) / inject_Z 60000)%Q /\
    (m * inject_Z 60000 == inject_Z (hi - lo))%Q) \/
   (hi <= lo /\ m = 0%Q)).
Proof.
  cbv zeta. rewrite overlapMinutes_unfold. cbv zeta.
  set (ms := Z.min (w_end a) (w_end b) - Z.max (w_start a) (w_start b)).
  assert (forall lo hi, hi - lo = ms -> (lo < hi <-> 0 < ms)) as Hord by (intros; lia).
  rewrite (Hord _ _ eq_refl).
  destruct (Z.ltb_spec 0 ms) as [Hpos | Hneg].
  - split.
    + split; [intros _; assumption |].
      intros _. unfold Qlt; cbn [Qnum Qden]. lia.
    + left. split; [lia |]. split.
      * reflexivity.
      * unfold Qeq, Qmult, inject_Z; cbn [Qnum Qden]. lia.
  - split.
    + split; [| lia]. intros Hlt. unfold Qlt in Hlt; cbn in Hlt. lia.
    + right. split; [lia | reflexivity].
Qed.

(** C3: every candidate of the output spans at least thirty minutes, in
    its rounded [minutes] and between its [start] and [end].  Two windows
    that meet for exactly thirty minutes give that candidate: it is the
    output when they are the whole input, and in any input it is pushed
    and an entry with its key is there after the sort, before the cut to
    eight. *)
Theorem overlaps_threshold (windows : list Window) :
  Forall (fun o => 30 <= minutes o /\ 30 * 60000 <= end_ o - start o)
         (overlaps toISOString windows) /\
  (forall a b,
      Z.min (w_end a) (w_end b) - Z.max (w_start a) (w_start b) = 30 * 60000 ->
      overlaps toISOString [a; b] =
      [ {| start := Z.max (w_start a) (w_start b);
           end_ := Z.min (w_end a) (w_end b);
           minutes := 30 |} ]) /\
  (forall i j a b,
      i <> j -> windows !! i = Some a -> windows !! j = Some b ->
      Z.min (w_end a) (w_end b) - Z.max (w_start a) (w_start b) = 30 * 60000 ->
      let c := {| start := Z.max (w_start a) (w_start b);
                  end_ := Z.min (w_end a) (w_end b);
                  minutes := 30 |} in
      c ∈ pairwise windows /\
      exists o, o ∈ sort by_start (dedupe toISOString ∅ (pairwise windows)) /\
                key toISOString o = key toISOString c).
Proof.
  split; [| split].
  - apply Forall_forall. intros o Ho.
    apply (pairwise_at_least_30 windows), overlaps_from_pairs, Ho.
  - intros a b Hms. unfold overlaps. cbn [pairwise flat_map].
    destruct (pair_overlap_cases a b) as [[_ ->] | [Hlt _]]; [| lia].
    rewrite Hms. cbn [app dedupe].
    destruct (decide _) as [Hin | _]; [set_solver |]. reflexivity.
  - intros i j a b Hij Hi Hj Hms. cbv zeta.
    match goal with |- ?c ∈ _ /\ _ => enough (c ∈ pairwise windows) as Hin end.
    { split; [exact Hin |].
      destruct (dedupe_complete toISOString ∅ _ _ Hin) as [Hseen | (o & Ho & Hkey)];
        [set_solver |].
      exists o. split; [| exact Hkey]. rewrite sort_perm. exact Ho. }
    assert (forall i j a b, (i < j)%nat -> windows !! i = Some a ->
                            windows !! j = Some b ->
              Z.min (w_end a) (w_end b) - Z.max (w_start a) (w_start b) = 30 * 60000 ->
              {| start := Z.max (w_start a) (w_start b);
                 end_ := Z.min (w_end a) (w_end b);
                 minutes := 30 |} ∈ pairwise windows) as Hlt.
    { clear. intros i j a b Hij Hi Hj Hms. apply pairwise_spec.
      exists i, j, a, b. repeat split; [assumption ..|].
      apply pair_overlap_spec. cbv zeta. rewrite Hms. split; [lia | reflexivity]. }
    destruct (Nat.lt_total i j) as [Hl | [He | Hg]]; [eauto | contradiction |].
    rewrite (Z.max_comm (w_start a)), (Z.min_comm (w_end a)).
    apply (Hlt j i b a); [assumption ..|]. lia.
Qed.

(** Whatever [toISOString] writes, the output repeats no (start, end),
    has at most eight entries and is in ascending order of start; it is
    the head of the deduplicated and sorted list, which has these
    properties too. *)
Lemma overlaps_shape (windows : list Window) :
  NoDup (map span (overlaps toISOString windows)) /\
  (length (overlaps toISOString windows) <= 8)%nat /\
  StronglySorted starts_before (overlaps toISOString windows) /\
  exists dropped,
    sort by_start (dedupe toISOString ∅ (pairwise windows)) =
      (overlaps toISOString windows ++ dropped)%list /\
    NoDup (map span (overlaps toISOString windows ++ dropped)%list) /\
    StronglySorted starts_before (overlaps toISOString windows ++ dropped)%list /\
    (dropped <> [] -> length (overlaps toISOString windows) = 8%nat).
Proof.
  set (all := sort by_start (dedupe toISOString ∅ (pairwise windows))).
  assert (NoDup (map span all)) as Hnd
    by apply (keys_windows toISOString), sorted_deduped_keys.
  assert (StronglySorted starts_before all) as Hst by apply sort_sorted.
  assert (all = (overlaps toISOString windows ++ drop 8 all)%list) as Hsplit
    by (symmetry; apply take_drop).
  split; [| split; [| split]].
  - rewrite Hsplit, map_app in Hnd. apply NoDup_app in Hnd. tauto.
  - unfold overlaps. rewrite length_take. lia.
  - rewrite Hsplit in Hst. eapply StronglySorted_app_1_l, Hst.
  - exists (drop 8 all). rewrite <- Hsplit. repeat split; [assumption ..|].
    intros Hdrop. unfold overlaps. fold all. rewrite length_take.
    destruct (Nat.le_gt_cases (length all) 8) as [Hle | Hgt]; [| lia].
    rewrite drop_ge in Hdrop by assumption. contradiction.
Qed.

End Overlaps.

End OverlapFacts.

(** The two windows of Alice and Bob meet from 10:30 to 11:00. *)
Lemma overlaps_threshold_witness :
  RequestPage.overlaps Js.toISOString [Demo.W1; Demo.W2] =
  [ {| RequestPage.start := Demo.t1030; RequestPage.end_ := Demo.t1100;
       RequestPage.minutes := 30 |} ].
Proof.
  apply (proj1 (proj2 (overlaps_threshold Js.toISOString []))). reflexivity.
Defined.

(** One second less and nothing is offered. *)
Example overlaps_below_threshold :
  RequestPage.overlaps Js.toISOString
    [ Demo.W1; {| RequestPage.w_start := Demo.t1030 + 1000;
                  RequestPage.w_end := Demo.t1130 |} ] = [].
Proof. vm_compute. reflexivity. Qed.

(** Three windows that meet pairwise in the same half hour give one
    candidate, not three. *)
Example overlaps_three_collapse :
  RequestPage.overlaps Js.toISOString
    [ Demo.W1; Demo.W2;
      {| RequestPage.w_start := Demo.t1030; RequestPage.w_end := Demo.t1100 |} ] =
  [ {| RequestPage.start := Demo.t1030; RequestPage.end_ := Demo.t1100;
       RequestPage.minutes := 30 |} ].
Proof. vm_compute. reflexivity. Qed.

(** ** The text of a date

    [toISOString] writes two valid dates alike only if they are the same
    instant, so the key of a candidate stands for its start and end. *)

Section DateFacts.

Import RequestPage.

Lemma append_cons c s t : String c s +:+ t = String c (s +:+ t).
Proof. reflexivity. Qed.

Lemma append_length s t :
  String.length (s +:+ t) = (String.length s + String.length t)%nat.
Proof. induction s as [| c s IH]; [reflexivity |]. rewrite append_cons. cbn. lia. Qed.

Lemma append_inj s s' t t' :
  String.length s = String.length s' -> s +:+ t = s' +:+ t' -> s = s' /\ t = t'.
Proof.
  revert s'. induction s as [| c s IH]; intros [| c' s']; try discriminate.
  - intros _ H. split; [reflexivity | exact H].
  - rewrite !append_cons. intros [= Hl] [= -> H].
    destruct (IH s' Hl H) as [-> ->]. split; reflexivity.
Qed.

Lemma pad_length n z : String.length (Js.pad n z) = n.
Proof.
  revert z. induction n as [| n IH]; intros z; [reflexivity |].
  cbn [Js.pad]. rewrite append_length, IH. cbn. lia.
Qed.

Lemma digit_inj a b :
  0 <= a < 10 -> 0 <= b < 10 ->
  ascii_of_nat (48 + Z.to_nat a) = ascii_of_nat (48 + Z.to_nat b) -> a = b.
Proof.
  intros Ha Hb H. apply (f_equal nat_of_ascii) in H.
  rewrite !nat_ascii_embedding in H by lia. lia.
Qed.

Lemma pad_inj n a b :
  0 <= a < 10 ^ Z.of_nat n -> 0 <= b < 10 ^ Z.of_nat n ->
  Js.pad n a = Js.pad n b -> a = b.
Proof.
  revert a b. induction n as [| n IH]; intros a b Ha Hb H.
  - cbn in Ha, Hb. lia.
  - rewrite Nat2Z.inj_succ, Z.pow_succ_r in Ha, Hb by lia.
    cbn [Js.pad] in H. apply append_inj in H as [Hq [= Hr]];
      [| rewrite !pad_length; reflexivity].
    apply IH in Hq; [| Z.div_mod_to_equations; lia ..].
    apply digit_inj in Hr; [| Z.div_mod_to_equations; lia ..].
    Z.div_mod_to_equations; lia.
Qed.

(** The text of a number starts with a digit. *)
Lemma pad_head n z :
  exists c r, Js.pad (S n) z = String c r /\ (48 <= nat_of_ascii c <= 57)%nat.
Proof.
  revert z. induction n as [| n IH]; intros z.
  - eexists _, _. split; [reflexivity |].
    rewrite nat_ascii_embedding; Z.div_mod_to_equations; lia.
  - destruct (IH (z / 10)) as (c & r & Hc & Hd).
    exists c, (r +:+ String (ascii_of_nat (48 + Z.to_nat (z mod 10))) "").
    split; [| exact Hd]. change (Js.pad (S (S n)) z) with
      (Js.pad (S n) (z / 10) +:+ String (ascii_of_nat (48 + Z.to_nat (z mod 10))) "").
    rewrite Hc. reflexivity.
Qed.

(** The ranges of the day within its 400 years, the year and the day
    within them, the month counted from March, and the day of the month. *)
Lemma civil_bounds z :
  let era := z / 146097 in
  let doe := z - era * 146097 in
  let yoe := (doe - doe / 1460 + doe / 36524 - doe / 146096) / 365 in
  let doy := doe - (365 * yoe + yoe / 4 - yoe / 100) in
  let mp := (5 * doy + 2) / 153 in
  let d := doy - (153 * mp + 2) / 5 + 1 in
  0 <= doe <= 146096 /\ 0 <= yoe <= 399 /\ 0 <= doy <= 365 /\ 0 <= mp <= 11 /\ 1 <= d <= 31.
Proof.
  cbv zeta. Z.div_mod_to_equations. lia.
Qed.

(** Two days with the same year, month and day are the same day. *)
Lemma civil_inj z z' :
  let era := z / 146097 in
  let doe := z - era * 146097 in
  let yoe := (doe - doe / 1460 + doe / 36524 - doe / 146096) / 365 in
  let doy := doe - (365 * yoe + yoe / 4 - yoe / 100) in
  let mp := (5 * doy + 2) / 153 in
  let d := doy - (153 * mp + 2) / 5 + 1 in
  let m := if mp <? 10 then mp + 3 else mp - 9 in
  let y := yoe + era * 400 + (if m <=? 2 then 1 else 0) in
  let era' := z' / 146097 in
  let doe' := z' - era' * 146097 in
  let yoe' := (doe' - doe' / 1460 + doe' / 36524 - doe' / 146096) / 365 in
  let doy' := doe' - (365 * yoe' + yoe' / 4 - yoe' / 100) in
  let mp' := (5 * doy' + 2) / 153 in
  let d' := doy' - (153 * mp' + 2) / 5 + 1 in
  let m' := if mp' <? 10 then mp' + 3 else mp' - 9 in
  let y' := yoe' + era' * 400 + (if m' <=? 2 then 1 else 0) in
  y = y' -> m = m' -> d = d' -> z = z'.
Proof.
  pose proof (civil_bounds z) as B. pose proof (civil_bounds z') as B'.
  cbv zeta in *.
  set (era := z / 146097) in *.
  set (doe := z - era * 146097) in *.
  set (yoe := (doe - doe / 1460 + doe / 36524 - doe / 146096) / 365) in *.
  set (doy := doe - (365 * yoe + yoe / 4 - yoe / 100)) in *.
  set (mp := (5 * doy + 2) / 153) in *.
  set (era' := z' / 146097) in *.
  set (doe' := z' - era' * 146097) in *.
  set (yoe' := (doe' - doe' / 1460 + doe' / 36524 - doe' / 146096) / 365) in *.
  set (doy' := doe' - (365 * yoe' + yoe' / 4 - yoe' / 100)) in *.
  set (mp' := (5 * doy' + 2) / 153) in *.
  intros Hy Hm Hd.
  assert (mp = mp') as Emp.
  { destruct (Z.ltb_spec mp 10), (Z.ltb_spec mp' 10); lia. }
  rewrite <- Emp in *.
  assert (doy = doy') as Edoy by lia.
  assert (yoe + era * 400 = yoe' + era' * 400) as Ey.
  { destruct (Z.ltb_spec mp 10); destruct (Z.leb_spec (mp + 3) 2);
      destruct (Z.leb_spec (mp - 9) 2); lia. }
  assert (era = era' /\ yoe = yoe') as [Eera Eyoe] by lia.
  assert (doe = doe') as Edoe.
  { unfold doy, doy' in Edoy. rewrite <- Eyoe in Edoy. lia. }
  unfold doe, doe' in Edoe. lia.
Qed.

Lemma append_char c t : String c "" +:+ t = String c t.
Proof. reflexivity. Qed.

Lemma append_assoc s t u : (s +:+ t) +:+ u = s +:+ (t +:+ u).
Proof.
  induction s as [| c s IH]; [reflexivity |]. rewrite !append_cons, IH. reflexivity.
Qed.

Lemma pad_append_inj n a a' r r' :
  0 <= a < 10 ^ Z.of_nat n -> 0 <= a' < 10 ^ Z.of_nat n ->
  Js.pad n a +:+ r = Js.pad n a' +:+ r' -> a = a' /\ r = r'.
Proof.
  intros Ha Ha' H.
  destruct (append_inj (Js.pad n a) (Js.pad n a') r r') as [E ->];
    [rewrite !pad_length; reflexivity | exact H |].
  split; [| reflexivity]. exact (pad_inj n a a' Ha Ha' E).
Qed.

Lemma pad_not_sign n z s t :
  Js.pad (S n) z +:+ s <> String "-" t /\ Js.pad (S n) z +:+ s <> String "+" t.
Proof.
  destruct (pad_head n z) as (c & q & -> & Hc).
  rewrite append_cons. split; intros [= -> _]; vm_compute in Hc; lia.
Qed.

Lemma field_inj n a a' c r r' :
  0 <= a < 10 ^ Z.of_nat n -> 0 <= a' < 10 ^ Z.of_nat n ->
  String c (Js.pad n a +:+ r) = String c (Js.pad n a' +:+ r') -> a = a' /\ r = r'.
Proof. intros Ha Ha' [= H]. exact (pad_append_inj n a a' r r' Ha Ha' H). Qed.

(** The text of the year: four digits, or a sign and six. *)
Lemma year_inj y y' r r' :
  - 10 ^ 6 < y < 10 ^ 6 -> - 10 ^ 6 < y' < 10 ^ 6 ->
  (if (0 <=? y) && (y <=? 9999) then Js.pad 4 y
   else (if y <? 0 then "-" else "+") +:+ Js.pad 6 (Z.abs y)) +:+ r =
  (if (0 <=? y') && (y' <=? 9999) then Js.pad 4 y'
   else (if y' <? 0 then "-" else "+") +:+ Js.pad 6 (Z.abs y')) +:+ r' ->
  y = y' /\ r = r'.
Proof.
  intros Hy Hy'.
  destruct (Z.leb_spec 0 y) as [? | ?], (Z.leb_spec y 9999) as [? | ?],
           (Z.leb_spec 0 y') as [? | ?], (Z.leb_spec y' 9999) as [? | ?];
    cbn [andb]; try lia;
    repeat match goal with
    | |- context [?a <? 0] => destruct (Z.ltb_spec a 0) as [? | ?]; try lia
    end;
    rewrite ?append_assoc, ?append_char; intros E;
    try discriminate E;
    try (exfalso; apply (proj1 (pad_not_sign _ _ _ _)) in E; exact E);
    try (exfalso; apply (proj2 (pad_not_sign _ _ _ _)) in E; exact E);
    try (exfalso; symmetry in E; apply (proj1 (pad_not_sign _ _ _ _)) in E; exact E);
    try (exfalso; symmetry in E; apply (proj2 (pad_not_sign _ _ _ _)) in E; exact E).
  - apply (pad_append_inj 4); [cbn; lia .. | exact E].
  - destruct (field_inj 6 (Z.abs y) (Z.abs y') "+"%char r r') as [Ey ->];
      [cbn; lia .. | exact E |]. split; [lia | reflexivity].
  - destruct (field_inj 6 (Z.abs y) (Z.abs y') "-"%char r r') as [Ey ->];
      [cbn; lia .. | exact E |]. split; [lia | reflexivity].
Qed.

(** The text of a valid date, whatever follows it, tells the date. *)
Lemma toISOString_append_inj t t' x x' :
  Js.valid_time t -> Js.valid_time t' ->
  Js.toISOString t +:+ x = Js.toISOString t' +:+ x' -> t = t' /\ x = x'.
Proof.
  unfold Js.valid_time, Js.toISOString. intros Ht Ht'.
  pose proof (civil_bounds (t / 86400000 + 719468)) as B.
  pose proof (civil_bounds (t' / 86400000 + 719468)) as B'.
  pose proof (civil_inj (t / 86400000 + 719468) (t' / 86400000 + 719468)) as I.
  cbv zeta in *.
  set (ms := t mod 86400000). set (ms' := t' mod 86400000).
  set (z := t / 86400000 + 719468) in *. set (z' := t' / 86400000 + 719468) in *.
  set (era := z / 146097) in *.
  set (doe := z - era * 146097) in *.
  set (yoe := (doe - doe / 1460 + doe / 36524 - doe / 146096) / 365) in *.
  set (doy := doe - (365 * yoe + yoe / 4 - yoe / 100)) in *.
  set (mp := (5 * doy + 2) / 153) in *.
  set (d := doy - (153 * mp + 2) / 5 + 1) in *.
  set (m := if mp <? 10 then mp + 3 else mp - 9) in *.
  set (y := yoe + era * 400 + (if m <=? 2 then 1 else 0)) in *.
  set (era' := z' / 146097) in *.
  set (doe' := z' - era' * 146097) in *.
  set (yoe' := (doe' - doe' / 1460 + doe' / 36524 - doe' / 146096) / 365) in *.
  set (doy' := doe' - (365 * yoe' + yoe' / 4 - yoe' / 100)) in *.
  set (mp' := (5 * doy' + 2) / 153) in *.
  set (d' := doy' - (153 * mp' + 2) / 5 + 1) in *.
  set (m' := if mp' <? 10 then mp' + 3 else mp' - 9) in *.
  set (y' := yoe' + era' * 400 + (if m' <=? 2 then 1 else 0)) in *.
  assert (0 <= ms < 86400000) as Hms by (apply Z.mod_pos_bound; lia).
  assert (0 <= ms' < 86400000) as Hms' by (apply Z.mod_pos_bound; lia).
  assert (1 <= m <= 12) as Hm by (subst m; destruct (Z.ltb_spec mp 10); lia).
  assert (1 <= m' <= 12) as Hm' by (subst m'; destruct (Z.ltb_spec mp' 10); lia).
  assert (- 690 <= era <= 690) as He by (subst era z; Z.div_mod_to_equations; lia).
  assert (- 690 <= era' <= 690) as He' by (subst era' z'; Z.div_mod_to_equations; lia).
  assert (- 10 ^ 6 < y < 10 ^ 6) as Hy by (subst y; destruct (m <=? 2); lia).
  assert (- 10 ^ 6 < y' < 10 ^ 6) as Hy' by (subst y'; destruct (m' <=? 2); lia).
  rewrite !append_assoc, !append_char. intros H.
  apply year_inj in H as [Ey H]; [| assumption ..].
  apply field_inj in H as [Em H]; [| cbn; lia ..].
  apply field_inj in H as [Ed H]; [| cbn; lia ..].
  apply field_inj in H as [Eh H]; [| cbn; Z.div_mod_to_equations; lia ..].
  apply field_inj in H as [Emi H]; [| cbn; Z.div_mod_to_equations; lia ..].
  apply field_inj in H as [Es H]; [| cbn; Z.div_mod_to_equations; lia ..].
  apply field_inj in H as [Er H]; [| cbn; Z.div_mod_to_equations; lia ..].
  injection H as ->. split; [| reflexivity].
  specialize (I Ey Em Ed).
  assert (ms = ms') as Ems by (Z.div_mod_to_equations; lia).
  subst ms ms' z z'. Z.div_mod_to_equations; lia.
Qed.

Lemma toISOString_inj t t' :
  Js.valid_time t -> Js.valid_time t' ->
  Js.toISOString t = Js.toISOString t' -> t = t'.
Proof.
  intros Ht Ht' H.
  apply (toISOString_append_inj t t' "" ""); [assumption .. |].
  rewrite H. reflexivity.
Qed.

(** Two candidates between valid dates have the same key only if they
    start and end at the same instants. *)
Lemma key_exact (o o' : Candidate) :
  Js.valid_time (start o) -> Js.valid_time (end_ o) ->
  Js.valid_time (start o') -> Js.valid_time (end_ o') ->
  key Js.toISOString o = key Js.toISOString o' -> span o = span o'.
Proof.
  unfold key, span. intros Hs He Hs' He' H.
  apply toISOString_append_inj in H as [-> H]; [| assumption ..].
  rewrite !append_char in H. injection H as H.
  apply toISOString_inj in H as ->; [reflexivity | assumption ..].
Qed.

(** What is pushed lies between dates of the windows, and its minutes
    are those of its span. *)
Lemma pairwise_valid windows o :
  Forall valid_window windows -> o ∈ pairwise windows ->
  Js.valid_time (start o) /\ Js.valid_time (end_ o) /\
  minutes o = (end_ o - start o + 30000) / 60000.
Proof.
  intros Hv. rewrite pairwise_spec. intros (i & j & a & b & _ & Hi & Hj & Ho).
  apply pair_overlap_spec in Ho as [_ ->]. cbn [start end_ minutes].
  apply (Forall_lookup_1 _ _ _ _ Hv) in Hi as [Has Hae].
  apply (Forall_lookup_1 _ _ _ _ Hv) in Hj as [Hbs Hbe].
  unfold Js.valid_time in *. repeat split; lia.
Qed.

(** C4: the list the memo cuts to eight holds every candidate the loops
    pushed for windows between valid dates, and nothing else; no two of
    its entries start and end at the same instants, and it is in
    ascending order of start.  So a pushed candidate is left out only for
    another with exactly its start and end, candidates that differ in
    either are both kept, and the cut to eight comes after both steps: the
    output is the first eight entries of that list, without a repeated
    (start, end) and in ascending order of start itself. *)
Theorem overlaps_deduped_sorted_capped (windows : list Window) :
  let all := sort by_start (dedupe Js.toISOString ∅ (pairwise windows)) in
  overlaps Js.toISOString windows = take 8 all /\
  (length (overlaps Js.toISOString windows) <= 8)%nat /\
  NoDup (map span (overlaps Js.toISOString windows)) /\
  StronglySorted starts_before (overlaps Js.toISOString windows) /\
  NoDup (map span all) /\
  StronglySorted starts_before all /\
  (forall o, o ∈ all -> o ∈ pairwise windows) /\
  (Forall valid_window windows -> forall o, o ∈ pairwise windows -> o ∈ all) /\
  ((length all <= 8)%nat -> overlaps Js.toISOString windows = all).
Proof.
  cbv zeta.
  destruct (overlaps_shape Js.toISOString windows)
    as (Hnd & Hlen & Hst & dropped & Hall & Hnd' & Hst' & _).
  rewrite <- Hall in Hnd', Hst'.
  repeat split; try assumption; try reflexivity.
  - intros o Ho. rewrite sort_perm in Ho.
    eapply elem_of_sublist; [exact Ho | apply dedupe_sublist].
  - intros Hv o Ho. rewrite sort_perm.
    destruct (dedupe_complete Js.toISOString ∅ _ _ Ho) as [Hseen | (o' & Ho' & Hkey)];
      [set_solver |].
    assert (o' ∈ pairwise windows) as Hp
      by (eapply elem_of_sublist; [exact Ho' | apply dedupe_sublist]).
    destruct (pairwise_valid windows o Hv Ho) as (Hs & He & Hm).
    destruct (pairwise_valid windows o' Hv Hp) as (Hs' & He' & Hm').
    apply key_exact in Hkey; [| assumption ..].
    enough (o = o') as -> by exact Ho'.
    destruct o as [os oe om], o' as [os' oe' om'].
    cbn in Hkey, Hm, Hm'. injection Hkey as -> ->. congruence.
  - intros Hle. unfold overlaps. apply take_ge. exact Hle.
Qed.

End DateFacts.

(** Four windows, two of them alike: the three candidates of different
    spans are all kept, the two that start at 10:30 side by side. *)
Lemma overlaps_deduped_sorted_capped_witness :
  let windows := [Demo.W1; Demo.W2; Demo.W3; Demo.W1] in
  let half := {| RequestPage.start := Demo.t1030; RequestPage.end_ := Demo.t1100;
                 RequestPage.minutes := 30 |} in
  let early := {| RequestPage.start := Demo.t1000; RequestPage.end_ := Demo.t1100;
                  RequestPage.minutes := 60 |} in
  let late := {| RequestPage.start := Demo.t1030; RequestPage.end_ := Demo.t1130;
                 RequestPage.minutes := 60 |} in
  Forall (fun o =>
            o ∈ RequestPage.sort RequestPage.by_start
                  (RequestPage.dedupe Js.toISOString ∅ (RequestPage.pairwise windows)))
         [half; early; late].
Proof.
  cbv zeta.
  pose proof (proj1 (proj2 (proj2 (proj2 (proj2 (proj2 (proj2 (proj2
    (overlaps_deduped_sorted_capped [Demo.W1; Demo.W2; Demo.W3; Demo.W1]))))))))) as H.
  cbv zeta in H.
  assert (Forall RequestPage.valid_window [Demo.W1; Demo.W2; Demo.W3; Demo.W1]) as Hv.
  { unfold RequestPage.valid_window, Js.valid_time.
    (constructor; [| constructor; [| constructor; [| constructor; [| constructor]]]]);
      vm_compute; repeat split; discriminate. }
  (constructor; [| constructor; [| constructor; [| constructor]]]);
    apply (H Hv); apply list_elem_of_In; vm_compute;
    repeat (first [left; reflexivity | right]).
Defined.

Example overlaps_four_windows :
  RequestPage.overlaps Js.toISOString [Demo.W1; Demo.W2; Demo.W3; Demo.W1] =
  [ {| RequestPage.start := Demo.t1000; RequestPage.end_ := Demo.t1100;
       RequestPage.minutes := 60 |};
    {| RequestPage.start := Demo.t1030; RequestPage.end_ := Demo.t1100;
       RequestPage.minutes := 30 |};
    {| RequestPage.start := Demo.t1030; RequestPage.end_ := Demo.t1130;
       RequestPage.minutes := 60 |} ].
Proof. vm_compute. reflexivity. Qed.

(** ** Promoting a candidate *)

Section PromotionFacts.

Import Store RequestPage.

Variable toISOString : Z -> string.

(** C5: with a request loaded, promoting the window from [start] to [end]
    adds one plan row to the store: title, type and note are the
    request's, start and end are the window's, the slug is the one drawn
    in this call, and the page moves to the new plan.  When the insert
    fails the store is as before and the error is shown. *)
Theorem createPlanFromOverlap_copies planSlug f start end_ db s r :
  req s = Some r ->
  let out := createPlanFromOverlap toISOString planSlug f start end_ db s in
  match f with
  | None =>
      plans (fst out) =
        {| id := next_id db;
           slug := planSlug;
           request_id := Some (req_id r);
           title := req_title r;
           type := req_type r;
           note := req_note r;
           start_ts := toISOString start;
           end_ts := toISOString end_;
           location := None |} :: plans db /\
      responses (fst out) = responses db /\
      claims (fst out) = claims db /\
      pushed (snd out) = Some ("/p/" +:+ planSlug) /\
      err (snd out) = err s
  | Some m =>
      fst out = db /\ err (snd out) = Some m /\ pushed (snd out) = pushed s
  end.
Proof.
  intros Hreq. unfold createPlanFromOverlap. rewrite Hreq.
  destruct f as [m |]; cbn; repeat split.
Qed.

End PromotionFacts.

(** Promoting the candidate of Alice and Bob gives a plan from 10:30 to
    11:00. *)
Lemma createPlanFromOverlap_copies_witness :
  Store.plans (fst (RequestPage.createPlanFromOverlap Js.toISOString "pQ7dL0x_Wa" None
                      Demo.t1030 Demo.t1100 Demo.db Demo.request_page)) =
  {| Store.id := 4%nat; Store.slug := "pQ7dL0x_Wa"; Store.request_id := Some 0%nat;
     Store.title := "Sunday potluck"; Store.type := "Potluck";
     Store.note := Some "Bring a dish";
     Store.start_ts := "2024-01-01T10:30:00.000Z";
     Store.end_ts := "2024-01-01T11:00:00.000Z";
     Store.location := None |} :: Store.plans Demo.db.
Proof.
  apply (createPlanFromOverlap_copies Js.toISOString "pQ7dL0x_Wa" None
           Demo.t1030 Demo.t1100 Demo.db Demo.request_page Demo.hang eq_refl).
Defined.

(** ** Lists: [filter] and [find] *)

Section ListFacts.

Context {A : Type}.

Lemma find_head_filter (f : A -> bool) l : find f l = head (List.filter f l).
Proof.
  induction l as [| x l IH]; cbn; [reflexivity |].
  destruct (f x); [reflexivity | exact IH].
Qed.

Lemma filter_filter_andb (f g : A -> bool) l :
  List.filter g (List.filter f l) = List.filter (fun x => f x && g x) l.
Proof.
  induction l as [| x l IH]; cbn; [reflexivity |].
  destruct (f x); cbn; [destruct (g x); cbn; congruence | exact IH].
Qed.

Lemma filter_map_same (f : A -> bool) (h : A -> A) l :
  (forall x, f (h x) = f x) -> List.filter f (map h l) = map h (List.filter f l).
Proof.
  intros Hf. induction l as [| x l IH]; cbn; [reflexivity |].
  rewrite Hf. destruct (f x); cbn; congruence.
Qed.

Lemma filter_nil_existsb (f : A -> bool) l :
  List.filter f l = [] <-> existsb f l = false.
Proof.
  induction l as [| x l IH]; cbn; [tauto |].
  destruct (f x); cbn; [split; discriminate | exact IH].
Qed.

Lemma map_id_on (h : A -> A) l : (forall x, x ∈ l -> h x = x) -> map h l = l.
Proof.
  induction l as [| x l IH]; intros Hh; cbn; [reflexivity |].
  rewrite Hh by left. rewrite IH; [reflexivity |].
  intros y Hy. apply Hh. right. exact Hy.
Qed.

End ListFacts.

(** ** The poll *)

Section LoadFacts.

Import Store PlanPage.

Lemma select_plan_plans f sl db db' :
  plans db' = plans db -> select_plan f sl db' = select_plan f sl db.
Proof. intros H. unfold select_plan. rewrite H. reflexivity. Qed.

(** What a reload leaves on the page when the plan is found. *)
Lemma load_found f db s p :
  select_plan (plan_fault f) (slug s) db = Data p ->
  load false f db s =
  setClaims (default [] (data (select_claims (claim_fault f) (id p) db)))
    (match error (select_claims (claim_fault f) (id p) db) with
     | Some m => setErr (Some m)
     | None => fun s => s
     end
       (setResponses (default [] (data (select_responses (resp_fault f) (id p) db)))
          (match error (select_responses (resp_fault f) (id p) db) with
           | Some m => setErr (Some m)
           | None => fun s => s
           end (setPlan (Some p) (setErr None s))))).
Proof.
  intros Hsel. unfold load. cbn [slug setErr]. rewrite Hsel.
  destruct (resp_fault f), (claim_fault f); reflexivity.
Qed.

Lemma load_served_shows db s p :
  select_plan None (slug s) db = Data p ->
  let s' := load false served db s in
  shows db s' p /\ name s' = name s /\ userKey s' = userKey s /\ slug s' = slug s /\
  tw_user_name s' = tw_user_name s /\ err s' = None.
Proof.
  intros Hsel. cbv zeta. rewrite (load_found served db s p Hsel).
  unfold shows. cbn. auto 10.
Qed.

(** What one turn of the poll leaves on the page.  When the request for
    the plan fails nothing but the error changes.  When the plan arrives it
    replaces the one shown, and each of the two lists is replaced by the
    rows fetched, or by the empty list when its request fails; the last
    error is shown. *)
Lemma tick_snapshot f db s :
  let s' := tick f db s in
  match select_plan (plan_fault f) (slug s) db with
  | Error m =>
      plan s' = plan s /\ responses s' = responses s /\ claims s' = claims s /\
      err s' = Some m
  | Data p =>
      plan s' = Some p /\
      responses s' =
        match resp_fault f with None => responses_of (id p) db | Some _ => [] end /\
      claims s' =
        match claim_fault f with None => claims_of (id p) db | Some _ => [] end /\
      err s' =
        match claim_fault f, resp_fault f with
        | Some m, _ => Some m
        | None, Some m => Some m
        | None, None => None
        end
  end.
Proof.
  cbv zeta. unfold tick.
  destruct (select_plan (plan_fault f) (slug s) db) as [p | m] eqn:Hsel.
  - rewrite (load_found f db s p Hsel).
    destruct (resp_fault f), (claim_fault f); cbn; auto.
  - unfold load. cbn [slug setErr]. rewrite Hsel. cbn. auto.
Qed.

(** C1, for the request that [load] guards with a return: a turn of the
    poll whose request for the plan fails leaves the plan, the responses
    and the claims on the page as they were, and shows the error. *)
Theorem tick_plan_failure_keeps_snapshot f db s m :
  select_plan (plan_fault f) (slug s) db = Error m ->
  let s' := tick f db s in
  plan s' = plan s /\ responses s' = responses s /\ claims s' = claims s /\
  err s' = Some m /\ loading s' = loading s.
Proof.
  intros Hsel. cbv zeta. pose proof (tick_snapshot f db s) as Hsnap.
  rewrite Hsel in Hsnap. cbv zeta in Hsnap.
  destruct Hsnap as (Hplan & Hresp & Hclaims & Herr).
  repeat split; [assumption .. |].
  unfold tick, load. cbn [slug setErr]. rewrite Hsel. reflexivity.
Qed.

End LoadFacts.

(** Bob's page keeps Alice's response and the dessert through a turn of
    the poll that cannot reach the plan. *)
Lemma tick_plan_failure_keeps_snapshot_witness :
  let f := {| PlanPage.plan_fault := Some "Failed to fetch";
              PlanPage.resp_fault := None; PlanPage.claim_fault := None |} in
  PlanPage.plan (PlanPage.tick f Demo.db Demo.loaded) = Some Demo.potluck /\
  PlanPage.responses (PlanPage.tick f Demo.db Demo.loaded) = [Demo.alice_in] /\
  PlanPage.claims (PlanPage.tick f Demo.db Demo.loaded) = [Demo.dessert] /\
  PlanPage.err (PlanPage.tick f Demo.db Demo.loaded) = Some "Failed to fetch" /\
  PlanPage.loading (PlanPage.tick f Demo.db Demo.loaded) = false.
Proof.
  apply (tick_plan_failure_keeps_snapshot
           {| PlanPage.plan_fault := Some "Failed to fetch";
              PlanPage.resp_fault := None; PlanPage.claim_fault := None |}
           Demo.db Demo.loaded "Failed to fetch").
  reflexivity.
Defined.

(** C1 as stated fails: Bob's page shows Alice's response; the next turn
    of the poll gets the plan and the claims but not the responses, and
    the list of responses on the page is then empty. *)
Lemma tick_failure_blanks_responses :
  PlanPage.err Demo.loaded = None /\
  PlanPage.responses Demo.loaded = [Demo.alice_in] /\
  PlanPage.err (PlanPage.tick Demo.responses_down Demo.db Demo.loaded) =
    Some "Failed to fetch" /\
  PlanPage.responses (PlanPage.tick Demo.responses_down Demo.db Demo.loaded) = [] /\
  PlanPage.responses (PlanPage.tick Demo.responses_down Demo.db Demo.loaded) <>
    PlanPage.responses Demo.loaded.
Proof. repeat split. discriminate. Qed.

(** ** The response ledger *)

Section ResponseFacts.

Import Store PlanPage.

Lemma conflicts_spec p r :
  conflicts p r = true <-> resp_plan_id r = pl_plan_id p /\ user_key r = pl_user_key p.
Proof.
  unfold conflicts. rewrite andb_true_iff, Nat.eqb_eq, String.eqb_eq. reflexivity.
Qed.

Lemma conflicts_merge p r : conflicts p (merge p r) = true.
Proof. apply conflicts_spec. split; reflexivity. Qed.

Lemma upserted_key p r :
  (resp_plan_id (upserted p r), user_key (upserted p r)) = (resp_plan_id r, user_key r).
Proof.
  unfold upserted. destruct (conflicts p r) eqn:Hc; [| reflexivity].
  apply conflicts_spec in Hc as [-> ->]. reflexivity.
Qed.

Lemma conflicts_upserted p r : conflicts p (upserted p r) = conflicts p r.
Proof.
  unfold upserted. destruct (conflicts p r) eqn:Hc; [apply conflicts_merge | exact Hc].
Qed.

Lemma responses_by_conflicts p db :
  responses_by (pl_plan_id p) (pl_user_key p) db = List.filter (conflicts p) (Store.responses db).
Proof. reflexivity. Qed.

(** Under the unique constraint a key selects at most one row. *)
Lemma unique_at_most_one p db :
  unique_responses db ->
  (length (responses_by (pl_plan_id p) (pl_user_key p) db) <= 1)%nat.
Proof.
  unfold unique_responses. rewrite responses_by_conflicts.
  induction (Store.responses db) as [| r l IH]; cbn; [lia |].
  intros Hnd. apply NoDup_cons in Hnd as [Hr Hl].
  destruct (conflicts p r) eqn:Hc; [| apply IH, Hl].
  replace (List.filter (conflicts p) l) with (@nil ResponseRow); [cbn; lia |].
  symmetry. apply filter_nil_existsb. apply not_true_is_false.
  intros Hex. apply existsb_exists in Hex as (r' & Hin & Hc').
  apply Hr. apply conflicts_spec in Hc as [-> ->].
  apply conflicts_spec in Hc' as [<- <-].
  apply list_elem_of_In in Hin.
  apply (list_elem_of_fmap_2 (fun r => (resp_plan_id r, user_key r))), Hin.
Qed.

(** The upsert keeps the constraint. *)
Lemma upsert_unique f p db :
  unique_responses db -> unique_responses (fst (upsert_response f p db)).
Proof.
  unfold unique_responses, upsert_response. intros Hnd.
  destruct f as [m |]; [exact Hnd |].
  destruct (existsb (conflicts p) (Store.responses db)) eqn:Hex; cbn.
  - rewrite map_map. erewrite map_ext; [exact Hnd |].
    intros r. apply upserted_key.
  - apply NoDup_cons. split; [| exact Hnd].
    intros Hin. apply list_elem_of_fmap in Hin as (r & Hkey & Hr).
    apply not_true_iff_false in Hex. apply Hex, existsb_exists.
    exists r. split; [apply list_elem_of_In, Hr |].
    apply conflicts_spec. cbn in Hkey. split; congruence.
Qed.

(** After an upsert that the store served, the key selects exactly one
    row, which carries the payload; it is the row that was there, with its
    primary key, or a new one. *)
Lemma upsert_single p db :
  unique_responses db ->
  let db' := fst (upsert_response None p db) in
  exists r,
    responses_by (pl_plan_id p) (pl_user_key p) db' = [r] /\
    merge p r = r /\
    length (Store.responses db') =
      (length (Store.responses db) +
       (1 - length (responses_by (pl_plan_id p) (pl_user_key p) db)))%nat /\
    (forall r0, responses_by (pl_plan_id p) (pl_user_key p) db = [r0] ->
                resp_id r = resp_id r0).
Proof.
  intros Huniq. cbv zeta. pose proof (unique_at_most_one p db Huniq) as Hle.
  rewrite !responses_by_conflicts in *. unfold upsert_response.
  destruct (existsb (conflicts p) (Store.responses db)) eqn:Hex; cbn [fst Store.responses].
  - rewrite (filter_map_same _ _ _ (conflicts_upserted p)).
    destruct (List.filter (conflicts p) (Store.responses db)) as [| r0 [| r1 l]] eqn:Hf.
    + apply filter_nil_existsb in Hf. congruence.
    + assert (conflicts p r0 = true) as Hc.
      { assert (In r0 (List.filter (conflicts p) (Store.responses db))) as Hin
          by (rewrite Hf; left; reflexivity).
        apply filter_In in Hin. tauto. }
      exists (merge p r0). cbn. unfold upserted. rewrite Hc.
      repeat split; [rewrite length_map; lia |].
      intros r Hr. injection Hr as <-. reflexivity.
    + cbn in Hle. lia.
  - exists (fresh_response (next_id db) p).
    pose proof (proj2 (filter_nil_existsb _ _) Hex) as Hnil.
    assert (conflicts p (fresh_response (next_id db) p) = true) as Hc
      by (apply conflicts_spec; split; reflexivity).
    cbn. rewrite Hc, Hnil.
    repeat split; [cbn; lia |]. intros r0 Hr0. discriminate.
Qed.

(** The same payload a second time changes nothing. *)
Lemma upsert_twice p db :
  let db' := fst (upsert_response None p db) in
  fst (upsert_response None p db') = db'.
Proof.
  cbv zeta. destruct (upsert_response None p db) as [db' e] eqn:Hup. cbn [fst].
  unfold upsert_response in Hup.
  destruct (existsb (conflicts p) (Store.responses db)) eqn:Hex;
    injection Hup as <- <-; unfold upsert_response; cbn [Store.responses existsb].
  - assert (existsb (conflicts p) (map (upserted p) (Store.responses db)) = true) as ->.
    { apply existsb_exists in Hex as (r & Hin & Hc). apply existsb_exists.
      exists (upserted p r). split; [apply in_map, Hin |].
      rewrite conflicts_upserted. exact Hc. }
    cbn. f_equal. rewrite map_map. apply map_ext.
    intros r. unfold upserted. destruct (conflicts p r) eqn:Hc.
    + rewrite conflicts_merge. reflexivity.
    + rewrite Hc. reflexivity.
  - assert (conflicts p (fresh_response (next_id db) p) = true) as Hc
      by (apply conflicts_spec; split; reflexivity).
    rewrite Hc. cbn. unfold upserted at 1. rewrite Hc. f_equal. f_equal.
    apply map_id_on. intros r Hr. unfold upserted.
    destruct (conflicts p r) eqn:Hcr; [| reflexivity].
    apply not_true_iff_false in Hex. exfalso. apply Hex, existsb_exists.
    exists r. split; [apply list_elem_of_In, Hr | exact Hcr].
Qed.

Lemma upsert_plans f p db : plans (fst (upsert_response f p db)) = plans db.
Proof.
  unfold upsert_response. destruct f; [reflexivity |].
  destruct (existsb _ _); reflexivity.
Qed.

(** The [myResponse] of a page that shows the store is the stored row of
    the participant. *)
Lemma myResponse_shows db s p :
  shows db s p -> myResponse s = head (responses_by (id p) (userKey s) db).
Proof.
  intros (Hplan & _ & Hresp & _). unfold myResponse. rewrite Hplan, Hresp.
  rewrite find_head_filter. unfold responses_of, responses_by.
  rewrite filter_filter_andb. reflexivity.
Qed.

Lemma upsert_served p db : snd (upsert_response None p db) = None.
Proof. unfold upsert_response. destruct (existsb _ _); reflexivity. Qed.

Lemma submit_served payload f db s :
  submit payload None f db s =
  (fst (upsert_response None payload db),
   load false f (fst (upsert_response None payload db)) s).
Proof.
  unfold submit. pose proof (upsert_served payload db) as Hnone.
  destruct (upsert_response None payload db) as [db' e]. cbn in *. subst e.
  reflexivity.
Qed.

Lemma setRSVP_served st f db s p :
  plan s = Some p -> Js.trim (name s) <> "" ->
  setRSVP st None f db s =
  submit {| pl_plan_id := id p;
            pl_user_key := userKey s;
            pl_user_name := Js.trim (name s);
            pl_status := st;
            pl_arrival := myResponse s ≫= arrival |}
         None f db (setUserName (Js.trim (name s)) (setErr None s)).
Proof.
  intros Hplan Hname. unfold setRSVP. rewrite Hplan. cbn [name setErr].
  apply String.eqb_neq in Hname. rewrite Hname. reflexivity.
Qed.

Lemma setArrival_served a f db s p :
  plan s = Some p -> Js.trim (name s) <> "" ->
  setArrival a None f db s =
  submit {| pl_plan_id := id p;
            pl_user_key := userKey s;
            pl_user_name := Js.trim (name s);
            pl_status := default st_maybe (status <$> myResponse s);
            pl_arrival := Some a |}
         None f db (setUserName (Js.trim (name s)) (setErr None s)).
Proof.
  intros Hplan Hname. unfold setArrival. rewrite Hplan. cbn [name setErr].
  apply String.eqb_neq in Hname. rewrite Hname. reflexivity.
Qed.

(** C6: a response is written by an upsert on (plan, participant token).
    After [setRSVP] the participant has exactly one row; the same choice a
    second time leaves the store as it is; another choice afterwards
    rewrites that row, which keeps its primary key and its arrival, and
    adds none. *)
Theorem setRSVP_merges st st' db s p :
  plan s = Some p ->
  select_plan None (slug s) db = Data p ->
  Js.trim (name s) <> "" ->
  unique_responses db ->
  let once := setRSVP st None served db s in
  let twice := setRSVP st None served (fst once) (snd once) in
  let later := setRSVP st' None served (fst once) (snd once) in
  exists r r',
    responses_by (id p) (userKey s) (fst once) = [r] /\
    status r = st /\ user_name r = Some (Js.trim (name s)) /\
    fst twice = fst once /\
    responses_by (id p) (userKey s) (fst later) = [r'] /\
    status r' = st' /\ resp_id r' = resp_id r /\ arrival r' = arrival r /\
    length (Store.responses (fst later)) = length (Store.responses (fst once)) /\
    unique_responses (fst later).
Proof.
  intros Hplan Hsel Hname Huniq. cbv zeta.
  rewrite (setRSVP_served st served db s p Hplan Hname), submit_served. cbn [fst snd].
  set (pl := {| pl_plan_id := id p; pl_user_key := userKey s;
                pl_user_name := Js.trim (name s); pl_status := st;
                pl_arrival := myResponse s ≫= arrival |}).
  set (db1 := fst (upsert_response None pl db)).
  set (s0 := setUserName (Js.trim (name s)) (setErr None s)).
  assert (select_plan None (slug s0) db1 = Data p) as Hsel1.
  { rewrite <- Hsel. apply select_plan_plans, upsert_plans. }
  destruct (load_served_shows db1 s0 p Hsel1) as (Hshows & Hn & Hk & _).
  set (s1 := load false served db1 s0) in *.
  cbn [name userKey s0 setUserName setErr] in Hn, Hk.
  assert (unique_responses db1) as Huniq1 by apply upsert_unique, Huniq.
  destruct (upsert_single pl db Huniq) as (r & Hr & Hmerge & _).
  fold db1 in Hr. cbn [pl pl_plan_id pl_user_key] in Hr.
  assert (myResponse s1 = Some r) as Hmine.
  { rewrite (myResponse_shows db1 s1 p Hshows), Hk, Hr. reflexivity. }
  assert (arrival r = myResponse s ≫= arrival) as Harr by (rewrite <- Hmerge; reflexivity).
  assert (forall st2, setRSVP st2 None served db1 s1 =
            submit {| pl_plan_id := id p; pl_user_key := userKey s;
                      pl_user_name := Js.trim (name s); pl_status := st2;
                      pl_arrival := myResponse s ≫= arrival |}
                   None served db1 (setUserName (Js.trim (name s1)) (setErr None s1)))
    as Hagain.
  { intros st2. rewrite (setRSVP_served st2 served db1 s1 p); [| apply Hshows | congruence].
    rewrite Hmine, Hk, Hn. cbn [mbind option_bind]. rewrite Harr. reflexivity. }
  rewrite !Hagain, !submit_served. cbn [fst]. fold pl.
  set (pl' := {| pl_plan_id := id p; pl_user_key := userKey s;
                 pl_user_name := Js.trim (name s); pl_status := st';
                 pl_arrival := myResponse s ≫= arrival |}).
  destruct (upsert_single pl' db1 Huniq1) as (r' & Hr' & Hmerge' & Hlen & Hid).
  cbn [pl' pl_plan_id pl_user_key] in Hr', Hlen, Hid.
  exists r, r'. repeat split.
  - exact Hr.
  - rewrite <- Hmerge. reflexivity.
  - rewrite <- Hmerge. reflexivity.
  - apply upsert_twice.
  - exact Hr'.
  - rewrite <- Hmerge'. reflexivity.
  - apply Hid, Hr.
  - rewrite Harr, <- Hmerge'. reflexivity.
  - rewrite Hlen, Hr. cbn. lia.
  - apply upsert_unique, Huniq1.
Qed.

(** C10: when the participant has no row yet, and the page shows as much,
    [setArrival] writes a new row with the status ["maybe"] and the chosen
    arrival, and [setRSVP] writes a new row with the chosen status and no
    arrival. *)
Theorem partial_update_defaults a st f db s p :
  shows db s p ->
  Js.trim (name s) <> "" ->
  responses_by (id p) (userKey s) db = [] ->
  Store.responses (fst (setArrival a None f db s)) =
    {| resp_id := next_id db; resp_plan_id := id p; user_key := userKey s;
       user_name := Some (Js.trim (name s)); status := st_maybe;
       arrival := Some a |} :: Store.responses db /\
  Store.responses (fst (setRSVP st None f db s)) =
    {| resp_id := next_id db; resp_plan_id := id p; user_key := userKey s;
       user_name := Some (Js.trim (name s)); status := st;
       arrival := None |} :: Store.responses db.
Proof.
  intros Hshows Hname Hnone.
  pose proof (myResponse_shows db s p Hshows) as Hmine. rewrite Hnone in Hmine.
  destruct Hshows as (Hplan & _).
  rewrite (setArrival_served a f db s p Hplan Hname),
          (setRSVP_served st f db s p Hplan Hname), !submit_served, Hmine.
  cbn [fst fmap option_fmap option_map mbind option_bind default].
  unfold upsert_response.
  assert (forall pl, pl_plan_id pl = id p -> pl_user_key pl = userKey s ->
            existsb (conflicts pl) (Store.responses db) = false) as Hfree.
  { intros pl Hp Hk. apply filter_nil_existsb.
    rewrite <- responses_by_conflicts, Hp, Hk. exact Hnone. }
  rewrite !Hfree by reflexivity. split; reflexivity.
Qed.

End ResponseFacts.

(** Bob, who has no response yet, says he is in. *)
Lemma setRSVP_merges_witness :
  let once := PlanPage.setRSVP Store.st_in None PlanPage.served Demo.db Demo.loaded in
  let twice := PlanPage.setRSVP Store.st_in None PlanPage.served (fst once) (snd once) in
  let later := PlanPage.setRSVP Store.st_out None PlanPage.served (fst once) (snd once) in
  exists r r',
    Store.responses_by 1%nat "key-bob" (fst once) = [r] /\
    Store.status r = Store.st_in /\ Store.user_name r = Some "Bob" /\
    fst twice = fst once /\
    Store.responses_by 1%nat "key-bob" (fst later) = [r'] /\
    Store.status r' = Store.st_out /\ Store.resp_id r' = Store.resp_id r /\
    Store.arrival r' = Store.arrival r /\
    length (Store.responses (fst later)) = length (Store.responses (fst once)) /\
    Store.unique_responses (fst later).
Proof.
  apply (setRSVP_merges Store.st_in Store.st_out Demo.db Demo.loaded Demo.potluck).
  - reflexivity.
  - reflexivity.
  - discriminate.
  - apply NoDup_singleton.
Defined.

Lemma partial_update_defaults_witness :
  Store.responses
    (fst (PlanPage.setArrival "On time" None PlanPage.served Demo.db Demo.loaded)) =
    [ {| Store.resp_id := 4%nat; Store.resp_plan_id := 1%nat;
         Store.user_key := "key-bob"; Store.user_name := Some "Bob";
         Store.status := Store.st_maybe; Store.arrival := Some "On time" |};
      Demo.alice_in ] /\
  Store.responses
    (fst (PlanPage.setRSVP Store.st_out None PlanPage.served Demo.db Demo.loaded)) =
    [ {| Store.resp_id := 4%nat; Store.resp_plan_id := 1%nat;
         Store.user_key := "key-bob"; Store.user_name := Some "Bob";
         Store.status := Store.st_out; Store.arrival := None |};
      Demo.alice_in ].
Proof.
  apply (partial_update_defaults "On time" Store.st_out PlanPage.served
           Demo.db Demo.loaded Demo.potluck).
  - repeat split.
  - discriminate.
  - reflexivity.
Defined.

(** ** The claim ledger *)

Section ClaimFacts.

Import Store PlanPage.

Lemma find_map_same {A} (f : A -> bool) (h : A -> A) l :
  (forall x, f (h x) = f x) -> find f (map h l) = h <$> find f l.
Proof.
  intros Hf. induction l as [| x l IH]; cbn; [reflexivity |].
  rewrite Hf. destruct (f x); [reflexivity | exact IH].
Qed.

Lemma update_plans f v i db : plans (fst (update_claimed_by f v i db)) = plans db.
Proof. destruct f; reflexivity. Qed.

Lemma update_claims_of v i planId db :
  claims_of planId (fst (update_claimed_by None v i db)) =
  map (updated v i) (claims_of planId db).
Proof.
  unfold claims_of. cbn. apply filter_map_same.
  intros c. unfold updated. destruct (Nat.eqb (claim_id c) i); reflexivity.
Qed.

(** An update through the primary key of the first row of an item makes
    that item's holder the value written. *)
Lemma update_claimant v planId it db existing :
  find (fun c => String.eqb (item c) it) (claims_of planId db) = Some existing ->
  claimant planId it (fst (update_claimed_by None v (claim_id existing) db)) = Some v.
Proof.
  intros Hfind. unfold claimant. rewrite update_claims_of, find_map_same.
  - rewrite Hfind. cbn. unfold updated. rewrite Nat.eqb_refl. reflexivity.
  - intros c. unfold updated. destruct (Nat.eqb (claim_id c) _); reflexivity.
Qed.

Lemma claimant_find planId it db holder :
  claimant planId it db = Some holder ->
  exists existing,
    find (fun c => String.eqb (item c) it) (claims_of planId db) = Some existing /\
    claimed_by existing = holder.
Proof.
  unfold claimant. destruct (find _ _) as [c |]; cbn; [| discriminate].
  intros [= <-]. eauto.
Qed.

Lemma claimItem_served it f db s p existing :
  plan s = Some p -> Js.trim (name s) <> "" ->
  find (fun c => String.eqb (item c) it) (claims s) = Some existing ->
  claimItem it None f db s =
  let db' := fst (update_claimed_by None (Some (Js.trim (name s))) (claim_id existing) db) in
  (db', load false f db' (setUserName (Js.trim (name s)) (setErr None s))).
Proof.
  intros Hplan Hname Hfind. unfold claimItem. rewrite Hplan. cbn [name claims setErr setUserName].
  apply String.eqb_neq in Hname. rewrite Hname, Hfind. reflexivity.
Qed.

Lemma unclaimItem_served it f db s p existing :
  plan s = Some p ->
  find (fun c => String.eqb (item c) it) (claims s) = Some existing ->
  Js.or_empty (claimed_by existing) = Js.trim (name s) ->
  unclaimItem it None f db s =
  let db' := fst (update_claimed_by None None (claim_id existing) db) in
  (db', load false f db' (setErr None s)).
Proof.
  intros Hplan Hfind Hsame. unfold unclaimItem. rewrite Hplan.
  cbn [name claims setErr]. rewrite Hfind. cbn [Js.or_empty] in *.
  apply String.eqb_eq in Hsame. rewrite Hsame. reflexivity.
Qed.

Lemma unclaimItem_refused it w f db s p existing :
  plan s = Some p ->
  find (fun c => String.eqb (item c) it) (claims s) = Some existing ->
  Js.or_empty (claimed_by existing) <> Js.trim (name s) ->
  unclaimItem it w f db s = (db, setErr (Some only_claimant) (setErr None s)).
Proof.
  intros Hplan Hfind Hdiff. unfold unclaimItem. rewrite Hplan.
  cbn [name claims setErr]. rewrite Hfind. cbn [Js.or_empty] in *.
  apply String.eqb_neq in Hdiff. rewrite Hdiff. reflexivity.
Qed.

(** C8: [claimItem] with a blank name shows "Add your name first." and
    writes nothing, neither to the store nor to the page's plan, lists and
    saved name.  With a name, and the item among the plan's claims, the
    item's holder becomes that name whoever held it before ([holder] is
    arbitrary); the rows with another primary key stay as they are. *)
Theorem claimItem_last_write_wins it w f db s p holder :
  shows db s p ->
  claimant (id p) it db = Some holder ->
  (Js.trim (name s) = "" ->
   let out := claimItem it w f db s in
   fst out = db /\ err (snd out) = Some name_first /\
   plan (snd out) = plan s /\ responses (snd out) = responses s /\
   claims (snd out) = claims s /\ tw_user_name (snd out) = tw_user_name s) /\
  (Js.trim (name s) <> "" ->
   let out := claimItem it None f db s in
   claimant (id p) it (fst out) = Some (Some (Js.trim (name s))) /\
   exists existing,
     find (fun c => String.eqb (item c) it) (claims_of (id p) db) = Some existing /\
     Store.claims (fst out) =
       map (updated (Some (Js.trim (name s))) (claim_id existing)) (Store.claims db) /\
     Store.responses (fst out) = Store.responses db).
Proof.
  intros (Hplan & _ & _ & Hclaims) Hheld. split.
  - intros Hblank. cbv zeta. unfold claimItem. rewrite Hplan. cbn [name setErr].
    rewrite Hblank. cbn. auto 10.
  - intros Hname. cbv zeta.
    destruct (claimant_find _ _ _ _ Hheld) as (existing & Hfind & _).
    rewrite (claimItem_served it f db s p existing Hplan Hname) by (rewrite Hclaims; exact Hfind).
    cbn [fst]. split; [apply update_claimant, Hfind |].
    exists existing. repeat split. exact Hfind.
Qed.

(** C7: [unclaimItem] compares the trimmed name with the [claimed_by] of
    the item's row as the page lists it (null counting as the empty name).
    Under another name it shows "Only the person who claimed it can
    unclaim." and leaves the store as it is; so a store that changed was
    changed under the name the page lists.  Under that name the store's
    rows with the primary key of the listed row get [claimed_by] null, and
    no other row changes.  On a page that shows the store the name compared
    is that of the item's holder, the item becomes unclaimed, and an item
    claimed and then released under one name ends unclaimed. *)
Theorem unclaimItem_claimant_only it w f db s p existing :
  plan s = Some p ->
  find (fun c => String.eqb (item c) it) (claims s) = Some existing ->
  let out := unclaimItem it w f db s in
  (Js.or_empty (claimed_by existing) <> Js.trim (name s) ->
   fst out = db /\ err (snd out) = Some only_claimant /\ claims (snd out) = claims s) /\
  (fst out <> db -> Js.or_empty (claimed_by existing) = Js.trim (name s)) /\
  (Js.or_empty (claimed_by existing) = Js.trim (name s) ->
   Store.claims (fst (unclaimItem it None f db s)) =
     map (updated None (claim_id existing)) (Store.claims db) /\
   Store.responses (fst (unclaimItem it None f db s)) = Store.responses db) /\
  (shows db s p ->
   claimant (id p) it db = Some (claimed_by existing) /\
   (Js.or_empty (claimed_by existing) = Js.trim (name s) ->
    claimant (id p) it (fst (unclaimItem it None f db s)) = Some None) /\
   (Js.trim (name s) <> "" ->
    let claimed := claimItem it None served db s in
    claimant (id p) it (fst claimed) = Some (Some (Js.trim (name s))) /\
    claimant (id p) it (fst (unclaimItem it None served (fst claimed) (snd claimed))) =
      Some None)).
Proof.
  intros Hplan Hfind'. cbv zeta.
  assert (Js.or_empty (claimed_by existing) <> Js.trim (name s) ->
          unclaimItem it w f db s = (db, setErr (Some only_claimant) (setErr None s)))
    as Hrefused by apply (unclaimItem_refused it w f db s p existing Hplan Hfind').
  split; [| split; [| split]].
  - intros Hdiff. rewrite (Hrefused Hdiff). cbn. auto.
  - intros Hchanged.
    destruct (decide (Js.or_empty (claimed_by existing) = Js.trim (name s)))
      as [Heq | Hdiff]; [exact Heq |].
    rewrite (Hrefused Hdiff) in Hchanged. contradiction.
  - intros Hsame.
    rewrite (unclaimItem_served it f db s p existing Hplan Hfind' Hsame).
    split; reflexivity.
  - intros (_ & Hsel & Hresp & Hclaims).
    assert (find (fun c => String.eqb (item c) it) (claims_of (id p) db) = Some existing)
      as Hfind by (rewrite <- Hclaims; exact Hfind').
    split; [unfold claimant; rewrite Hfind; reflexivity |]. split.
    + intros Hsame.
      rewrite (unclaimItem_served it f db s p existing Hplan Hfind' Hsame).
      cbn [fst]. apply update_claimant, Hfind.
    + intros Hname.
      rewrite (claimItem_served it served db s p existing Hplan Hname Hfind').
      cbv zeta. cbn [fst snd].
      set (n := Js.trim (name s)).
      set (db1 := fst (update_claimed_by None (Some n) (claim_id existing) db)).
      set (s0 := setUserName n (setErr None s)).
      assert (claimant (id p) it db1 = Some (Some n)) as Hheld1
        by apply update_claimant, Hfind.
      split; [exact Hheld1 |].
      assert (select_plan None (slug s0) db1 = Data p) as Hsel1.
      { rewrite <- Hsel. apply select_plan_plans, update_plans. }
      destruct (load_served_shows db1 s0 p Hsel1) as (Hshows1 & Hn & _).
      set (s1 := load false served db1 s0) in *.
      cbn [name s0 setUserName setErr] in Hn.
      destruct (claimant_find _ _ _ _ Hheld1) as (existing1 & Hfind1 & Hby1).
      destruct Hshows1 as (Hplan1 & _ & _ & Hclaims1).
      rewrite (unclaimItem_served it served db1 s1 p existing1 Hplan1).
      * cbn [fst]. apply update_claimant, Hfind1.
      * rewrite Hclaims1. exact Hfind1.
      * rewrite Hby1, Hn. reflexivity.
Qed.

(** *** Seeding the defaults *)

Lemma number_claims_items planId i names :
  map item (number_claims i (map (unclaimed_row planId) names)) = names.
Proof.
  revert i. induction names as [| n names IH]; intros i; cbn; [reflexivity |].
  rewrite IH. reflexivity.
Qed.

Lemma number_claims_unclaimed planId i names :
  Forall (fun c => claim_plan_id c = planId /\ claimed_by c = None)
         (number_claims i (map (unclaimed_row planId) names)).
Proof.
  revert i. induction names as [| n names IH]; intros i; cbn; constructor.
  - split; reflexivity.
  - apply IH.
Qed.

Lemma filter_all {A} (f : A -> bool) l : Forall (fun x => f x = true) l -> List.filter f l = l.
Proof.
  induction 1 as [| x l Hx _ IH]; cbn; [reflexivity |]. rewrite Hx, IH. reflexivity.
Qed.

Lemma insert_claims_of planId names db :
  claims_of planId (fst (insert_claims None (map (unclaimed_row planId) names) db)) =
  (number_claims (next_id db) (map (unclaimed_row planId) names) ++ claims_of planId db)%list.
Proof.
  unfold claims_of. cbn. rewrite List.filter_app. f_equal.
  apply filter_all. eapply Forall_impl; [apply number_claims_unclaimed |].
  cbn. intros c [-> _]. apply Nat.eqb_refl.
Qed.

Lemma insert_plans f ps db : plans (fst (insert_claims f ps db)) = plans db.
Proof. destruct f; reflexivity. Qed.

(** The [missing] of the code, computed through the set [existing], are
    the default names the claims on the page lack. *)
Lemma missing_lacking (cs : list ClaimRow) :
  filter (fun i => i ∉ (list_to_set (map item cs) : gset string)) DEFAULT_POTLUCK_ITEMS =
  lacking cs.
Proof.
  unfold lacking. apply list_filter_iff. intros i.
  rewrite elem_of_list_to_set. reflexivity.
Qed.

Lemma lacking_nil_iff cs :
  lacking cs = [] <-> forall i, i ∈ DEFAULT_POTLUCK_ITEMS -> i ∈ map item cs.
Proof.
  unfold lacking. split.
  - intros Hnil i Hi. destruct (decide (i ∈ map item cs)) as [Hin | Hout]; [exact Hin |].
    exfalso. eapply (filter_nil_not_elem_of _ _ i Hnil); [exact Hout | exact Hi].
  - intros Hall. induction DEFAULT_POTLUCK_ITEMS as [| d ds IH]; [reflexivity |].
    rewrite filter_cons_False.
    + apply IH. intros i Hi. apply Hall. right. exact Hi.
    + intros Hout. apply Hout, Hall. left.
Qed.

(** Once the lacking names are added, none is lacking. *)
Lemma lacking_filled planId i cs :
  lacking (number_claims i (map (unclaimed_row planId) (lacking cs)) ++ cs) = [].
Proof.
  apply lacking_nil_iff. intros d Hd.
  rewrite map_app, number_claims_items, elem_of_app.
  destruct (decide (d ∈ map item cs)) as [Hin | Hout]; [right; exact Hin |].
  left. apply list_elem_of_filter. split; assumption.
Qed.

Lemma defaults_distinct : NoDup DEFAULT_POTLUCK_ITEMS.
Proof. apply (bool_decide_unpack _). vm_compute. exact I. Qed.

Lemma ensurePotluckDefaults_unfold w f db s p :
  plan s = Some p ->
  ensurePotluckDefaults w f db s =
  match lacking (claims s) with
  | [] => (db, s)
  | missing =>
      let out := insert_claims w (map (unclaimed_row (id p)) missing) db in
      (fst out,
       load false f (fst out)
         (match snd out with Some m => setErr (Some m) s | None => s end))
  end.
Proof.
  intros Hplan. unfold ensurePotluckDefaults. rewrite Hplan, missing_lacking.
  destruct (lacking (claims s)) as [| d ds]; [reflexivity |].
  cbn [length Nat.eqb].
  destruct (insert_claims w _ db) as [db' e]. reflexivity.
Qed.

(** What the body of the effect would do on a page that shows the store:
    add one unclaimed row of the plan for each default name that the
    plan's claims lack, in front of the rows that were there, and nothing
    when it is run again.  The component does not run it on such a page:
    see [load_and_effect_seeds]. *)
Lemma potluckEffect_on_shown_store w' f' db s p :
  shows db s p ->
  isPotluck s = true ->
  let out := potluckEffect None served db s in
  exists new,
    Store.claims (fst out) = (new ++ Store.claims db)%list /\
    map item new = lacking (claims_of (id p) db) /\
    Forall (fun c => claim_plan_id c = id p /\ claimed_by c = None) new /\
    (forall i, i ∈ DEFAULT_POTLUCK_ITEMS -> i ∈ map item (claims_of (id p) (fst out))) /\
    (NoDup (map item (claims_of (id p) db)) ->
     NoDup (map item (claims_of (id p) (fst out)))) /\
    potluckEffect w' f' (fst out) (snd out) = out.
Proof.
  intros (Hplan & Hsel & Hresp & Hclaims) Hpot. cbv zeta.
  assert (potluckEffect None served db s = ensurePotluckDefaults None served db s) as ->
    by (unfold potluckEffect; rewrite Hpot; reflexivity).
  rewrite (ensurePotluckDefaults_unfold None served db s p Hplan), Hclaims.
  destruct (lacking (claims_of (id p) db)) as [| d ds] eqn:Hlack.
  - exists []. cbn [fst snd app map]. repeat split; [constructor | | tauto |].
    + apply lacking_nil_iff, Hlack.
    + unfold potluckEffect. rewrite Hpot.
      rewrite (ensurePotluckDefaults_unfold w' f' db s p Hplan), Hclaims, Hlack.
      reflexivity.
  - rewrite <- Hlack. cbv zeta.
    set (names := lacking (claims_of (id p) db)).
    change (snd (insert_claims None (map (unclaimed_row (id p)) names) db))
      with (@None string).
    set (db1 := fst (insert_claims None (map (unclaimed_row (id p)) names) db)).
    assert (select_plan None (slug s) db1 = Data p) as Hsel1.
    { rewrite <- Hsel. apply select_plan_plans, insert_plans. }
    destruct (load_served_shows db1 s p Hsel1) as (Hshows1 & _).
    set (s1 := load false served db1 s) in *.
    destruct Hshows1 as (Hplan1 & _ & _ & Hclaims1).
    assert (claims_of (id p) db1 =
            (number_claims (next_id db) (map (unclaimed_row (id p)) names) ++
             claims_of (id p) db)%list) as Hof by apply insert_claims_of.
    assert (lacking (claims s1) = []) as Hfilled.
    { rewrite Hclaims1, Hof. apply lacking_filled. }
    exists (number_claims (next_id db) (map (unclaimed_row (id p)) names)).
    cbn [fst snd]. repeat split.
    + apply number_claims_items.
    + apply number_claims_unclaimed.
    + apply lacking_nil_iff. rewrite <- Hclaims1. exact Hfilled.
    + intros Hnd. rewrite Hof, map_app, number_claims_items.
      apply NoDup_app. repeat split; [| | exact Hnd].
      * apply NoDup_filter, defaults_distinct.
      * intros i Hi. apply list_elem_of_filter in Hi. tauto.
    + unfold potluckEffect, isPotluck. rewrite Hplan1.
      unfold isPotluck in Hpot. rewrite Hplan in Hpot. rewrite Hpot.
      rewrite (ensurePotluckDefaults_unfold w' f' db1 s1 p Hplan1), Hfilled.
      reflexivity.
Qed.

End ClaimFacts.

(** Bob claims the dessert that Alice held. *)
Lemma claimItem_last_write_wins_witness :
  Store.claimant 1%nat "Dessert" Demo.db = Some (Some "Alice") /\
  Store.claimant 1%nat "Dessert"
    (fst (PlanPage.claimItem "Dessert" None PlanPage.served Demo.db Demo.loaded)) =
  Some (Some "Bob").
Proof.
  split; [reflexivity |].
  apply (proj2 (claimItem_last_write_wins "Dessert" None PlanPage.served
                  Demo.db Demo.loaded Demo.potluck (Some "Alice")
                  (conj eq_refl (conj eq_refl (conj eq_refl eq_refl))) eq_refl)).
  discriminate.
Defined.

(** Bob may not release Alice's dessert; what he claims himself he may. *)
Lemma unclaimItem_claimant_only_witness :
  (fst (PlanPage.unclaimItem "Dessert" None PlanPage.served Demo.db Demo.loaded) = Demo.db /\
   PlanPage.err (snd (PlanPage.unclaimItem "Dessert" None PlanPage.served
                        Demo.db Demo.loaded)) = Some PlanPage.only_claimant) /\
  (let claimed := PlanPage.claimItem "Dessert" None PlanPage.served Demo.db Demo.loaded in
   Store.claimant 1%nat "Dessert"
     (fst (PlanPage.unclaimItem "Dessert" None PlanPage.served (fst claimed) (snd claimed))) =
   Some None).
Proof.
  pose proof (unclaimItem_claimant_only "Dessert" None PlanPage.served
                Demo.db Demo.loaded Demo.potluck Demo.dessert eq_refl eq_refl)
    as (Hrefused & _ & _ & Hshown).
  split.
  - split; apply Hrefused; discriminate.
  - apply (Hshown (conj eq_refl (conj eq_refl (conj eq_refl eq_refl)))). discriminate.
Defined.

(** The name compared is the one on the page, which may be out of date.
    Bob and Alice both see the dessert unclaimed.  Bob claims it; Alice,
    whose page has not polled since, claims it too, and the store has her
    name.  Bob's page still lists his own: his "Unclaim" passes the check
    and resets the row, without an error, though the holder is Alice. *)
Lemma unclaimItem_stale_page_releases :
  let store := fst Demo.alice_claims in
  let page := snd Demo.bob_claims in
  let out := PlanPage.unclaimItem "Dessert" None PlanPage.served store page in
  Store.claimant 1%nat "Dessert" store = Some (Some "Alice") /\
  Js.trim (PlanPage.name page) = "Bob" /\
  Store.claimant 1%nat "Dessert" (fst out) = Some None /\
  PlanPage.err (snd out) = None.
Proof. repeat split; reflexivity. Qed.

(** Each of the three clicks is on a button its page displays. *)
Example stale_page_buttons :
  map PlanPage.offersClaim (PlanPage.claims Demo.bob_free) = [true] /\
  map PlanPage.offersClaim (PlanPage.claims Demo.alice_free) = [true] /\
  map (PlanPage.offersUnclaim (snd Demo.bob_claims))
      (PlanPage.claims (snd Demo.bob_claims)) = [true].
Proof. repeat split; reflexivity. Qed.

(** Run on the loaded page of the potluck that has a dessert, the body of
    the effect adds the four other defaults, and nothing the second time. *)
Example potluckEffect_on_loaded_page :
  let out := PlanPage.potluckEffect None PlanPage.served Demo.db Demo.loaded in
  exists new,
    Store.claims (fst out) = (new ++ Store.claims Demo.db)%list /\
    map Store.item new = [ "Main dish"; "Salad / Veg"; "Snack / App"; "Drinks" ] /\
    PlanPage.potluckEffect None PlanPage.served (fst out) (snd out) = out.
Proof.
  destruct (potluckEffect_on_shown_store None PlanPage.served Demo.db Demo.loaded
              Demo.potluck (conj eq_refl (conj eq_refl (conj eq_refl eq_refl))) eq_refl)
    as (new & Hnew & Hitems & _ & _ & _ & Hagain).
  exists new. repeat split; assumption.
Qed.

(** A name of one no-break space is no name: nothing is written.  After
    "Bob" the no-break space is dropped from what is written. *)
Example no_break_space_names :
  PlanPage.setRSVP Store.st_in None PlanPage.served Demo.db Demo.blank_page =
    (Demo.db, PlanPage.setErr (Some PlanPage.name_first) Demo.blank_page) /\
  PlanPage.claimItem "Dessert" None PlanPage.served Demo.db Demo.blank_page =
    (Demo.db, PlanPage.setErr (Some PlanPage.name_first) Demo.blank_page) /\
  Store.claimant 1%nat "Dessert"
    (fst (PlanPage.claimItem "Dessert" None PlanPage.served Demo.db Demo.bob_page)) =
    Some (Some "Bob") /\
  map Store.user_name
    (Store.responses
       (fst (PlanPage.setRSVP Store.st_in None PlanPage.served Demo.db Demo.bob_page))) =
    [Some "Bob"; Some "Alice"].
Proof. repeat split; reflexivity. Qed.

(** With a no-break space after his name Bob is still the holder. *)
Example unclaim_no_break_space :
  Store.claimant 1%nat "Dessert" (fst Demo.bob_claims) = Some (Some "Bob") /\
  Store.claimant 1%nat "Dessert"
    (fst (PlanPage.unclaimItem "Dessert" None PlanPage.served (fst Demo.bob_claims)
            Demo.bob_holds)) = Some None.
Proof. split; reflexivity. Qed.

(** A plan of another type gets no defaults. *)
Lemma potluckEffect_other w f db s :
  PlanPage.isPotluck s = false -> PlanPage.potluckEffect w f db s = (db, s).
Proof. intros H. unfold PlanPage.potluckEffect. rewrite H. reflexivity. Qed.

(** ** The effect within [load] *)

Section EffectFacts.

Import Store PlanPage.

Lemma load_lists_load b f db s :
  load b f db s =
  let s0 := setErr None (if b then setLoading true s else s) in
  match select_plan (plan_fault f) (slug s) db with
  | Error message =>
      let s1 := setErr (Some message) s0 in
      if b then setLoading false s1 else s1
  | Data p => load_lists b f p db (setPlan (Some p) s0)
  end.
Proof. unfold load, load_lists. destruct b; reflexivity. Qed.

Lemma load_and_effect_unfold b w f g db s :
  load_and_effect b w f g db s =
  let s0 := setErr None (if b then setLoading true s else s) in
  match select_plan (plan_fault f) (slug s) db with
  | Error message =>
      let s1 := setErr (Some message) s0 in
      (db, if b then setLoading false s1 else s1)
  | Data p =>
      let s1 := setPlan (Some p) s0 in
      if bool_decide (Some (id p) <> plan_id s) &&
         Js.includes "potluck" (Js.toLowerCase (type p))
      then
        match lacking (claims s) with
        | [] => (db, load_lists b f p db s1)
        | missing =>
            let out := insert_claims w (map (unclaimed_row (id p)) missing) db in
            (fst out,
             load false g (fst out)
               (match snd out with
                | Some m => setErr (Some m) (load_lists b f p (fst out) s1)
                | None => load_lists b f p (fst out) s1
                end))
        end
      else (db, load_lists b f p db s1)
  end.
Proof.
  unfold load_and_effect. cbv zeta.
  replace (slug (setErr None (if b then setLoading true s else s))) with (slug s)
    by (destruct b; reflexivity).
  destruct (select_plan (plan_fault f) (slug s) db) as [p | m]; [| reflexivity].
  replace (claims (setPlan (Some p) (setErr None (if b then setLoading true s else s))))
    with (claims s) by (destruct b; reflexivity).
  change (plan_id (setPlan (Some p) ?x)) with (Some (id p)).
  change (isPotluck (setPlan (Some p) ?x))
    with (Js.includes "potluck" (Js.toLowerCase (type p))).
  rewrite missing_lacking.
  destruct (_ && _); [| reflexivity].
  destruct (lacking (claims s)) as [| d ds]; [reflexivity |].
  cbn [length Nat.eqb].
  destruct (insert_claims w _ db) as [db' e]. reflexivity.
Qed.

(** Where the effect has nothing to do (the plan is the one the page had,
    or it is no potluck) what happens is [load]. *)
Lemma load_and_effect_quiet b w f g db s :
  (forall p, select_plan (plan_fault f) (slug s) db = Data p ->
             plan_id s = Some (id p) \/
             Js.includes "potluck" (Js.toLowerCase (type p)) = false) ->
  load_and_effect b w f g db s = (db, load b f db s).
Proof.
  intros H. rewrite load_and_effect_unfold, load_lists_load. cbv zeta.
  destruct (select_plan (plan_fault f) (slug s) db) as [p | m]; [| reflexivity].
  destruct (H p eq_refl) as [Hid | Hpot].
  - rewrite bool_decide_false; [reflexivity |]. intros Hne. apply Hne. symmetry. exact Hid.
  - rewrite Hpot, andb_false_r. reflexivity.
Qed.

(** On the first load of a potluck's page, the page lists no claim when
    the effect runs: all five defaults are inserted. *)
Lemma load_and_effect_seeds b f g db s p :
  plan_id s <> Some (id p) ->
  claims s = [] ->
  select_plan (plan_fault f) (slug s) db = Data p ->
  Js.includes "potluck" (Js.toLowerCase (type p)) = true ->
  load_and_effect b None f g db s =
  let db' :=
    fst (insert_claims None (map (unclaimed_row (id p)) DEFAULT_POTLUCK_ITEMS) db) in
  (db',
   load false g db'
     (load_lists b f p db'
        (setPlan (Some p) (setErr None (if b then setLoading true s else s))))).
Proof.
  intros Hid Hnone Hsel Hpot. rewrite load_and_effect_unfold. cbv zeta.
  rewrite Hsel, Hpot, Hnone, bool_decide_true by (intros E; apply Hid; symmetry; exact E).
  reflexivity.
Qed.


End EffectFacts.


(** The page Bob then sees lists both desserts, Alice's last. *)
Example effect_on_demo_page :
  map (fun c => (Store.item c, Store.claimed_by c))
      (PlanPage.claims
         (snd (PlanPage.load_and_effect true None PlanPage.served PlanPage.served
                 Demo.db Demo.opened))) =
  [ ("Main dish", None); ("Salad / Veg", None); ("Snack / App", None);
    ("Dessert", None); ("Drinks", None); ("Dessert", Some "Alice") ].
Proof. reflexivity. Qed.

(** * Beyond the ledgers: the rest of the pages *)

(** ** [trim] *)

Section TrimFacts.

Lemma trimStart_strip s :
  Js.trimStart s =
    match Js.strip s with
    | Some r => Js.trimStart r
    | None => s
    end.
Proof.
  destruct s as [| a [| b [| c s]]]; cbn; try reflexivity.
  - destruct (Js.is_white a); reflexivity.
  - destruct (Js.is_white a); [reflexivity |].
    destruct (Js.is_white2 a b); reflexivity.
  - destruct (Js.is_white a); [reflexivity |].
    destruct (Js.is_white2 a b); [reflexivity |].
    destruct (Js.is_white3 a b c); reflexivity.
Qed.

Lemma strip_shorter s r :
  Js.strip s = Some r -> (String.length r < String.length s)%nat.
Proof.
  destruct s as [| a [| b [| c s]]]; cbn; try discriminate.
  - destruct (Js.is_white a); intros [= <-]; cbn; lia.
  - destruct (Js.is_white a); [intros [= <-]; cbn; lia |].
    destruct (Js.is_white2 a b); intros [= <-]; cbn; lia.
  - destruct (Js.is_white a); [intros [= <-]; cbn; lia |].
    destruct (Js.is_white2 a b); [intros [= <-]; cbn; lia |].
    destruct (Js.is_white3 a b c); intros [= <-]; cbn; lia.
Qed.

Lemma strip_app s r t :
  Js.strip s = Some r -> Js.strip (s +:+ t) = Some (r +:+ t).
Proof.
  unfold Js.strip. destruct s as [| a s1]; [discriminate |]. rewrite append_cons.
  destruct (Js.is_white a); [intros [= <-]; reflexivity |].
  destruct s1 as [| b s2]; [discriminate |]. rewrite append_cons.
  destruct (Js.is_white2 a b); [intros [= <-]; reflexivity |].
  destruct s2 as [| c s3]; [discriminate |]. rewrite append_cons.
  destruct (Js.is_white3 a b c); [intros [= <-]; reflexivity | discriminate].
Qed.

(** What [trimStart] leaves does not start with white space. *)
Lemma strip_trimStart s : Js.strip (Js.trimStart s) = None.
Proof.
  remember (String.length s) as n eqn:Hn.
  revert s Hn. induction n as [n IH] using lt_wf_ind. intros s ->.
  rewrite trimStart_strip. destruct (Js.strip s) as [r |] eqn:Hs; [| exact Hs].
  apply (IH (String.length r)); [apply strip_shorter, Hs | reflexivity].
Qed.

Lemma trimStart_fixed s : Js.strip s = None -> Js.trimStart s = s.
Proof. intros H. rewrite trimStart_strip, H. reflexivity. Qed.

Lemma trimStart_app s t :
  Js.trimStart s = "" -> Js.trimStart (s +:+ t) = Js.trimStart t.
Proof.
  remember (String.length s) as n eqn:Hn.
  revert s Hn. induction n as [n IH] using lt_wf_ind. intros s -> H.
  rewrite trimStart_strip in H. destruct (Js.strip s) as [r |] eqn:Hs.
  - rewrite (trimStart_strip (s +:+ t)), (strip_app s r t Hs).
    apply (IH (String.length r)); [apply strip_shorter, Hs | reflexivity | exact H].
  - subst s. reflexivity.
Qed.

Lemma trimEnd_from_cons inside c s :
  Js.trimEnd_from inside (String c s) =
    if negb (inside && Js.is_cont c) && String.eqb (Js.trimStart (String c s)) ""
    then ""
    else String c (Js.trimEnd_from (Js.is_high c) s).
Proof. reflexivity. Qed.

(** What [trimEnd] cuts off is white space throughout. *)
Lemma trimEnd_from_split inside s :
  exists t, s = Js.trimEnd_from inside s +:+ t /\ Js.trimStart t = "".
Proof.
  revert inside. induction s as [| c s IH]; intros inside;
    [exists ""; split; reflexivity |].
  rewrite trimEnd_from_cons.
  destruct (negb (inside && Js.is_cont c) &&
            String.eqb (Js.trimStart (String c s)) "") eqn:He.
  - exists (String c s). split; [reflexivity |].
    apply andb_true_iff in He as [_ He]. apply String.eqb_eq, He.
  - destruct (IH (Js.is_high c)) as (t & Ht & Hw).
    exists t. split; [| exact Hw]. rewrite append_cons, <- Ht. reflexivity.
Qed.

Lemma trimEnd_from_twice inside s :
  Js.trimEnd_from inside (Js.trimEnd_from inside s) = Js.trimEnd_from inside s.
Proof.
  revert inside. induction s as [| c s IH]; intros inside; [reflexivity |].
  rewrite trimEnd_from_cons.
  destruct (negb (inside && Js.is_cont c) &&
            String.eqb (Js.trimStart (String c s)) "") eqn:He; [reflexivity |].
  rewrite trimEnd_from_cons, IH.
  destruct (negb (inside && Js.is_cont c) &&
            String.eqb (Js.trimStart (String c (Js.trimEnd_from (Js.is_high c) s))) "")
    eqn:He'; [| reflexivity].
  apply andb_true_iff in He' as [Hcut He']. rewrite Hcut in He. cbn [andb] in He.
  apply String.eqb_eq in He'.
  destruct (trimEnd_from_split (Js.is_high c) s) as (t & Ht & Hw).
  apply (trimStart_app _ t) in He'. rewrite append_cons, <- Ht, Hw in He'.
  apply String.eqb_neq in He. contradiction.
Qed.

Lemma strip_trimEnd s : Js.strip s = None -> Js.strip (Js.trimEnd s) = None.
Proof.
  intros H. destruct (trimEnd_from_split false s) as (t & Ht & _).
  fold (Js.trimEnd s) in Ht.
  destruct (Js.strip (Js.trimEnd s)) as [r |] eqn:Hr; [| reflexivity].
  apply (strip_app _ _ t) in Hr. rewrite <- Ht, H in Hr. discriminate.
Qed.

(** Trimming what is trimmed changes nothing. *)
Lemma trim_trim s : Js.trim (Js.trim s) = Js.trim s.
Proof.
  unfold Js.trim.
  rewrite (trimStart_fixed (Js.trimEnd (Js.trimStart s))).
  - apply trimEnd_from_twice.
  - apply strip_trimEnd, strip_trimStart.
Qed.

End TrimFacts.

(** ** More on the overlaps *)

Section OverlapMore.

Import RequestPage.

Variable toISOString : Z -> string.

Lemma dedupe_key_elem seen out k :
  k ∈ map (key toISOString) (dedupe toISOString seen out) <->
  k ∈ map (key toISOString) out /\ k ∉ seen.
Proof.
  split.
  - intros Hk. apply list_elem_of_fmap in Hk as (o & -> & Ho). split.
    + apply list_elem_of_fmap. exists o. split; [reflexivity |].
      eapply elem_of_sublist; [exact Ho | apply dedupe_sublist].
    + eapply dedupe_unseen, Ho.
  - intros [Hk Hseen]. apply list_elem_of_fmap in Hk as (o & -> & Ho).
    destruct (dedupe_complete toISOString seen out o Ho) as [Hin | (o' & Ho' & Hkey)];
      [contradiction |].
    apply list_elem_of_fmap. exists o'. split; [symmetry; exact Hkey | exact Ho'].
Qed.

Lemma flat_map_perm {A B} (f : A -> list B) l l' y :
  l ≡ₚ l' -> y ∈ flat_map f l -> y ∈ flat_map f l'.
Proof.
  intros Hp Hy. apply list_elem_of_In, in_flat_map in Hy as (x & Hx & Hy).
  apply list_elem_of_In, in_flat_map. exists x. split; [| exact Hy].
  apply list_elem_of_In. rewrite <- Hp. apply list_elem_of_In, Hx.
Qed.

Lemma pair_overlap_sym a b : pair_overlap a b = pair_overlap b a.
Proof.
  unfold pair_overlap, overlapMinutes.
  rewrite (Z.max_comm (w_start a)), (Z.min_comm (w_end a)). reflexivity.
Qed.

Lemma pairwise_perm_incl windows windows' o :
  windows ≡ₚ windows' -> o ∈ pairwise windows -> o ∈ pairwise windows'.
Proof.
  intros Hp. revert o. induction Hp as [| x l l' Hp IH | x y l | l l' l'' _ IH1 _ IH2];
    intros o; cbn [pairwise flat_map].
  - tauto.
  - rewrite !elem_of_app. intros [Ho | Ho]; [left | right; apply IH, Ho].
    eapply flat_map_perm; [exact Hp | exact Ho].
  - rewrite !elem_of_app, (pair_overlap_sym x y). tauto.
  - intros Ho. apply IH2, IH1, Ho.
Qed.

(** X1: with fewer than two windows there is nothing to offer. *)
Theorem overlaps_needs_two (windows : list Window) :
  (length windows < 2)%nat -> overlaps toISOString windows = [].
Proof.
  destruct windows as [| a [| b rest]]; cbn [length]; [reflexivity .. | lia].
Qed.

(** X2: every candidate offered is the common part of two windows at
    different places in the input: it starts when the later of the two
    starts, ends when the earlier ends, lies within both, and starts
    before it ends. *)
Theorem overlaps_within_two_windows (windows : list Window) :
  Forall (fun o => exists i j a b,
            (i < j)%nat /\ windows !! i = Some a /\ windows !! j = Some b /\
            start o = Z.max (w_start a) (w_start b) /\
            end_ o = Z.min (w_end a) (w_end b) /\
            w_start a <= start o /\ w_start b <= start o /\
            end_ o <= w_end a /\ end_ o <= w_end b /\
            start o < end_ o)
         (overlaps toISOString windows).
Proof.
  apply Forall_forall. intros o Ho.
  apply overlaps_from_pairs, pairwise_spec in Ho as (i & j & a & b & Hij & Hi & Hj & Ho).
  apply pair_overlap_spec in Ho as [Hms ->]. cbn [start end_].
  exists i, j, a, b. repeat split; try assumption; lia.
Qed.

(** X3: the [minutes] of a candidate is its length rounded to the nearest
    minute, a half going up. *)
Theorem overlaps_minutes_rounded (windows : list Window) :
  Forall (fun o => 60000 * minutes o - 30000 <= end_ o - start o < 60000 * minutes o + 30000)
         (overlaps toISOString windows).
Proof.
  apply Forall_forall. intros o Ho.
  apply overlaps_from_pairs, pairwise_spec in Ho as (i & j & a & b & _ & _ & _ & Ho).
  apply pair_overlap_spec in Ho as [Hms ->]. cbn [start end_ minutes].
  set (d := Z.min (w_end a) (w_end b) - Z.max (w_start a) (w_start b)) in *.
  pose proof (Z.div_mod (d + 30000) 60000 ltac:(lia)) as Hdiv.
  pose proof (Z.mod_pos_bound (d + 30000) 60000 ltac:(lia)) as Hmod.
  lia.
Qed.

(** X4: the order of the windows does not matter to what is found: two
    inputs that are permutations of each other push the same candidates,
    keep the same keys after the filter, and, when no more than eight are
    kept, offer candidates with the same keys. *)
Theorem overlaps_order_irrelevant (windows windows' : list Window) :
  windows ≡ₚ windows' ->
  (forall o, o ∈ pairwise windows <-> o ∈ pairwise windows') /\
  map (key toISOString) (dedupe toISOString ∅ (pairwise windows)) ≡ₚ
    map (key toISOString) (dedupe toISOString ∅ (pairwise windows')) /\
  ((length (dedupe toISOString ∅ (pairwise windows)) <= 8)%nat ->
   map (key toISOString) (overlaps toISOString windows) ≡ₚ
     map (key toISOString) (overlaps toISOString windows')).
Proof.
  intros Hp.
  assert (forall o, o ∈ pairwise windows <-> o ∈ pairwise windows') as Hsame.
  { intros o. split; apply pairwise_perm_incl; [exact Hp | symmetry; exact Hp]. }
  assert (map (key toISOString) (dedupe toISOString ∅ (pairwise windows)) ≡ₚ
          map (key toISOString) (dedupe toISOString ∅ (pairwise windows'))) as Hkeys.
  { apply NoDup_Permutation; [apply dedupe_keys .. |].
    intros k. rewrite !dedupe_key_elem, !list_elem_of_fmap.
    split; intros [(o & -> & Ho) Hseen]; (split; [| exact Hseen]);
      exists o; (split; [reflexivity | apply Hsame, Ho]). }
  split; [exact Hsame |]. split; [exact Hkeys |].
  intros Hlen. unfold overlaps.
  assert (length (dedupe toISOString ∅ (pairwise windows')) <= 8)%nat as Hlen'.
  { apply Permutation_length in Hkeys. rewrite !length_map in Hkeys. lia. }
  rewrite !take_ge by (rewrite sort_perm; assumption).
  rewrite !sort_perm. exact Hkeys.
Qed.

End OverlapMore.

Lemma overlaps_needs_two_witness :
  RequestPage.overlaps Js.toISOString [Demo.W1] = [].
Proof. apply overlaps_needs_two. cbn. lia. Defined.

Lemma overlaps_order_irrelevant_witness :
  map (RequestPage.key Js.toISOString)
      (RequestPage.overlaps Js.toISOString [Demo.W1; Demo.W2]) ≡ₚ
  map (RequestPage.key Js.toISOString)
      (RequestPage.overlaps Js.toISOString [Demo.W2; Demo.W1]).
Proof.
  apply (overlaps_order_irrelevant Js.toISOString [Demo.W1; Demo.W2] [Demo.W2; Demo.W1]).
  - apply Permutation_swap.
  - vm_compute. lia.
Defined.

(** ** The participant token and the saved name *)

Section BrowserFacts.

Import Browser.

(** X5: the token is drawn once: whatever the first call returns, a later
    call returns the same and writes nothing, whatever [randomUUID] would
    give then.  Without [window] the token is ["server"]. *)
Theorem getUserKey_stable (fresh fresh' : string) (w : option (gmap string string)) :
  fresh <> "" ->
  let first := getUserKey fresh w in
  getUserKey fresh' (snd first) = first /\
  fst first <> "" /\
  (w = None -> fst first = "server").
Proof.
  intros Hfresh. cbv zeta. destruct w as [ls |]; cbn; [| repeat split; discriminate].
  destruct (ls !! "tw_user_key") as [k |] eqn:Hk; cbn.
  - destruct (String.eqb_spec k "") as [-> | Hne]; cbn.
    + rewrite lookup_insert_eq. cbn.
      apply String.eqb_neq in Hfresh. rewrite Hfresh. cbn.
      apply String.eqb_neq in Hfresh. repeat split; [assumption | discriminate].
    + rewrite Hk. cbn. apply String.eqb_neq in Hne. rewrite Hne. cbn.
      apply String.eqb_neq in Hne. repeat split; [assumption | discriminate].
  - rewrite lookup_insert_eq. cbn.
    apply String.eqb_neq in Hfresh. rewrite Hfresh. cbn.
    apply String.eqb_neq in Hfresh. repeat split; [assumption | discriminate].
Qed.

(** X6: in a browser the name saved is the name read back; saving a name
    leaves the token alone, and drawing the token leaves the name alone. *)
Theorem saved_name_round_trip (n fresh : string) (ls : gmap string string) :
  getUserName (setUserName n (Some ls)) = n /\
  fst (getUserKey fresh (setUserName n (Some ls))) = fst (getUserKey fresh (Some ls)) /\
  getUserName (snd (getUserKey fresh (Some ls))) = getUserName (Some ls) /\
  getUserName (setUserName n None) = "".
Proof.
  repeat split.
  - cbn. rewrite lookup_insert_eq. reflexivity.
  - cbn. rewrite lookup_insert_ne by discriminate. destruct (PlanPage.truthy _); reflexivity.
  - cbn. destruct (PlanPage.truthy _); cbn; [reflexivity |].
    rewrite lookup_insert_ne by discriminate. reflexivity.
Qed.

End BrowserFacts.

Lemma getUserKey_stable_witness :
  Browser.getUserKey "0b2f6c1e-7d43-4c0a-9a51-3f1f0e5d2a77"
    (snd (Browser.getUserKey "6f9619ff-8b86-4d01-b42d-00cf4fc964ff" (Some ∅))) =
  Browser.getUserKey "6f9619ff-8b86-4d01-b42d-00cf4fc964ff" (Some ∅).
Proof.
  apply (getUserKey_stable "6f9619ff-8b86-4d01-b42d-00cf4fc964ff"
           "0b2f6c1e-7d43-4c0a-9a51-3f1f0e5d2a77" (Some ∅)).
  discriminate.
Defined.

(** ** More on the plan page *)

Section PlanPageMore.

Import Store PlanPage.

Lemma counts_from c0 (rs : list ResponseRow) :
  let c := fold_left (fun c r => bump c (status r)) rs c0 in
  (c_in c + c_maybe c + c_out c = c_in c0 + c_maybe c0 + c_out c0 + length rs)%nat.
Proof.
  revert c0. induction rs as [| r rs IH]; intros c0; cbn; [lia |].
  cbv zeta in IH. rewrite IH. destruct (status r); cbn; lia.
Qed.

Lemma responses_of_keys planId db :
  unique_responses db -> NoDup (map user_key (responses_of planId db)).
Proof.
  unfold unique_responses, responses_of.
  induction (Store.responses db) as [| r l IH]; cbn; [constructor |].
  intros Hnd. apply NoDup_cons in Hnd as [Hr Hl].
  destruct (Nat.eqb_spec (resp_plan_id r) planId) as [He | Hne]; [| apply IH, Hl].
  cbn. apply NoDup_cons. split; [| apply IH, Hl].
  intros Hin. apply Hr. apply list_elem_of_fmap in Hin as (r' & Hk & Hr').
  apply list_elem_of_In, filter_In in Hr' as [Hr' Hp]. apply Nat.eqb_eq in Hp.
  apply list_elem_of_fmap. exists r'. split; [congruence | apply list_elem_of_In, Hr'].
Qed.

(** X7: the three counts in the header add up to the number of responses
    shown; on a page that shows the store these are the plan's responses,
    one for each participant token, so nobody is counted twice. *)
Theorem counts_each_participant_once db s p :
  shows db s p ->
  unique_responses db ->
  (c_in (counts s) + c_maybe (counts s) + c_out (counts s) =
   length (responses_of (id p) db))%nat /\
  NoDup (map user_key (responses s)).
Proof.
  intros (_ & _ & Hresp & _) Huniq. split.
  - unfold counts. pose proof (counts_from {| c_in := 0; c_maybe := 0; c_out := 0 |}
                                 (responses s)) as Hsum.
    cbv zeta in Hsum. rewrite Hsum, Hresp. cbn. lia.
  - rewrite Hresp. apply responses_of_keys, Huniq.
Qed.

Lemma load_true_loading f db s : loading (load true f db s) = false.
Proof.
  unfold load. cbn [slug setErr setLoading].
  destruct (select_plan _ _ _); cbn; [| reflexivity].
  destruct (resp_fault f), (claim_fault f); reflexivity.
Qed.

Lemma load_plan f b db s :
  plan (load b f db s) =
  match select_plan (plan_fault f) (slug s) db with
  | Data p => Some p
  | Error _ => plan s
  end.
Proof.
  unfold load.
  assert (slug (setErr None (if b then setLoading true s else s)) = slug s) as ->
    by (destruct b; reflexivity).
  destruct (select_plan _ _ _); destruct b, (resp_fault f), (claim_fault f); reflexivity.
Qed.

(** X8: the first [load] always ends the spinner.  On a page without a
    plan it leaves "Plan not found." exactly when the request for the plan
    fails, be it that no row has the slug or that the request did not get
    through; otherwise it leaves the plan card. *)
Theorem first_load_screen f db s :
  plan s = None ->
  screen (load true f db s) <> Spinner /\
  (screen (load true f db s) = NotFound <->
   exists m, select_plan (plan_fault f) (slug s) db = Error m) /\
  (screen (load true f db s) = Card <->
   exists p, select_plan (plan_fault f) (slug s) db = Data p).
Proof.
  intros Hnone. unfold screen. rewrite load_true_loading, load_plan, Hnone.
  destruct (select_plan _ _ _) as [p | m]; repeat split; try discriminate; eauto.
  - intros (m & Hm). discriminate.
  - intros (p & Hp). discriminate.
Qed.

(** X9: a turn of the poll never brings back the spinner or "Plan not
    found.": a page that shows the plan card shows it afterwards, whatever
    the store answers; nor does a turn touch the name field, the saved
    name, the token or the slug. *)
Theorem tick_keeps_card f db s :
  screen s = Card ->
  screen (tick f db s) = Card /\
  name (tick f db s) = name s /\ tw_user_name (tick f db s) = tw_user_name s /\
  userKey (tick f db s) = userKey s /\ slug (tick f db s) = slug s.
Proof.
  unfold screen, tick. intros Hcard.
  destruct (loading s) eqn:Hl; [discriminate |].
  destruct (plan s) as [p0 |] eqn:Hp; [| discriminate].
  rewrite load_plan, Hp. unfold load. cbn [slug setErr].
  destruct (select_plan _ _ _) as [p | m]; cbn.
  - destruct (resp_fault f), (claim_fault f); cbn; rewrite Hl; auto.
  - rewrite Hl. auto.
Qed.

(** X10: on a page that shows the store, a turn of the poll that the store
    serves changes nothing but the error, which it clears. *)
Theorem tick_unchanged_store db s p :
  shows db s p -> tick served db s = setErr None s.
Proof.
  intros (Hplan & Hsel & Hresp & Hclaims). unfold tick.
  rewrite (load_found served db s p Hsel). cbn.
  unfold setClaims, setResponses, setPlan, setErr. cbn.
  rewrite <- Hplan, <- Hresp, <- Hclaims. reflexivity.
Qed.

(** X11: without a name neither [setRSVP] nor [setArrival] writes: the
    store is as before, and on a loaded plan the page asks for the name and
    keeps its lists and its saved name. *)
Theorem response_needs_name st a w f db s :
  Js.trim (name s) = "" ->
  fst (setRSVP st w f db s) = db /\ fst (setArrival a w f db s) = db /\
  (plan s <> None ->
   err (snd (setRSVP st w f db s)) = Some name_first /\
   err (snd (setArrival a w f db s)) = Some name_first /\
   responses (snd (setRSVP st w f db s)) = responses s /\
   responses (snd (setArrival a w f db s)) = responses s /\
   tw_user_name (snd (setRSVP st w f db s)) = tw_user_name s /\
   tw_user_name (snd (setArrival a w f db s)) = tw_user_name s).
Proof.
  intros Hblank. unfold setRSVP, setArrival.
  destruct (plan s) as [p |]; cbn [name setErr]; [| repeat split; congruence].
  rewrite Hblank. cbn. auto 10.
Qed.

(** X12: when its write fails, a handler leaves the store as it is and
    does not reload: the plan and the two lists on the page stay as they
    were. *)
Theorem failed_write_changes_nothing m st a it f db s :
  let untouched (out : DB * State) :=
    fst out = db /\ plan (snd out) = plan s /\
    responses (snd out) = responses s /\ claims (snd out) = claims s in
  untouched (setRSVP st (Some m) f db s) /\
  untouched (setArrival a (Some m) f db s) /\
  untouched (claimItem it (Some m) f db s) /\
  untouched (unclaimItem it (Some m) f db s).
Proof.
  cbv zeta. unfold setRSVP, setArrival, claimItem, unclaimItem, submit.
  destruct (plan s) as [p |] eqn:Hp; cbn [name claims setErr setUserName]; [| auto 20].
  destruct (String.eqb (Js.trim (name s)) ""); cbn;
    destruct (find _ (claims s)) as [c |]; cbn; rewrite ?Hp; auto 20;
    destruct (negb _); cbn; rewrite ?Hp; auto 20.
Qed.

Lemma load_setErr b f db e s : load b f db (setErr e s) = load b f db s.
Proof. unfold load. destruct b; reflexivity. Qed.

(** X13: [ensurePotluckDefaults] never changes the store when its insert
    fails, and the message of the failure does not stay: the page is left
    as it was, or as a plain [load(false)] leaves it. *)
Theorem failed_seed_is_a_reload m f db s :
  fst (ensurePotluckDefaults (Some m) f db s) = db /\
  (snd (ensurePotluckDefaults (Some m) f db s) = s \/
   snd (ensurePotluckDefaults (Some m) f db s) = load false f db s).
Proof.
  unfold ensurePotluckDefaults. destruct (plan s) as [p |]; [| auto].
  destruct (Nat.eqb _ 0); [auto |]. cbn. split; [reflexivity |].
  right. apply load_setErr.
Qed.

End PlanPageMore.

Section LedgerMore.

Import Store PlanPage.

(** What one served [submit] leaves behind. *)
Lemma submit_leaves pl db s p :
  plan s = Some p ->
  select_plan None (slug s) db = Data p ->
  pl_plan_id pl = id p -> pl_user_key pl = userKey s ->
  unique_responses db ->
  let db1 := fst (submit pl None served db s) in
  let s1 := snd (submit pl None served db s) in
  exists r,
    responses_by (id p) (userKey s) db1 = [r] /\ merge pl r = r /\
    myResponse s1 = Some r /\ shows db1 s1 p /\ unique_responses db1 /\
    name s1 = name s /\ userKey s1 = userKey s.
Proof.
  intros Hplan Hsel Hpid Hkey Huniq. cbv zeta. rewrite submit_served. cbn [fst snd].
  set (db1 := fst (upsert_response None pl db)).
  assert (select_plan None (slug s) db1 = Data p) as Hsel1.
  { rewrite <- Hsel. apply select_plan_plans, upsert_plans. }
  destruct (load_served_shows db1 s p Hsel1) as (Hshows & Hn & Hk & _).
  destruct (upsert_single pl db Huniq) as (r & Hr & Hmerge & _).
  fold db1 in Hr. rewrite Hpid, Hkey in Hr.
  exists r. repeat split; try assumption.
  - rewrite (myResponse_shows db1 _ p Hshows), Hk, Hr. reflexivity.
  - apply Hshows.
  - apply Hshows.
  - apply Hshows.
  - apply Hshows.
  - apply upsert_unique, Huniq.
Qed.


Lemma upsert_other_key f pl db planId k :
  (planId, k) <> (pl_plan_id pl, pl_user_key pl) ->
  responses_by planId k (fst (upsert_response f pl db)) = responses_by planId k db.
Proof.
  intros Hne. unfold responses_by, upsert_response.
  set (g := fun r => Nat.eqb (resp_plan_id r) planId && String.eqb (user_key r) k).
  assert (forall r, conflicts pl r = true -> g r = false) as Hoff.
  { intros r Hc. apply conflicts_spec in Hc as [Hp Hk]. unfold g.
    apply not_true_is_false. intros Hg.
    apply andb_true_iff in Hg as [Hg1 Hg2].
    apply Nat.eqb_eq in Hg1. apply String.eqb_eq in Hg2. apply Hne. congruence. }
  destruct f as [m |]; [reflexivity |].
  destruct (existsb (conflicts pl) (Store.responses db)); cbn [fst Store.responses].
  - rewrite filter_map_same.
    + apply map_id_on. intros r Hr. unfold upserted.
      destruct (conflicts pl r) eqn:Hc; [| reflexivity].
      apply list_elem_of_In, filter_In in Hr as [_ Hg]. rewrite (Hoff r Hc) in Hg.
      discriminate.
    + intros r. unfold upserted. destruct (conflicts pl r) eqn:Hc; [| reflexivity].
      rewrite (Hoff r Hc). apply Hoff, conflicts_merge.
  - cbn. fold g. rewrite Hoff; [reflexivity |].
    apply conflicts_spec. split; reflexivity.
Qed.

(** X15: a response written from one page touches nobody else's: for
    every other pair of plan and participant token the rows in the store
    are as before, whatever the store answers; so are the plans and the
    claims. *)
Theorem response_leaves_others st a w f db s p planId k :
  plan s = Some p ->
  (planId, k) <> (id p, userKey s) ->
  let unaffected (out : DB * State) :=
    responses_by planId k (fst out) = responses_by planId k db /\
    plans (fst out) = plans db /\ Store.claims (fst out) = Store.claims db in
  unaffected (setRSVP st w f db s) /\ unaffected (setArrival a w f db s).
Proof.
  intros Hplan Hne. cbv zeta. unfold setRSVP, setArrival, submit. rewrite Hplan.
  cbn [name setErr setUserName userKey].
  assert (forall pl, pl_plan_id pl = id p -> pl_user_key pl = userKey s ->
            responses_by planId k (fst (upsert_response w pl db)) = responses_by planId k db /\
            plans (fst (upsert_response w pl db)) = plans db /\
            Store.claims (fst (upsert_response w pl db)) = Store.claims db) as Hup.
  { intros pl Hp Hk. split; [apply upsert_other_key; congruence |].
    unfold upsert_response. destruct w; [auto |].
    destruct (existsb _ _); auto. }
  destruct (String.eqb (Js.trim (name s)) ""); cbn [fst]; [auto 10 |].
  split.
  - match goal with |- context [upsert_response w ?pl db] =>
      pose proof (Hup pl eq_refl eq_refl) as H;
      destruct (upsert_response w pl db) as [db' [e |]]; exact H end.
  - match goal with |- context [upsert_response w ?pl db] =>
      pose proof (Hup pl eq_refl eq_refl) as H;
      destruct (upsert_response w pl db) as [db' [e |]]; exact H end.
Qed.

End LedgerMore.

Section ClaimMore.

Import Store PlanPage.

Lemma nodup_map_inj {A B} (h : A -> B) (l : list A) x y :
  NoDup (map h l) -> x ∈ l -> y ∈ l -> h x = h y -> x = y.
Proof.
  induction l as [| z l IH]; cbn; intros Hnd Hx Hy Hxy.
  - apply elem_of_nil in Hx. contradiction.
  - apply NoDup_cons in Hnd as [Hz Hl].
    apply elem_of_cons in Hx as [-> | Hx]; apply elem_of_cons in Hy as [-> | Hy].
    + reflexivity.
    + exfalso. apply Hz. rewrite Hxy. apply list_elem_of_fmap. eauto.
    + exfalso. apply Hz. rewrite <- Hxy. apply list_elem_of_fmap. eauto.
    + apply IH; assumption.
Qed.

Lemma find_claim_row planId it db c :
  find (fun c => String.eqb (item c) it) (claims_of planId db) = Some c ->
  c ∈ Store.claims db /\ claim_plan_id c = planId /\ item c = it.
Proof.
  intros Hfind. apply find_some in Hfind as [Hin Hit].
  apply filter_In in Hin as [Hin Hp].
  apply Nat.eqb_eq in Hp. apply String.eqb_eq in Hit.
  split; [apply list_elem_of_In, Hin | auto].
Qed.

Lemma update_other_item f v db existing planId it :
  NoDup (map claim_id (Store.claims db)) ->
  existing ∈ Store.claims db ->
  (planId, it) <> (claim_plan_id existing, item existing) ->
  claimant planId it (fst (update_claimed_by f v (claim_id existing) db)) =
  claimant planId it db.
Proof.
  intros Hnd Hex Hne. destruct f as [m |]; [reflexivity |].
  unfold claimant. rewrite update_claims_of, find_map_same.
  - destruct (find _ (claims_of planId db)) as [c |] eqn:Hfind; [| reflexivity].
    apply find_claim_row in Hfind as (Hc & Hp & Hit). cbn. unfold updated.
    destruct (Nat.eqb_spec (claim_id c) (claim_id existing)) as [Heq | _]; [| reflexivity].
    exfalso. apply Hne.
    rewrite (nodup_map_inj claim_id _ c existing Hnd Hc Hex Heq) in Hp, Hit. congruence.
  - intros c. unfold updated. destruct (Nat.eqb (claim_id c) _); reflexivity.
Qed.

(** X16: claiming or releasing an item leaves every other item alone.
    With primary keys that are distinct, and a page that shows the store,
    the holder of any other item of any plan is as before, whatever the
    store answers; so are the plans and the responses. *)
Theorem claim_leaves_other_items it w f db s p planId it' :
  shows db s p ->
  NoDup (map claim_id (Store.claims db)) ->
  (planId, it') <> (id p, it) ->
  let unaffected (out : DB * State) :=
    claimant planId it' (fst out) = claimant planId it' db /\
    plans (fst out) = plans db /\ Store.responses (fst out) = Store.responses db in
  unaffected (claimItem it w f db s) /\ unaffected (unclaimItem it w f db s).
Proof.
  intros (Hplan & _ & _ & Hclaims) Hnd Hne. cbv zeta.
  assert (forall v existing,
            find (fun c => String.eqb (item c) it) (claims s) = Some existing ->
            claimant planId it' (fst (update_claimed_by w v (claim_id existing) db)) =
              claimant planId it' db /\
            plans (fst (update_claimed_by w v (claim_id existing) db)) = plans db /\
            Store.responses (fst (update_claimed_by w v (claim_id existing) db)) =
              Store.responses db) as Hup.
  { intros v existing Hfind. rewrite Hclaims in Hfind.
    apply find_claim_row in Hfind as (Hex & Hp & Hit).
    split; [apply update_other_item; [assumption .. | congruence] |].
    destruct w; auto. }
  unfold claimItem, unclaimItem. rewrite Hplan. cbn [name claims setErr setUserName].
  split.
  - destruct (String.eqb (Js.trim (name s)) ""); [cbn; auto |].
    destruct (find _ (claims s)) as [existing |] eqn:Hfind; [| cbn; auto].
    pose proof (Hup (Some (Js.trim (name s))) existing eq_refl) as H.
    destruct (update_claimed_by w _ _ db) as [db' [e |]]; exact H.
  - destruct (find _ (claims s)) as [existing |] eqn:Hfind; [| cbn; auto].
    destruct (negb _); [cbn; auto |].
    pose proof (Hup None existing eq_refl) as H.
    destruct (update_claimed_by w _ _ db) as [db' [e |]]; exact H.
Qed.

Lemma trim_clean x : Js.trim x <> "" -> clean (Js.trim x).
Proof. intros Hne. split; [exact Hne | apply trim_trim]. Qed.

Lemma upsert_clean f pl db :
  clean (pl_user_name pl) -> names_clean db -> names_clean (fst (upsert_response f pl db)).
Proof.
  intros Hpl [Hr Hc]. unfold upsert_response. destruct f as [m |]; [split; assumption |].
  destruct (existsb _ _); (split; [| exact Hc]); cbn [fst Store.responses].
  - apply Forall_fmap. eapply Forall_impl; [exact Hr |].
    intros r Hclean n. unfold upserted. cbn.
    destruct (conflicts pl r); [cbn; intros [= <-]; exact Hpl | apply Hclean].
  - constructor; [| exact Hr]. cbn. intros n [= <-]. exact Hpl.
Qed.

Lemma update_clean f v i db :
  (forall n, v = Some n -> clean n) -> names_clean db ->
  names_clean (fst (update_claimed_by f v i db)).
Proof.
  intros Hv [Hr Hc]. destruct f as [m |]; [split; assumption |].
  split; [exact Hr |]. cbn [fst update_claimed_by Store.claims].
  apply Forall_fmap. eapply Forall_impl; [exact Hc |].
  intros c Hclean n. unfold updated. cbn.
  destruct (Nat.eqb (claim_id c) i); [cbn; apply Hv | apply Hclean].
Qed.

Lemma insert_unclaimed_clean f planId names db :
  names_clean db ->
  names_clean (fst (insert_claims f (map (unclaimed_row planId) names) db)).
Proof.
  intros [Hr Hc]. destruct f as [m |]; [split; assumption |].
  split; [exact Hr |]. cbn [fst insert_claims Store.claims].
  apply Forall_app. split; [| exact Hc].
  eapply Forall_impl; [apply (number_claims_unclaimed planId) |].
  cbn. intros c [_ ->] n. discriminate.
Qed.

Lemma setRSVP_clean st w f db s :
  names_clean db -> names_clean (fst (setRSVP st w f db s)).
Proof.
  intros Hclean. unfold setRSVP, submit.
  destruct (plan s) as [p |]; cbn [name setErr setUserName userKey]; [| exact Hclean].
  destruct (String.eqb_spec (Js.trim (name s)) "") as [_ | Hname]; [exact Hclean |].
  match goal with |- context [upsert_response w ?pl db] =>
    pose proof (upsert_clean w pl db (trim_clean _ Hname) Hclean) as H;
    destruct (upsert_response w pl db) as [db' [e |]]; exact H end.
Qed.

Lemma setArrival_clean a w f db s :
  names_clean db -> names_clean (fst (setArrival a w f db s)).
Proof.
  intros Hclean. unfold setArrival, submit.
  destruct (plan s) as [p |]; cbn [name setErr setUserName userKey]; [| exact Hclean].
  destruct (String.eqb_spec (Js.trim (name s)) "") as [_ | Hname]; [exact Hclean |].
  match goal with |- context [upsert_response w ?pl db] =>
    pose proof (upsert_clean w pl db (trim_clean _ Hname) Hclean) as H;
    destruct (upsert_response w pl db) as [db' [e |]]; exact H end.
Qed.

Lemma claimItem_clean it w f db s :
  names_clean db -> names_clean (fst (claimItem it w f db s)).
Proof.
  intros Hclean. unfold claimItem.
  destruct (plan s) as [p |]; cbn [name claims setErr setUserName]; [| exact Hclean].
  destruct (String.eqb_spec (Js.trim (name s)) "") as [_ | Hname]; [exact Hclean |].
  destruct (find _ (claims s)) as [c |]; [| exact Hclean].
  assert (forall n, Some (Js.trim (name s)) = Some n -> clean n) as Hv
    by (intros n [= <-]; apply trim_clean, Hname).
  pose proof (update_clean w _ (claim_id c) db Hv Hclean) as H.
  destruct (update_claimed_by w _ (claim_id c) db) as [db' [e |]]; exact H.
Qed.

Lemma unclaimItem_clean it w f db s :
  names_clean db -> names_clean (fst (unclaimItem it w f db s)).
Proof.
  intros Hclean. unfold unclaimItem.
  destruct (plan s) as [p |]; cbn [name claims setErr]; [| exact Hclean].
  destruct (find _ (claims s)) as [c |]; [| exact Hclean].
  destruct (negb _); [exact Hclean |].
  assert (forall n, @None string = Some n -> clean n) as Hv by discriminate.
  pose proof (update_clean w _ (claim_id c) db Hv Hclean) as H.
  destruct (update_claimed_by w None (claim_id c) db) as [db' [e |]]; exact H.
Qed.

Lemma ensurePotluckDefaults_clean w f db s :
  names_clean db -> names_clean (fst (ensurePotluckDefaults w f db s)).
Proof.
  intros Hclean. unfold ensurePotluckDefaults.
  destruct (plan s) as [p |]; [| exact Hclean].
  destruct (Nat.eqb _ 0); [exact Hclean |].
  match goal with |- context [insert_claims w (map _ ?names) db] =>
    pose proof (insert_unclaimed_clean w (id p) names db Hclean) as H;
    destruct (insert_claims w (map (unclaimed_row (id p)) names) db) as [db' [e |]];
    exact H end.
Qed.

(** X17: the plan page never puts a blank or untrimmed name into the
    store: if every name stored is non-empty and trimmed, it is so after
    any of the five handlers that write, whatever the field holds and
    whatever the store answers. *)
Theorem handlers_keep_names_clean st a it w f db s :
  names_clean db ->
  names_clean (fst (setRSVP st w f db s)) /\
  names_clean (fst (setArrival a w f db s)) /\
  names_clean (fst (claimItem it w f db s)) /\
  names_clean (fst (unclaimItem it w f db s)) /\
  names_clean (fst (ensurePotluckDefaults w f db s)).
Proof.
  intros Hclean.
  exact (conj (setRSVP_clean st w f db s Hclean)
          (conj (setArrival_clean a w f db s Hclean)
             (conj (claimItem_clean it w f db s Hclean)
                (conj (unclaimItem_clean it w f db s Hclean)
                   (ensurePotluckDefaults_clean w f db s Hclean))))).
Qed.

(** X18: the Unclaim button is never a dead end.  When the page offers it
    for a row, the first one shown for its item, the click is not refused
    for the name: it sends the update that resets [claimed_by] to that
    row; and no row gets both buttons. *)
Theorem unclaim_button_works c w f db s p :
  plan s = Some p ->
  find (fun x => String.eqb (item x) (item c)) (claims s) = Some c ->
  offersUnclaim s c = true ->
  fst (unclaimItem (item c) w f db s) = fst (update_claimed_by w None (claim_id c) db) /\
  (w = None ->
   Store.claims (fst (unclaimItem (item c) w f db s)) =
     map (updated None (claim_id c)) (Store.claims db)) /\
  offersClaim c = false.
Proof.
  intros Hplan Hfind Hoffer. unfold offersUnclaim in Hoffer.
  apply andb_true_iff in Hoffer as [Htruthy Hmine].
  assert (fst (unclaimItem (item c) w f db s) =
          fst (update_claimed_by w None (claim_id c) db)) as Hsent.
  { unfold unclaimItem. rewrite Hplan. cbn [name claims setErr]. rewrite Hfind.
    unfold mine in Hmine. rewrite Hmine. cbn [negb].
    destruct (update_claimed_by w None (claim_id c) db) as [db' [e |]]; reflexivity. }
  repeat split.
  - exact Hsent.
  - intros ->. rewrite Hsent. reflexivity.
  - unfold offersClaim. rewrite Htruthy. reflexivity.
Qed.

End ClaimMore.

(** ** From a candidate to the page of its plan *)

Section PromotionMore.

Import Store PlanPage.

Variable toISOString : Z -> string.

Lemma filter_none {A} (g : A -> bool) l :
  Forall (fun x => g x = false) l -> List.filter g l = [].
Proof.
  induction 1 as [| x l Hx _ IH]; cbn; [reflexivity |]. rewrite Hx. exact IH.
Qed.

Lemma select_new_plan sl np db :
  Store.slug np = sl ->
  Forall (fun q => Store.slug q <> sl) (plans db) ->
  forall db', plans db' = np :: plans db -> select_plan None sl db' = Data np.
Proof.
  intros Hsl Hfresh db' Hplans. unfold select_plan. rewrite Hplans. cbn.
  rewrite Hsl, String.eqb_refl, filter_none; [reflexivity |].
  eapply Forall_impl; [exact Hfresh |]. cbn. intros q Hq. apply String.eqb_neq, Hq.
Qed.

Lemma no_rows_of_next_plan db :
  rows_of_known_plans db ->
  responses_of (next_id db) db = [] /\ claims_of (next_id db) db = [].
Proof.
  intros [Hr Hc]. unfold responses_of, claims_of. split; apply filter_none.
  - eapply Forall_impl; [exact Hr |]. cbn. intros r Hlt. apply Nat.eqb_neq. lia.
  - eapply Forall_impl; [exact Hc |]. cbn. intros c Hlt. apply Nat.eqb_neq. lia.
Qed.

(** The page of the promoted plan after its first load, and the plan. *)
Lemma promoted_page planSlug key saved start end_ db s r :
  RequestPage.req s = Some r ->
  Forall (fun q => Store.slug q <> planSlug) (plans db) ->
  rows_of_known_plans db ->
  let np := fresh_plan (next_id db)
              {| pp_slug := planSlug; pp_request_id := req_id r;
                 pp_title := req_title r; pp_type := req_type r;
                 pp_note := req_note r; pp_start_ts := toISOString start;
                 pp_end_ts := toISOString end_ |} in
  let out := RequestPage.createPlanFromOverlap toISOString planSlug None start end_ db s in
  let page := load true served (fst out) (first_render planSlug key saved) in
  RequestPage.pushed (snd out) = Some ("/p/" +:+ planSlug) /\
  select_plan None planSlug (fst out) = Data np /\
  page = setLoading false
           (setClaims [] (setResponses [] (setPlan (Some np)
              (setErr None (setLoading true (first_render planSlug key saved)))))) /\
  claims_of (id np) (fst out) = [].
Proof.
  intros Hreq Hfresh Hknown. cbv zeta.
  unfold RequestPage.createPlanFromOverlap. rewrite Hreq. cbn [fst snd insert_plan].
  set (np := fresh_plan _ _).
  set (db1 := {| plans := np :: plans db; Store.responses := Store.responses db;
                 Store.claims := Store.claims db; next_id := S (next_id db) |}).
  assert (select_plan None planSlug db1 = Data np) as Hsel
    by (apply (select_new_plan planSlug np db); [reflexivity | exact Hfresh | reflexivity]).
  destruct (no_rows_of_next_plan db Hknown) as [Hnr Hnc].
  repeat split; [exact Hsel | | exact Hnc].
  unfold load. cbn [slug setErr setLoading first_render plan_fault served].
  fold db1. rewrite Hsel.
  cbn [resp_fault claim_fault served select_responses select_claims error data default].
  change (responses_of (id np) db1) with (responses_of (next_id db) db).
  change (claims_of (id np) db1) with (claims_of (next_id db) db).
  rewrite Hnr, Hnc. reflexivity.
Qed.

(** X19: promotion and the plan page fit together.  When the slug drawn
    is not that of another plan, the route the request page pushes leads to
    a page whose first load, with the effect that runs within it, finds the
    plan just created: it shows the plan card with the request's title,
    type and note and the chosen start and end, no response and no error,
    and what it lists is what the store holds.  If the type has no
    "potluck" in it the store is left as the promotion left it and the
    page lists no claim; if it has, the page lists the five defaults,
    unclaimed. *)
Theorem promoted_plan_opens planSlug key saved start end_ db s r :
  RequestPage.req s = Some r ->
  Forall (fun q => Store.slug q <> planSlug) (plans db) ->
  rows_of_known_plans db ->
  let out := RequestPage.createPlanFromOverlap toISOString planSlug None start end_ db s in
  let opened :=
    load_and_effect true None served served (fst out) (first_render planSlug key saved) in
  let page := snd opened in
  RequestPage.pushed (snd out) = Some ("/p/" +:+ planSlug) /\
  screen page = Card /\
  (exists np, plan page = Some np /\ shows (fst opened) page np /\
              title np = req_title r /\ type np = req_type r /\ note np = req_note r /\
              start_ts np = toISOString start /\ end_ts np = toISOString end_) /\
  responses page = [] /\ err page = None /\
  (Js.includes "potluck" (Js.toLowerCase (req_type r)) = false ->
   fst opened = fst out /\ claims page = []) /\
  (Js.includes "potluck" (Js.toLowerCase (req_type r)) = true ->
   map item (claims page) = DEFAULT_POTLUCK_ITEMS /\
   Forall (fun c => claimed_by c = None) (claims page)).
Proof.
  intros Hreq Hfresh Hknown. cbv zeta.
  destruct (promoted_page planSlug key saved start end_ db s r Hreq Hfresh Hknown)
    as (Hpush & Hsel & Hpage & Hnc).
  set (np := fresh_plan _ _) in *.
  set (db1 := fst (RequestPage.createPlanFromOverlap _ _ _ _ _ _ _)) in *.
  assert (responses_of (id np) db1 = []) as Hnr.
  { unfold db1, RequestPage.createPlanFromOverlap. rewrite Hreq. cbn.
    apply (no_rows_of_next_plan db Hknown). }
  split; [exact Hpush |].
  destruct (Js.includes "potluck" (Js.toLowerCase (req_type r))) eqn:Hpot.
  - rewrite (load_and_effect_seeds true served served db1
               (first_render planSlug key saved) np);
      [| discriminate | reflexivity | exact Hsel | exact Hpot].
    cbv zeta. cbn [fst snd].
    set (db2 := fst (insert_claims None
                       (map (unclaimed_row (id np)) DEFAULT_POTLUCK_ITEMS) db1)).
    set (s2 := load_lists true served np db2 _).
    assert (select_plan None (slug s2) db2 = Data np) as Hsel2.
    { rewrite <- Hsel. apply select_plan_plans, insert_plans. }
    destruct (load_served_shows db2 s2 np Hsel2)
      as (Hshows & _ & _ & _ & _ & Herr).
    assert (loading (load false served db2 s2) = false) as Hload
      by (rewrite (load_found served db2 s2 np Hsel2); reflexivity).
    cbv zeta in Hshows, Herr.
    set (page := load false served db2 s2) in *.
    pose proof Hshows as (Hplan & _ & Hresp & Hclaims).
    assert (claims page =
            number_claims (next_id db1)
              (map (unclaimed_row (id np)) DEFAULT_POTLUCK_ITEMS)) as Hcl.
    { rewrite Hclaims. unfold db2. rewrite insert_claims_of, Hnc. apply app_nil_r. }
    split; [unfold screen; rewrite Hload, Hplan; reflexivity |].
    split; [exists np; split; [exact Hplan |]; split; [exact Hshows |];
            cbn; auto 10 |].
    split; [rewrite Hresp; exact Hnr |].
    split; [exact Herr |].
    split; [discriminate |]. intros _. rewrite Hcl. split.
    + apply number_claims_items.
    + eapply Forall_impl; [apply (number_claims_unclaimed (id np)) |].
      cbn. intros c [_ Hc]. exact Hc.
  - rewrite load_and_effect_quiet; [| intros q Hq; right].
    2:{ change (select_plan (plan_fault served) (slug (first_render planSlug key saved)) db1)
          with (select_plan None planSlug db1) in Hq.
        rewrite Hsel in Hq. injection Hq as <-. exact Hpot. }
    cbn [fst snd]. rewrite Hpage.
    split; [reflexivity |].
    split.
    { eexists. split; [reflexivity |]. split; [| cbn; auto 10].
      unfold shows. cbn [plan responses claims slug setLoading setClaims setResponses
                         setPlan setErr first_render].
      split; [reflexivity |]. split; [exact Hsel |].
      split; symmetry; assumption. }
    split; [reflexivity |]. split; [reflexivity |].
    split; [intros _; split; reflexivity | discriminate].
Qed.

(** X20: a potluck gets its defaults on the first view.  For a request
    whose type contains "potluck", whatever the case of its letters, the
    effect that follows the first load of the promoted plan's page inserts
    the five default items, in their order and unclaimed, and the page
    then lists exactly them. *)
Theorem promoted_potluck_is_seeded planSlug key saved start end_ db s r :
  RequestPage.req s = Some r ->
  Forall (fun q => Store.slug q <> planSlug) (plans db) ->
  rows_of_known_plans db ->
  Js.includes "potluck" (Js.toLowerCase (req_type r)) = true ->
  let out := RequestPage.createPlanFromOverlap toISOString planSlug None start end_ db s in
  let page := load true served (fst out) (first_render planSlug key saved) in
  let seeded := potluckEffect None served (fst out) page in
  map item (claims (snd seeded)) = DEFAULT_POTLUCK_ITEMS /\
  Forall (fun c => claimed_by c = None /\ claim_plan_id c = next_id db)
         (claims (snd seeded)) /\
  claims_of (next_id db) (fst seeded) = claims (snd seeded) /\
  Store.claims (fst seeded) = (claims (snd seeded) ++ Store.claims db)%list.
Proof.
  intros Hreq Hfresh Hknown Hpot. cbv zeta.
  destruct (promoted_page planSlug key saved start end_ db s r Hreq Hfresh Hknown)
    as (_ & Hsel & -> & Hnc).
  set (np := fresh_plan _ _) in *.
  set (db1 := fst (RequestPage.createPlanFromOverlap _ _ _ _ _ _ _)) in *.
  assert (Store.claims db1 = Store.claims db) as Hsame
    by (unfold db1, RequestPage.createPlanFromOverlap; rewrite Hreq; reflexivity).
  set (page := setLoading false _).
  assert (plan page = Some np) as Hplan by reflexivity.
  unfold potluckEffect, isPotluck. rewrite Hplan.
  change (type np) with (req_type r). rewrite Hpot.
  rewrite (ensurePotluckDefaults_unfold None served db1 page np Hplan).
  change (lacking (claims page)) with DEFAULT_POTLUCK_ITEMS.
  cbv zeta. cbn [DEFAULT_POTLUCK_ITEMS].
  change (snd (insert_claims None ?ps db1)) with (@None string).
  set (names := [ "Main dish"; "Salad / Veg"; "Snack / App"; "Dessert"; "Drinks" ]).
  set (db2 := fst (insert_claims None (map (unclaimed_row (id np)) names) db1)).
  assert (select_plan None (slug page) db2 = Data np) as Hsel2.
  { rewrite <- Hsel. apply select_plan_plans, insert_plans. }
  cbn iota. cbn [fst snd].
  rewrite (load_found served db2 page np Hsel2).
  cbn [claims setClaims served claim_fault select_claims data default].
  change (claims_of (next_id db) db2) with (claims_of (id np) db2).
  assert (claims_of (id np) db2 =
          number_claims (next_id db1) (map (unclaimed_row (id np)) names)) as Hof
    by (unfold db2; rewrite (insert_claims_of (id np) names db1), Hnc; apply app_nil_r).
  assert (Store.claims db2 =
          (number_claims (next_id db1) (map (unclaimed_row (id np)) names) ++
           Store.claims db)%list) as Hall
    by (unfold db2; cbn [fst insert_claims Store.claims]; rewrite Hsame; reflexivity).
  rewrite !Hof, Hall. cbv [Datatypes.id from_option].
  split; [| split; [| split]].
  - apply number_claims_items.
  - eapply Forall_impl; [apply (number_claims_unclaimed (id np)) |].
    cbn. intros c [-> ->]. split; reflexivity.
  - reflexivity.
  - reflexivity.
Qed.

End PromotionMore.

(** ** Requests and their windows *)

Section AvailabilityFacts.

Import Store Availability.

Variable newDate : string -> option Z.
Variable toISOString : Z -> string.

Lemma load_loading f t s : loading (load f t s) = false.
Proof.
  unfold load. cbn [slug setErr setLoading].
  destruct (select_request _ _ _); [destruct (win_fault f) |]; reflexivity.
Qed.

Lemma load_found_request t s r :
  select_request None (slug s) t = Data r ->
  load served t s =
  setLoading false (setRows (windows_of (req_id r) t)
    (setReq (Some r) (setErr None (setLoading true s)))).
Proof.
  intros Hsel. unfold load. cbn [slug setErr setLoading req_fault served].
  rewrite Hsel. reflexivity.
Qed.

(** X21: [addWindow] stores nothing but a window that ends after it
    starts.  Either the tables are as before, or the request is loaded,
    the name is not blank, both texts are dates, the start is before the
    end, and the one row added holds the ISO strings of those two dates,
    the trimmed name and the token.  So a table of windows that are all
    chronological stays so.  A window that does not end after its start is
    answered with "End must be after start.". *)
Theorem addWindow_only_chronological w f t s :
  let out := addWindow newDate toISOString w f t s in
  (fst out = t \/
   exists r start end_,
     req s = Some r /\ Js.trim (name s) <> "" /\
     newDate (startLocal s) = Some start /\ newDate (endLocal s) = Some end_ /\
     start < end_ /\
     availability_windows (fst out) =
       {| win_id := next_row t; win_request_id := req_id r;
          win_user_key := userKey s; win_user_name := Some (Js.trim (name s));
          win_start_ts := toISOString start; win_end_ts := toISOString end_ |}
       :: availability_windows t /\
     hang_requests (fst out) = hang_requests t) /\
  (chronological toISOString t -> chronological toISOString (fst out)) /\
  (forall start end_,
     req s <> None -> Js.trim (name s) <> "" ->
     newDate (startLocal s) = Some start -> newDate (endLocal s) = Some end_ ->
     end_ <= start ->
     err (snd out) = Some end_after_start /\ rows (snd out) = rows s).
Proof.
  cbv zeta.
  assert (fst (addWindow newDate toISOString w f t s) = t \/
          exists r start end_,
            req s = Some r /\ Js.trim (name s) <> "" /\
            newDate (startLocal s) = Some start /\ newDate (endLocal s) = Some end_ /\
            start < end_ /\
            availability_windows (fst (addWindow newDate toISOString w f t s)) =
              {| win_id := next_row t; win_request_id := req_id r;
                 win_user_key := userKey s; win_user_name := Some (Js.trim (name s));
                 win_start_ts := toISOString start; win_end_ts := toISOString end_ |}
              :: availability_windows t /\
            hang_requests (fst (addWindow newDate toISOString w f t s)) = hang_requests t)
    as Hcases.
  { unfold addWindow. cbn [req name startLocal endLocal userKey setErr setUserName].
    destruct (req s) as [r |]; [| left; reflexivity].
    destruct (String.eqb_spec (Js.trim (name s)) "") as [_ | Hname]; [left; reflexivity |].
    destruct (newDate (startLocal s)) as [start |]; [| left; reflexivity].
    destruct (newDate (endLocal s)) as [end_ |]; [| left; reflexivity].
    destruct (Z.leb_spec end_ start) as [_ | Hlt]; [left; reflexivity |].
    destruct w as [m |]; [left; reflexivity |].
    right. exists r, start, end_. cbn. auto 10. }
  split; [exact Hcases |]. split.
  - intros Hchron. destruct Hcases as [-> | (r & a & b & _ & _ & _ & _ & Hab & Hrows & _)];
      [exact Hchron |].
    unfold chronological. rewrite Hrows. constructor; [| exact Hchron].
    exists a, b. cbn. auto.
  - intros start end_ Hreq Hname Hs He Hle. unfold addWindow.
    cbn [req name startLocal endLocal userKey setErr setUserName].
    destruct (req s) as [r |]; [| contradiction].
    apply String.eqb_neq in Hname. rewrite Hname, Hs, He.
    apply Z.leb_le in Hle. rewrite Hle. split; reflexivity.
Qed.

(** X22: after [load] the spinner is off, whatever the store answered.
    When the request cannot be fetched, the request and the windows on the
    page stay as they were and the error is shown; when the request
    arrives but its windows cannot be fetched, the list of windows is
    emptied. *)
Theorem request_load_outcomes f t s :
  loading (load f t s) = false /\
  match select_request (req_fault f) (slug s) t with
  | Error m => req (load f t s) = req s /\ rows (load f t s) = rows s /\
               err (load f t s) = Some m
  | Data r =>
      req (load f t s) = Some r /\
      match win_fault f with
      | Some m => rows (load f t s) = [] /\ err (load f t s) = Some m
      | None => rows (load f t s) = windows_of (req_id r) t /\ err (load f t s) = None
      end
  end.
Proof.
  split; [apply load_loading |]. unfold load. cbn [slug setErr setLoading].
  destruct (select_request _ _ _) as [r | m]; [| cbn; auto].
  destruct (win_fault f); cbn; auto.
Qed.

(** X23: the window just added is the first one shown.  On a page whose
    request is the one the tables hold for its slug, with a name, two
    dates and the start before the end, a served [addWindow] ends with the
    new row in front of the request's other windows, no error, and the
    trimmed name saved. *)
Theorem addWindow_then_shown t s r start end_ :
  req s = Some r ->
  select_request None (slug s) t = Data r ->
  Js.trim (name s) <> "" ->
  newDate (startLocal s) = Some start -> newDate (endLocal s) = Some end_ ->
  start < end_ ->
  let out := addWindow newDate toISOString None served t s in
  rows (snd out) =
    {| win_id := next_row t; win_request_id := req_id r;
       win_user_key := userKey s; win_user_name := Some (Js.trim (name s));
       win_start_ts := toISOString start; win_end_ts := toISOString end_ |}
    :: windows_of (req_id r) t /\
  err (snd out) = None /\ loading (snd out) = false /\
  tw_user_name (snd out) = Js.trim (name s) /\
  req (snd out) = Some r.
Proof.
  intros Hreq Hsel Hname Hs He Hlt. cbv zeta. unfold addWindow.
  cbn [req name startLocal endLocal userKey setErr setUserName].
  rewrite Hreq. apply String.eqb_neq in Hname. rewrite Hname, Hs, He.
  replace (end_ <=? start) with false by (symmetry; apply Z.leb_gt; lia).
  cbn [insert_window snd].
  match goal with |- context [load served ?t1 ?s1] =>
    assert (select_request None (slug s1) t1 = Data r) as Hsel1
      by (unfold select_request in *; exact Hsel);
    rewrite (load_found_request t1 s1 r Hsel1) end.
  cbn. unfold windows_of. cbn. rewrite Nat.eqb_refl. auto.
Qed.

End AvailabilityFacts.

(** ** Creating a request *)

Section NewRequestFacts.

Import Store Availability NewRequestPage.

Lemma label_clean ty : PlanPage.clean (label ty).
Proof. destruct ty; split; (discriminate || reflexivity). Qed.

Lemma label_listed ty : label ty ∈ EVENT_TYPES.
Proof. destruct ty; unfold EVENT_TYPES; set_solver. Qed.

Lemma trimmed_or_clean x y : PlanPage.clean y -> PlanPage.clean (trimmed_or x y).
Proof.
  intros Hy. unfold trimmed_or.
  destruct (String.eqb_spec (Js.trim x) "") as [_ | Hne]; [exact Hy |].
  split; [exact Hne | apply trim_trim].
Qed.

(** X24: a request never gets a blank title.  [createRequest] always ends
    with the button enabled again.  When the insert is served, the row it
    adds has the slug drawn, a title that is not empty and is trimmed (the
    trimmed text of the field, or the name of the type when the field is
    blank), one of the four types, and a note that is null or not empty and
    trimmed; the page moves to the request.  When it fails, the tables are
    as before, the message is shown and the page stays. *)
Theorem createRequest_row sl f t s :
  let out := createRequest sl f t s in
  loading (snd out) = false /\
  match f with
  | None =>
      exists row,
        hang_requests (fst out) = row :: hang_requests t /\
        availability_windows (fst out) = availability_windows t /\
        req_id row = next_row t /\ req_slug row = sl /\
        PlanPage.clean (req_title row) /\
        (Js.trim (title s) <> "" -> req_title row = Js.trim (title s)) /\
        (Js.trim (title s) = "" -> req_title row = label (type s)) /\
        req_type row = label (type s) /\ req_type row ∈ EVENT_TYPES /\
        (forall n, req_note row = Some n -> PlanPage.clean n) /\
        (req_note row = None <-> Js.trim (note s) = "") /\
        pushed (snd out) = Some ("/r/" +:+ sl) /\ error (snd out) = None
  | Some m =>
      fst out = t /\ error (snd out) = Some m /\ pushed (snd out) = pushed s
  end.
Proof.
  cbv zeta. unfold createRequest. destruct f as [m |]; cbn; [auto |].
  split; [reflexivity |]. eexists. split; [reflexivity |].
  cbn [req_id req_slug req_title req_type req_note fresh_request
       rp_slug rp_title rp_type rp_note].
  assert (forall n, trimmed_or_null (note s) = Some n -> PlanPage.clean n) as Hnote.
  { intros n. unfold trimmed_or_null.
    destruct (String.eqb_spec (Js.trim (note s)) "") as [_ | Hne]; [discriminate |].
    intros [= <-]. split; [exact Hne | apply trim_trim]. }
  assert (trimmed_or_null (note s) = None <-> Js.trim (note s) = "") as Hnull.
  { unfold trimmed_or_null.
    destruct (String.eqb_spec (Js.trim (note s)) "") as [He | Hne];
      split; (discriminate || congruence || (intros _; assumption)). }
  assert (Js.trim (title s) <> "" ->
          trimmed_or (title s) (label (type s)) = Js.trim (title s)) as Htitle.
  { intros Hne. unfold trimmed_or. apply String.eqb_neq in Hne. rewrite Hne. reflexivity. }
  assert (Js.trim (title s) = "" ->
          trimmed_or (title s) (label (type s)) = label (type s)) as Hblank.
  { intros He. unfold trimmed_or. rewrite He. reflexivity. }
  pose proof (trimmed_or_clean (title s) _ (label_clean (type s))) as Hclean.
  pose proof (label_listed (type s)) as Hlisted.
  auto 15.
Qed.

(** X25: creation and the request page fit together.  When the slug drawn
    is not that of another request, the route [createRequest] pushes leads
    to a page whose first load finds the request just created, with no
    window yet and no error. *)
Theorem created_request_opens sl key saved start_text end_text t s :
  Forall (fun q => req_slug q <> sl) (hang_requests t) ->
  windows_of_known_requests t ->
  let out := createRequest sl None t s in
  let page := load served (fst out) (first_render sl key saved start_text end_text) in
  NewRequestPage.pushed (snd out) = Some ("/r/" +:+ sl) /\
  (exists row, req page = Some row /\ req_slug row = sl /\
               req_type row = label (type s) /\
               hang_requests (fst out) = row :: hang_requests t) /\
  rows page = [] /\ err page = None /\ Availability.loading page = false.
Proof.
  intros Hfresh Hknown. cbv zeta. unfold createRequest. cbn [fst snd insert_request].
  split; [reflexivity |].
  set (row := fresh_request _ _).
  set (t1 := {| hang_requests := row :: hang_requests t;
                availability_windows := availability_windows t;
                next_row := S (next_row t) |}).
  assert (select_request None sl t1 = Data row) as Hsel.
  { unfold select_request. cbn. rewrite String.eqb_refl, filter_none; [reflexivity |].
    eapply Forall_impl; [exact Hfresh |]. cbn. intros q Hq. apply String.eqb_neq, Hq. }
  rewrite (load_found_request t1 (first_render sl key saved start_text end_text) row Hsel).
  cbn. split; [exists row; auto |]. split; [| auto].
  unfold windows_of. cbn. apply filter_none.
  eapply Forall_impl; [exact Hknown |]. cbn. intros r Hlt. apply Nat.eqb_neq. lia.
Qed.

(** X26: of the four types a request can have, "Potluck" is the only one
    whose plan gets the default items: it is the only one whose name
    contains "potluck" once in lower case. *)
Theorem only_potluck_is_seeded ty :
  Js.includes "potluck" (Js.toLowerCase (label ty)) = true <-> ty = Potluck.
Proof. destruct ty; cbn; split; (reflexivity || discriminate). Qed.

End NewRequestFacts.

(** ** The extras on the small world *)

Lemma counts_each_participant_once_witness :
  (PlanPage.c_in (PlanPage.counts Demo.loaded) +
   PlanPage.c_maybe (PlanPage.counts Demo.loaded) +
   PlanPage.c_out (PlanPage.counts Demo.loaded) = 1)%nat /\
  NoDup (map Store.user_key (PlanPage.responses Demo.loaded)).
Proof.
  apply (counts_each_participant_once Demo.db Demo.loaded Demo.potluck).
  - repeat split.
  - apply NoDup_singleton.
Defined.

Lemma first_load_screen_witness :
  PlanPage.screen (PlanPage.load true PlanPage.served Demo.db Demo.opened) <>
  PlanPage.Spinner.
Proof. apply (first_load_screen PlanPage.served Demo.db Demo.opened). reflexivity. Defined.

Lemma tick_keeps_card_witness :
  PlanPage.screen (PlanPage.tick Demo.responses_down Demo.db Demo.loaded) = PlanPage.Card.
Proof. apply (tick_keeps_card Demo.responses_down Demo.db Demo.loaded). reflexivity. Defined.

Lemma tick_unchanged_store_witness :
  PlanPage.tick PlanPage.served Demo.db Demo.loaded = PlanPage.setErr None Demo.loaded.
Proof.
  apply (tick_unchanged_store Demo.db Demo.loaded Demo.potluck). repeat split.
Defined.

Lemma response_needs_name_witness :
  fst (PlanPage.setRSVP Store.st_in None PlanPage.served Demo.db Demo.nameless) = Demo.db.
Proof.
  apply (response_needs_name Store.st_in "On time" None PlanPage.served Demo.db Demo.nameless).
  reflexivity.
Defined.


Lemma response_leaves_others_witness :
  Store.responses_by 1%nat "key-alice"
    (fst (PlanPage.setRSVP Store.st_out None PlanPage.served Demo.db Demo.loaded)) =
  [Demo.alice_in].
Proof.
  apply (response_leaves_others Store.st_out "On time" None PlanPage.served
           Demo.db Demo.loaded Demo.potluck 1%nat "key-alice").
  - reflexivity.
  - discriminate.
Defined.

Lemma claim_leaves_other_items_witness :
  Store.claimant 1%nat "Dessert"
    (fst (PlanPage.claimItem "Drinks" None PlanPage.served
            (fst Demo.seeded) (snd Demo.seeded))) =
  Some (Some "Alice").
Proof.
  apply (claim_leaves_other_items "Drinks" None PlanPage.served
           (fst Demo.seeded) (snd Demo.seeded) Demo.potluck 1%nat "Dessert").
  - repeat split.
  - apply (bool_decide_unpack _). vm_compute. exact I.
  - discriminate.
Defined.

Lemma handlers_keep_names_clean_witness :
  PlanPage.names_clean
    (fst (PlanPage.claimItem "Dessert" None PlanPage.served Demo.db Demo.loaded)).
Proof.
  apply (handlers_keep_names_clean Store.st_in "On time" "Dessert" None PlanPage.served
           Demo.db Demo.loaded).
  split; (constructor; [| constructor]); intros n [= <-]; split;
    (discriminate || reflexivity).
Defined.

Lemma unclaim_button_works_witness :
  Store.claims
    (fst (PlanPage.unclaimItem "Dessert" None PlanPage.served Demo.db Demo.alice_page)) =
  [ Store.with_claimed_by None Demo.dessert ].
Proof.
  apply (unclaim_button_works Demo.dessert None PlanPage.served Demo.db Demo.alice_page
           Demo.potluck); reflexivity.
Defined.

Lemma promoted_plan_opens_witness :
  let out := RequestPage.createPlanFromOverlap Js.toISOString "pQ7dL0x_Wa" None
               Demo.t1030 Demo.t1100 Demo.db Demo.request_page in
  let opened :=
    PlanPage.load_and_effect true None PlanPage.served PlanPage.served (fst out)
      (PlanPage.first_render "pQ7dL0x_Wa" "key-bob" "Bob") in
  PlanPage.screen (snd opened) = PlanPage.Card /\
  map Store.item (PlanPage.claims (snd opened)) = PlanPage.DEFAULT_POTLUCK_ITEMS.
Proof.
  cbv zeta.
  destruct (promoted_plan_opens Js.toISOString "pQ7dL0x_Wa" "key-bob" "Bob"
              Demo.t1030 Demo.t1100 Demo.db Demo.request_page Demo.hang)
    as (_ & Hscreen & _ & _ & _ & _ & Hpot).
  - reflexivity.
  - repeat constructor. discriminate.
  - split; repeat constructor.
  - split; [exact Hscreen |]. apply Hpot. reflexivity.
Defined.

(** The page of a promoted playdate lists no claim, and the store has
    none more than before. *)
Example promoted_playdate_opens :
  let out := RequestPage.createPlanFromOverlap Js.toISOString "pQ7dL0x_Wa" None
               Demo.t1030 Demo.t1100 Demo.db Demo.playdate_page in
  let opened :=
    PlanPage.load_and_effect true None PlanPage.served PlanPage.served (fst out)
      (PlanPage.first_render "pQ7dL0x_Wa" "key-bob" "Bob") in
  PlanPage.screen (snd opened) = PlanPage.Card /\
  PlanPage.claims (snd opened) = [] /\
  Store.claims (fst opened) = Store.claims Demo.db.
Proof. repeat split; reflexivity. Qed.

Lemma promoted_potluck_is_seeded_witness :
  let out := RequestPage.createPlanFromOverlap Js.toISOString "pQ7dL0x_Wa" None
               Demo.t1030 Demo.t1100 Demo.db Demo.request_page in
  let page := PlanPage.load true PlanPage.served (fst out)
                (PlanPage.first_render "pQ7dL0x_Wa" "key-bob" "Bob") in
  map Store.item
    (PlanPage.claims (snd (PlanPage.potluckEffect None PlanPage.served (fst out) page))) =
  PlanPage.DEFAULT_POTLUCK_ITEMS.
Proof.
  apply (promoted_potluck_is_seeded Js.toISOString "pQ7dL0x_Wa" "key-bob" "Bob"
           Demo.t1030 Demo.t1100 Demo.db Demo.request_page Demo.hang).
  - reflexivity.
  - repeat constructor. discriminate.
  - split; repeat constructor.
  - reflexivity.
Defined.

Lemma addWindow_then_shown_witness :
  Availability.rows
    (snd (Availability.addWindow Demo.clock Js.toISOString None Availability.served
            Demo.tables Demo.bob_form)) =
  [ {| Availability.win_id := 2%nat; Availability.win_request_id := 0%nat;
       Availability.win_user_key := "key-bob";
       Availability.win_user_name := Some "Bob";
       Availability.win_start_ts := "2024-01-01T10:30:00.000Z";
       Availability.win_end_ts := "2024-01-01T11:30:00.000Z" |};
    Demo.alice_window ].
Proof.
  apply (addWindow_then_shown Demo.clock Js.toISOString Demo.tables Demo.bob_form
           Demo.hang Demo.t1030 Demo.t1130).
  - reflexivity.
  - reflexivity.
  - discriminate.
  - reflexivity.
  - reflexivity.
  - reflexivity.
Defined.

Lemma created_request_opens_witness :
  let out := NewRequestPage.createRequest "Zk3u9_QwLp" None Demo.tables Demo.new_form in
  Availability.rows
    (Availability.load Availability.served (fst out)
       (Availability.first_render "Zk3u9_QwLp" "key-bob" "Bob"
          "2024-01-01T10:30" "2024-01-01T11:30")) = [].
Proof.
  apply (created_request_opens "Zk3u9_QwLp" "key-bob" "Bob"
           "2024-01-01T10:30" "2024-01-01T11:30" Demo.tables Demo.new_form).
  - repeat constructor. discriminate.
  - repeat constructor.
Defined.

(** The request of the blank form is called after its type, and its note
    is trimmed. *)
Example createRequest_blank_title :
  Availability.hang_requests
    (fst (NewRequestPage.createRequest "Zk3u9_QwLp" None Demo.tables Demo.new_form)) =
  [ {| Store.req_id := 2%nat; Store.req_slug := "Zk3u9_QwLp";
       Store.req_title := "Potluck"; Store.req_type := "Potluck";
       Store.req_note := Some "Bring a dish" |};
    Demo.hang ].
Proof. reflexivity. Qed.

(** A title and a note of white space beyond ASCII are blank too. *)
Example createRequest_spaces :
  Availability.hang_requests
    (fst (NewRequestPage.createRequest "Zk3u9_QwLp" None Demo.tables Demo.spaces_form)) =
  [ {| Store.req_id := 2%nat; Store.req_slug := "Zk3u9_QwLp";
       Store.req_title := "Playdate"; Store.req_type := "Playdate";
       Store.req_note := None |};
    Demo.hang ].
Proof. reflexivity. Qed.

(** ** What was chosen is shown back *)

Section ChoiceFacts.

Import Store PlanPage.

(** X27: the page shows back what the participant chose.  After a served
    [setRSVP] the participant's own response on the page, which decides
    the highlighted button, has the status chosen; after a served
    [setArrival] its arrival, the value of the select, is the one chosen;
    in both its name is the trimmed name of the field, which is also the
    name saved. *)
Theorem choice_shown_back st a db s p :
  shows db s p ->
  Js.trim (name s) <> "" ->
  unique_responses db ->
  let answered := snd (setRSVP st None served db s) in
  let arrived := snd (setArrival a None served db s) in
  status <$> myResponse answered = Some st /\
  myResponse arrived ≫= arrival = Some a /\
  myResponse answered ≫= user_name = Some (Js.trim (name s)) /\
  myResponse arrived ≫= user_name = Some (Js.trim (name s)) /\
  tw_user_name answered = Js.trim (name s) /\
  tw_user_name arrived = Js.trim (name s).
Proof.
  intros (Hplan & Hsel & _) Hname Huniq. cbv zeta.
  set (s0 := setUserName (Js.trim (name s)) (setErr None s)).
  assert (plan s0 = Some p) as Hplan0 by exact Hplan.
  assert (select_plan None (slug s0) db = Data p) as Hsel0 by exact Hsel.
  assert (forall pl, tw_user_name (snd (submit pl None served db s0)) = Js.trim (name s))
    as Hsaved.
  { intros pl. rewrite submit_served. cbn [snd].
    assert (select_plan None (slug s0) (fst (upsert_response None pl db)) = Data p) as H1
      by (rewrite <- Hsel0; apply select_plan_plans, upsert_plans).
    destruct (load_served_shows _ s0 p H1) as (_ & _ & _ & _ & Htw & _). exact Htw. }
  rewrite (setRSVP_served st served db s p Hplan Hname),
          (setArrival_served a served db s p Hplan Hname). fold s0.
  rewrite !Hsaved.
  match goal with |- context [submit ?pl None served db s0] =>
    destruct (submit_leaves pl db s0 p Hplan0 Hsel0 eq_refl eq_refl Huniq)
      as (r1 & _ & Hm1 & Hmine1 & _) end.
  rewrite Hmine1.
  match goal with |- context [myResponse (snd (submit ?pl None served db s0)) ≫= arrival] =>
    destruct (submit_leaves pl db s0 p Hplan0 Hsel0 eq_refl eq_refl Huniq)
      as (r2 & _ & Hm2 & Hmine2 & _) end.
  rewrite Hmine2. cbn.
  rewrite <- Hm1 at 1 2. rewrite <- Hm2. cbn. auto 10.
Qed.

End ChoiceFacts.

Lemma choice_shown_back_witness :
  Store.status <$>
    PlanPage.myResponse
      (snd (PlanPage.setRSVP Store.st_in None PlanPage.served Demo.db Demo.loaded)) =
  Some Store.st_in.
Proof.
  apply (choice_shown_back Store.st_in "On time" Demo.db Demo.loaded Demo.potluck).
  - repeat split.
  - discriminate.
  - apply NoDup_singleton.
Defined.

(** Bob's window from 10:30 to 11:30 joins Alice's, and both end after
    they start. *)
Lemma addWindow_only_chronological_witness :
  Availability.chronological Js.toISOString
    (fst (Availability.addWindow Demo.clock Js.toISOString None Availability.served
            Demo.tables Demo.bob_form)).
Proof.
  apply (addWindow_only_chronological Demo.clock Js.toISOString None Availability.served
           Demo.tables Demo.bob_form).
  constructor; [| constructor].
  exists Demo.t1000, Demo.t1100. repeat split.
Defined.
